(** * lstchain.calib.camera.calib: pedestal subtraction and gain selection

    A shallow embedding of [lstchain/calib/camera/calib.py]
    ([lst_calibration], [gain_selection], [combine_channels]) together with
    the part of numpy the three functions rely on: shapes, C-ordered flat
    data, broadcasting, views and copies, and boolean-mask indexing.

    Arrays that the event owns live in a store of buffers and are handled
    through references (views), so that aliasing between [charges],
    [charges[0]] and the combined image is visible.  Temporaries that no
    one else can reach are plain values.  The event is modelled with its
    ctapipe maps, whose lookups store an empty container for a telescope
    they do not hold, and with fields that hold [None] until they are set;
    the functions hand such values on as Python does, and raise where they
    first use them.  The two ctapipe strategies the module calls (the gain
    selector and the charge extractor) are parameters of the
    development. *)

From Stdlib Require Import ZArith QArith Lia.
From stdpp Require Import gmap strings list fin_maps.

Local Open Scope nat_scope.

(** ** Exceptions *)

(** The Python exceptions the modelled code can raise.  [NoneError] stands
    for the [AttributeError] or [TypeError] that the first use of a [None]
    raises.  [InvalidObject] is not a Python exception: it is the outcome
    of the model on an array whose cells disagree with its shape or fall
    outside its buffer, which numpy never builds. *)
Inductive exn :=
  | AssertionError
  | IndexError
  | KeyError
  | ValueError
  | AxisError
  | NoneError
  | InvalidObject.

(** ** Array values *)

(** An array value: its shape and its elements in C order. *)
Record ndarray (T : Type) := NDArray { shape : list nat; data : list T }.
Arguments NDArray {T} _ _.
Arguments shape {T} _.
Arguments data {T} _.

(** Number of elements of an array of the given shape. *)
Definition numel (sh : list nat) : nat := foldr Nat.mul 1 sh.

(** The invariant numpy keeps on every array. *)
Definition wf_array {T} (a : ndarray T) : Prop :=
  length (data a) = numel (shape a).

(** [gather d idxs] reads [d] at each index of [idxs]. *)
Definition gather {T} (d : list T) (idxs : list nat) : option (list T) :=
  mapM (fun i => d !! i) idxs.

(** *** Broadcasting *)

(** numpy's broadcasting rule on shapes written innermost axis first: the
    shorter shape is padded, and two extents agree when they are equal or
    one of them is 1. *)
Fixpoint broadcast_rev (s1 s2 : list nat) : option (list nat) :=
  match s1, s2 with
  | [], _ => Some s2
  | _, [] => Some s1
  | n :: s1', m :: s2' =>
      match broadcast_rev s1' s2' with
      | None => None
      | Some r =>
          if n =? m then Some (n :: r)
          else if n =? 1 then Some (m :: r)
          else if m =? 1 then Some (n :: r)
          else None
      end
  end.

Definition broadcast_shapes (s1 s2 : list nat) : option (list nat) :=
  reverse <$> broadcast_rev (reverse s1) (reverse s2).

(** Flat position in the source of the element that lands at flat position
    [k] of the broadcast result (both shapes innermost axis first): an axis
    of extent 1, or a missing axis, is read at index 0. *)
Fixpoint source_index (src tgt : list nat) (k : nat) : nat :=
  match src, tgt with
  | n :: src', m :: tgt' =>
      (if n =? 1 then 0 else k mod m) + n * source_index src' tgt' (k / m)
  | _, _ => 0
  end.

Definition broadcast_to {T} (a : ndarray T) (tgt : list nat) : option (ndarray T) :=
  match gather (data a)
          (map (source_index (reverse (shape a)) (reverse tgt)) (seq 0 (numel tgt))) with
  | Some d => Some (NDArray tgt d)
  | None => None
  end.

(** A binary ufunc: broadcast both operands, then combine pointwise. *)
Definition elementwise {T} (f : T -> T -> T) (a b : ndarray T) : exn + ndarray T :=
  match broadcast_shapes (shape a) (shape b) with
  | None => inl ValueError
  | Some sh =>
      match broadcast_to a sh, broadcast_to b sh with
      | Some a', Some b' => inr (NDArray sh (zip_with f (data a') (data b')))
      | _, _ => inl InvalidObject
      end
  end.

(** [np.atleast_3d]: a view with the shape padded to three axes. *)
Definition atleast_3d {T} (a : ndarray T) : ndarray T :=
  match shape a with
  | [] => NDArray [1; 1; 1] (data a)
  | [n] => NDArray [1; n; 1] (data a)
  | [m; n] => NDArray [m; n; 1] (data a)
  | _ => a
  end.

(** *** Boolean masks *)

(** The order on booleans numpy's [maximum] uses: [False < True]. *)
Definition bool_max (a b : bool) : bool :=
  if Nat.b2n a <? Nat.b2n b then b else a.

(** A reduction without identity: it starts from the first element and
    fails on an empty sequence. *)
Definition reduce_max (l : list bool) : option bool :=
  match l with
  | [] => None
  | x :: xs => Some (foldl bool_max x xs)
  end.

(** [m.max(axis=1)]: the array needs two axes at least, the reduced axis
    must not be empty, and the result drops that axis. *)
Definition max_axis1 (m : ndarray bool) : exn + ndarray bool :=
  match shape m with
  | d0 :: d1 :: rest =>
      let r := numel rest in
      if d1 =? 0 then inl ValueError
      else
        match mapM (fun ik =>
                      reduce_max
                        (omap (fun j => data m !! ((ik.1 * d1 + j) * r + ik.2)) (seq 0 d1)))
                   (i ← seq 0 d0; (fun k => (i, k)) <$> seq 0 r) with
        | Some d => inr (NDArray (d0 :: rest) d)
        | None => inl InvalidObject
        end
  | _ => inl AxisError
  end.

(** One mask entry per selected block of [r] elements. *)
Definition expand_mask (r : nat) (mask : list bool) : list bool :=
  b ← mask; replicate r b.

(** The elements of [xs] at the positions where [mask] holds. *)
Fixpoint select {T} (mask : list bool) (xs : list T) : list T :=
  match mask, xs with
  | b :: mask', x :: xs' =>
      if b then x :: select mask' xs' else select mask' xs'
  | _, _ => []
  end.

(** Number of entries of the mask that hold. *)
Definition count_true (mask : list bool) : nat :=
  foldr (fun (b : bool) n => if b then S n else n) 0 mask.

(** A boolean array indexes the leading axes of an array: its shape must
    equal the leading extents.  Returns the trailing extents. *)
Definition mask_axes (ms sh : list nat) : option (list nat) :=
  if decide (take (length ms) sh = ms) then Some (drop (length ms) sh) else None.

(** [a[m]] for a boolean array [m]: a fresh array of the selected blocks. *)
Definition compress {T} (a : ndarray T) (m : ndarray bool) : exn + ndarray T :=
  match mask_axes (shape m) (shape a) with
  | None => inl IndexError
  | Some rest =>
      inr (NDArray (count_true (data m) :: rest)
                   (select (expand_mask (numel rest) (data m)) (data a)))
  end.

(** Writes [vals] in order into buffer [b] at the cells whose mask entry
    holds. *)
Fixpoint scatter {T} (cells : list nat) (mask : list bool) (vals : list T)
    (b : list T) : list T :=
  match cells, mask with
  | c :: cells', true :: mask' =>
      match vals with
      | v :: vals' => scatter cells' mask' vals' (<[c := v]> b)
      | [] => b
      end
  | _ :: cells', false :: mask' => scatter cells' mask' vals b
  | _, _ => b
  end.

(** The array that holds [lo] where the mask holds and [hi] elsewhere:
    what masked assignment of [lo[mask]] into a copy of [hi] builds. *)
Definition merge {T} (mask : list bool) (hi lo : list T) : list T :=
  zip_with (fun (m : bool) (hl : T * T) => if m then hl.2 else hl.1) mask (zip hi lo).

(** ** The store, references and the event *)

(** A buffer address. *)
Definition loc := positive.

(** An array reference: a view on a buffer.  [cells] lists, in C order,
    the buffer position of every element of the view, which covers any
    offset and strides; [vshape] is the shape of the view. *)
Record aref := ARef { buf : loc; cells : list nat; vshape : list nat }.

(** [event.r0.tel[id]].  A field that was never set holds [None]. *)
Record R0CameraContainer := { waveform : option aref }.

(** [event.mc.tel[id]] *)
Record MCCameraEventContainer := { pedestal : option aref; dc_to_pe : option aref }.

(** [event.dl1.tel[id]] *)
Record DL1CameraContainer := { image : option aref; pulse_time : option aref }.

(** [event.inst.subarray.tel[id].camera] *)
Record CameraGeometry := { cam_id : string }.

(** [event.inst.subarray.tel[id]] *)
Record TelescopeDescription := { camera : CameraGeometry }.

(** The event container.  Every [tel] map is keyed by telescope id.  The
    maps of [r0], [mc] and [dl1] are ctapipe [Map]s, dictionaries with a
    default: looking up an id they do not hold stores an empty container,
    all of whose fields are [None], under that id and hands it out.
    [inst.subarray.tel] is a plain dict, where such a lookup raises
    [KeyError]. *)
Record DataContainer := {
  r0_tel : gmap Z R0CameraContainer;
  mc_tel : gmap Z MCCameraEventContainer;
  dl1_tel : gmap Z DL1CameraContainer;
  inst_subarray_tel : gmap Z TelescopeDescription
}.

Definition set_r0_tel (f : gmap Z R0CameraContainer -> gmap Z R0CameraContainer)
    (ev : DataContainer) : DataContainer :=
  {| r0_tel := f (r0_tel ev); mc_tel := mc_tel ev; dl1_tel := dl1_tel ev;
     inst_subarray_tel := inst_subarray_tel ev |}.

Definition set_mc_tel
    (f : gmap Z MCCameraEventContainer -> gmap Z MCCameraEventContainer)
    (ev : DataContainer) : DataContainer :=
  {| r0_tel := r0_tel ev; mc_tel := f (mc_tel ev); dl1_tel := dl1_tel ev;
     inst_subarray_tel := inst_subarray_tel ev |}.

Definition set_dl1_tel (f : gmap Z DL1CameraContainer -> gmap Z DL1CameraContainer)
    (ev : DataContainer) : DataContainer :=
  {| r0_tel := r0_tel ev; mc_tel := mc_tel ev; dl1_tel := f (dl1_tel ev);
     inst_subarray_tel := inst_subarray_tel ev |}.

Definition set_image (r : aref) (c : DL1CameraContainer) : DL1CameraContainer :=
  {| image := Some r; pulse_time := pulse_time c |}.

Definition set_pulse_time (r : aref) (c : DL1CameraContainer) : DL1CameraContainer :=
  {| image := image c; pulse_time := Some r |}.

Definition empty_r0 : R0CameraContainer := {| waveform := None |}.

Definition empty_mc : MCCameraEventContainer := {| pedestal := None; dc_to_pe := None |}.

Definition empty_dl1 : DL1CameraContainer := {| image := None; pulse_time := None |}.

(** The container that [m[id]] hands out on a ctapipe [Map] whose empty
    container is [dflt].  This is the value of the lookup only; the lookup
    as the code runs it, which also stores the empty container under a new
    id, is [r0_tel_getitem], [mc_tel_getitem] and [dl1_tel_getitem]
    below. *)
Definition tel_get {C} (dflt : C) (m : gmap Z C) (id : Z) : C :=
  default dflt (m !! id).

Section Calib.

(** Element type of the numeric arrays, and type of a gain threshold. *)
Context {A Th : Type}.

(** Everything the three functions can read or write: the array buffers,
    the table [gain_selector.thresholds] of the module-level selector, and
    the event, which the caller passes by reference. *)
Record World := {
  arrays : gmap loc (list A);
  thresholds : gmap string Th;
  event : DataContainer
}.

Definition set_arrays (f : gmap loc (list A) -> gmap loc (list A)) (w : World) : World :=
  {| arrays := f (arrays w); thresholds := thresholds w; event := event w |}.

Definition set_thresholds (f : gmap string Th -> gmap string Th) (w : World) : World :=
  {| arrays := arrays w; thresholds := f (thresholds w); event := event w |}.

Definition set_event (f : DataContainer -> DataContainer) (w : World) : World :=
  {| arrays := arrays w; thresholds := thresholds w; event := f (event w) |}.

(** *** A state and exception monad *)

(** A run either returns a value or raises; both leave a world behind. *)
Inductive outcome (R : Type) :=
  | Return (r : R) (w : World)
  | Raise (e : exn) (w : World).
Arguments Return {R} _ _.
Arguments Raise {R} _ _.

Definition M (R : Type) : Type := World -> outcome R.

Definition ret {R} (r : R) : M R := fun w => Return r w.

Definition raise {R} (e : exn) : M R := fun w => Raise e w.

Definition bind {R S} (c : M R) (k : R -> M S) : M S :=
  fun w => match c w with
           | Return r w' => k r w'
           | Raise e w' => Raise e w'
           end.

Definition final_world {R} (o : outcome R) : World :=
  match o with Return _ w => w | Raise _ w => w end.

Definition lift {R} (x : exn + R) : M R :=
  match x with inl e => raise e | inr r => ret r end.

Definition lift_opt {R} (e : exn) (x : option R) : M R :=
  match x with None => raise e | Some r => ret r end.

Definition gets {R} (f : World -> R) : M R := fun w => Return (f w) w.

Definition modify (f : World -> World) : M unit := fun w => Return tt (f w).

Definition assert_ (b : bool) : M unit :=
  if b then ret tt else raise AssertionError.

End Calib.

Arguments World : clear implicits.
Arguments outcome : clear implicits.
Arguments M : clear implicits.
Arguments Return {A Th R} _ _.
Arguments Raise {A Th R} _ _.

(** The monad is used through stdpp's notations [x ← c; k] and [c;; k]. *)
#[export] Instance M_ret {A Th} : MRet (M A Th) := fun R => @ret A Th R.
#[export] Instance M_bind {A Th} : MBind (M A Th) := fun R S k c => @bind A Th R S c k.

(** ** Operations on the store *)

Section Store.

Context {A Th : Type}.

Local Abbreviation M := (M A Th).

(** The array a reference denotes in a store. *)
Definition load (h : gmap loc (list A)) (r : aref) : option (ndarray A) :=
  match h !! buf r with
  | None => None
  | Some b =>
      match gather b (cells r) with
      | None => None
      | Some d => Some (NDArray (vshape r) d)
      end
  end.

Definition read (r : aref) : M (ndarray A) :=
  fun w => match load (arrays w) r with
           | Some a => Return a w
           | None => Raise InvalidObject w
           end.

(** A new array object: a fresh buffer holding the elements, and a
    contiguous reference to it. *)
Definition alloc (a : ndarray A) : M aref :=
  fun w =>
    let l := fresh (dom (arrays w)) in
    Return (ARef l (seq 0 (length (data a))) (shape a))
           (set_arrays (insert l (data a)) w).

(** [r.copy()] *)
Definition copy (r : aref) : M aref :=
  a ← read r; alloc a.

(** [r.shape[i]] *)
Definition shape_at (r : aref) (i : nat) : exn + nat :=
  match vshape r !! i with
  | Some d => inr d
  | None => inl IndexError
  end.

(** [r[i]] for an integer [i]: a view on block [i] of the leading axis,
    sharing the buffer of [r]. *)
Definition getitem (r : aref) (i : nat) : exn + aref :=
  match vshape r with
  | d :: rest =>
      if i <? d
      then inr (ARef (buf r)
                     (take (numel rest) (drop (i * numel rest) (cells r)))
                     rest)
      else inl IndexError
  | [] => inl IndexError
  end.

(** [r[m]] for a boolean array [m]: a new array value. *)
Definition mask_getitem (r : aref) (m : ndarray bool) : M (ndarray A) :=
  a ← read r; lift (compress a m).

(** Stores [vals] through [r] at the cells selected by [mask]. *)
Definition write (r : aref) (mask : list bool) (vals : list A) : M unit :=
  fun w => match arrays w !! buf r with
           | Some b =>
               Return tt (set_arrays (insert (buf r) (scatter (cells r) mask vals b)) w)
           | None => Raise InvalidObject w
           end.

(** [r[m] = v] for a boolean array [m]: [v] is broadcast to the shape of
    [r[m]] and written in place into the buffer of [r]. *)
Definition mask_setitem (r : aref) (m : ndarray bool) (v : ndarray A) : M unit :=
  match mask_axes (shape m) (vshape r) with
  | None => raise IndexError
  | Some rest =>
      let tgt := count_true (data m) :: rest in
      if decide (broadcast_shapes (shape v) tgt = Some tgt) then
        match broadcast_to v tgt with
        | Some v' => write r (expand_mask (numel rest) (data m)) (data v')
        | None => raise InvalidObject
        end
      else raise ValueError
  end.

(** [event.r0.tel[id]], [event.mc.tel[id]] and [event.dl1.tel[id]], as
    the code evaluates them: the container the map holds for [id]; when it
    holds none, an empty container is stored under [id] and handed out,
    so that the lookup changes the event. *)
Definition r0_tel_getitem (id : Z) : M R0CameraContainer :=
  ev ← gets event;
  match r0_tel ev !! id with
  | Some c => mret c
  | None => modify (set_event (set_r0_tel (insert id empty_r0)));; mret empty_r0
  end.

Definition mc_tel_getitem (id : Z) : M MCCameraEventContainer :=
  ev ← gets event;
  match mc_tel ev !! id with
  | Some c => mret c
  | None => modify (set_event (set_mc_tel (insert id empty_mc)));; mret empty_mc
  end.

Definition dl1_tel_getitem (id : Z) : M DL1CameraContainer :=
  ev ← gets event;
  match dl1_tel ev !! id with
  | Some c => mret c
  | None => modify (set_event (set_dl1_tel (insert id empty_dl1)));; mret empty_dl1
  end.

(** [event.dl1.tel[tel_id].<field> = ...]: the container is looked up
    (an empty one is created for a new id), then one of its fields is
    rebound. *)
Definition setattr_dl1 (tel_id : Z) (f : DL1CameraContainer -> DL1CameraContainer)
    : M unit :=
  modify (set_event (set_dl1_tel (fun m => <[tel_id := f (tel_get empty_dl1 m tel_id)]> m))).

(** ** Gain selection *)

(** [gain_selector.select_gains] of the module-level
    [ThresholdGainSelector(select_by_sample=True)], a ctapipe object: from
    the threshold table, the camera id and the waveform it returns the
    selected waveform and the per-sample gain mask, or raises.  It reads
    its arguments and writes nothing. *)
Variable select_gains :
  gmap string Th -> string -> ndarray A -> exn + (ndarray A * ndarray bool).

Definition call_select_gains (cam : string) (waveform : aref)
    : M (ndarray A * ndarray bool) :=
  wf ← read waveform;
  tbl ← gets thresholds;
  lift (select_gains tbl cam wf).

(** Lines 71 to 81 of the source: [gain_selection] past its assertion. *)
Definition gain_selection_body (waveform charges pulse_time : aref) (cam : string)
    (threshold : Th) : M (aref * aref) :=
  (* gain_selector.thresholds[cam_id] = threshold *)
  modify (set_thresholds (insert cam threshold));;
  (* waveform, gain_mask = gain_selector.select_gains(cam_id, waveform) *)
  '(_, gain_mask) ← call_select_gains cam waveform;
  (* signal_mask = gain_mask.max(axis=1) *)
  signal_mask ← lift (max_axis1 gain_mask);
  (* combined_image = charges[0].copy() *)
  high ← lift (getitem charges 0);
  combined_image ← copy high;
  (* combined_image[signal_mask] = charges[1][signal_mask].copy() *)
  low ← lift (getitem charges 1);
  vals ← mask_getitem low signal_mask;
  mask_setitem combined_image signal_mask vals;;
  (* combined_pulse_time = pulse_time[0].copy() *)
  high_t ← lift (getitem pulse_time 0);
  combined_pulse_time ← copy high_t;
  (* combined_pulse_time[signal_mask] = pulse_time[1][signal_mask].copy() *)
  low_t ← lift (getitem pulse_time 1);
  vals_t ← mask_getitem low_t signal_mask;
  mask_setitem combined_pulse_time signal_mask vals_t;;
  mret (combined_image, combined_pulse_time).

Definition gain_selection (waveform charges pulse_time : aref) (cam : string)
    (threshold : Th) : M (aref * aref) :=
  (* assert charges.shape[0] == 2 *)
  d0 ← lift (shape_at charges 0);
  assert_ (d0 =? 2);;
  gain_selection_body waveform charges pulse_time cam threshold.

(** *** Arguments that are not arrays *)

(** [gain_selection] above is the function on three arrays.  Python does
    not check what it is handed, and [combine_channels] hands it whatever
    the fields of the event hold, an array or [None].  The function is
    written out once more for such values, as [gain_selection_values]: the
    same statements in the same order, where each argument that is [None]
    raises at the statement that first uses it, after everything before it
    has run.  On three arrays the two definitions are the same function
    (lemma [gain_selection_values_arrays]). *)

(** Modelled from the spec: [gain_selector.select_gains(cam_id, waveform)]
    on a waveform that may be [None].  The selector runs over the samples
    of the raw waveform (section 4.2, step 2), so a [None] in the place of
    the waveform raises inside the selector, at its first use; the table
    was written before, and the selector writes nothing. *)
Definition call_select_gains_value (cam : string) (waveform : option aref)
    : M (ndarray A * ndarray bool) :=
  match waveform with
  | Some wfm => call_select_gains cam wfm
  | None => raise NoneError
  end.

Definition gain_selection_values (waveform charges pulse_time : option aref)
    (cam : string) (threshold : Th) : M (aref * aref) :=
  (* assert charges.shape[0] == 2 *)
  charges ← lift_opt NoneError charges;
  d0 ← lift (shape_at charges 0);
  assert_ (d0 =? 2);;
  (* gain_selector.thresholds[cam_id] = threshold *)
  modify (set_thresholds (insert cam threshold));;
  (* waveform, gain_mask = gain_selector.select_gains(cam_id, waveform) *)
  '(_, gain_mask) ← call_select_gains_value cam waveform;
  (* signal_mask = gain_mask.max(axis=1) *)
  signal_mask ← lift (max_axis1 gain_mask);
  (* combined_image = charges[0].copy() *)
  high ← lift (getitem charges 0);
  combined_image ← copy high;
  (* combined_image[signal_mask] = charges[1][signal_mask].copy() *)
  low ← lift (getitem charges 1);
  vals ← mask_getitem low signal_mask;
  mask_setitem combined_image signal_mask vals;;
  (* combined_pulse_time = pulse_time[0].copy() *)
  pulse_time ← lift_opt NoneError pulse_time;
  high_t ← lift (getitem pulse_time 0);
  combined_pulse_time ← copy high_t;
  (* combined_pulse_time[signal_mask] = pulse_time[1][signal_mask].copy() *)
  low_t ← lift (getitem pulse_time 1);
  vals_t ← mask_getitem low_t signal_mask;
  mask_setitem combined_pulse_time signal_mask vals_t;;
  mret (combined_image, combined_pulse_time).

(** ** Channel combination *)

Definition combine_channels (tel_id : Z) (threshold : Th) : M unit :=
  (* cam_id = event.inst.subarray.tel[tel_id].camera.cam_id *)
  ev ← gets event;
  tel ← lift_opt KeyError (inst_subarray_tel ev !! tel_id);
  let cam := cam_id (camera tel) in
  (* waveform = event.r0.tel[tel_id].waveform *)
  r0 ← r0_tel_getitem tel_id;
  let waveform := waveform r0 in
  (* charges = event.dl1.tel[tel_id].image *)
  dl1 ← dl1_tel_getitem tel_id;
  let charges := image dl1 in
  (* pulse_time = event.dl1.tel[tel_id].pulse_time *)
  dl1 ← dl1_tel_getitem tel_id;
  let pulse_time := pulse_time dl1 in
  (* combined_image, combined_pulse_time =
       gain_selection(waveform, charges, pulse_time, cam_id, threshold) *)
  '(combined_image, combined_pulse_time) ←
    gain_selection_values waveform charges pulse_time cam threshold;
  (* event.dl1.tel[tel_id].image = combined_image *)
  setattr_dl1 tel_id (set_image combined_image);;
  (* event.dl1.tel[tel_id].pulse_time = combined_pulse_time *)
  setattr_dl1 tel_id (set_pulse_time combined_pulse_time).

End Store.

(** ** Calibration *)

(** The arithmetic of the element type, as numpy applies it pointwise. *)
Class Dtype (A : Type) := {
  of_int : Z -> A;
  subtract : A -> A -> A;
  multiply : A -> A -> A;
  true_divide : A -> A -> A;
  astype_float : A -> A
}.

Section Calibration.

Context {A Th : Type} `{Dtype A}.

Local Abbreviation M := (M A Th).

(** [LocalPeakWindowSum()], ctapipe's charge extractor: from the corrected
    waveform it returns the integrated charge and the pulse time, two new
    arrays, or raises. *)
Variable LocalPeakWindowSum : ndarray A -> exn + (ndarray A * ndarray A).

Definition map_array (f : A -> A) (a : ndarray A) : ndarray A :=
  NDArray (shape a) (f <$> data a).

(** [data - np.atleast_3d(ped) / nsamples] with [nsamples = data.shape[2]] *)
Definition pedcorrectedsamples (data ped : ndarray A) : exn + ndarray A :=
  match shape data !! 2 with
  | None => inl IndexError
  | Some nsamples =>
      elementwise subtract data
        (map_array (fun x => true_divide x (of_int (Z.of_nat nsamples)))
                   (atleast_3d ped))
  end.

(** [r *= o]: [o] is broadcast to the shape of [r], which the result is
    written back to, in place. *)
Definition imul (r o : aref) : M unit :=
  a ← read r;
  b ← read o;
  if decide (broadcast_shapes (shape a) (shape b) = Some (shape a)) then
    match broadcast_to b (shape a) with
    | Some b' =>
        write r (replicate (length (cells r)) true)
              (zip_with multiply (data a) (data b'))
    | None => raise InvalidObject
    end
  else raise ValueError.

Definition lst_calibration (telescope_id : Z) : M unit :=
  (* data = event.r0.tel[telescope_id].waveform *)
  r0 ← r0_tel_getitem telescope_id;
  let data := waveform r0 in
  (* ped = event.mc.tel[telescope_id].pedestal *)
  mc ← mc_tel_getitem telescope_id;
  let ped := pedestal mc in
  (* nsamples = data.shape[2], which raises on a [None] and on a waveform
     of fewer than three axes, before the pedestal is used *)
  data ← lift_opt NoneError data;
  lift (shape_at data 2);;
  (* pedcorrectedsamples = data - np.atleast_3d(ped) / nsamples *)
  d ← read data;
  ped ← lift_opt NoneError ped;
  p ← read ped;
  corrected ← lift (pedcorrectedsamples d p);
  (* integration, pulse_time = integrator(pedcorrectedsamples) *)
  '(integration, pt) ← lift (LocalPeakWindowSum corrected);
  pulse_time ← alloc pt;
  (* signals = integration.astype(float) *)
  signals ← alloc (map_array astype_float integration);
  (* dc2pe = event.mc.tel[telescope_id].dc_to_pe *)
  mc ← mc_tel_getitem telescope_id;
  let dc2pe := dc_to_pe mc in
  (* signals *= dc2pe *)
  dc2pe ← lift_opt NoneError dc2pe;
  imul signals dc2pe;;
  (* event.dl1.tel[telescope_id].image = signals *)
  setattr_dl1 telescope_id (set_image signals);;
  (* event.dl1.tel[telescope_id].pulse_time = pulse_time *)
  setattr_dl1 telescope_id (set_pulse_time pulse_time).

End Calibration.

(** ** Concrete instances *)

(** Modelled from the spec: the gain-selection policy of ctapipe's
    [ThresholdGainSelector] in select-by-sample mode, which is not part of
    this repository.  For a waveform of shape [[2; pixels; samples]] the
    mask holds at the samples whose high-gain value exceeds the threshold
    recorded for the camera, and the selected waveform takes the low-gain
    sample there. *)
Definition threshold_select_gains (tbl : gmap string Z) (cam : string)
    (wf : ndarray Z) : exn + (ndarray Z * ndarray bool) :=
  match tbl !! cam with
  | None => inl KeyError
  | Some t =>
      match shape wf with
      | [2; p; s] =>
          let hi := take (p * s) (data wf) in
          let lo := drop (p * s) (data wf) in
          let mask := (fun x => bool_decide (t < x)%Z) <$> hi in
          inr (NDArray [p; s]
                 (zip_with (fun (mh : bool * Z) l => if mh.1 then l else mh.2)
                           (zip mask hi) lo),
               NDArray [p; s] mask)
      | _ => inl ValueError
      end
  end.

(** Exact rationals, kept in lowest terms, as the element type. *)
#[export] Instance Q_dtype : Dtype Q := {|
  of_int := inject_Z;
  subtract := fun x y => Qred (x - y);
  multiply := fun x y => Qred (x * y);
  true_divide := fun x y => Qred (x / y);
  astype_float := fun x => x
|}.

(** A stand-in extractor for the examples: the charge of a pixel is the sum
    of its samples and its pulse time is 0. *)
Definition window_sum (wf : ndarray Q) : exn + (ndarray Q * ndarray Q) :=
  match shape wf with
  | [g; p; s] =>
      let sums :=
        (fun i => Qred (foldr Qplus 0%Q (take s (drop (i * s) (data wf)))))
          <$> seq 0 (g * p) in
      inr (NDArray [g; p] sums, NDArray [g; p] (replicate (g * p) 0%Q))
  | _ => inl ValueError
  end.

(** ** Specifications of runs *)

Section Triples.

Context {A Th : Type}.

(** [triple P c Q E]: from a world that satisfies [P], the run of [c]
    either returns a value and a world related by [Q], or raises and leaves
    a world that satisfies [E]. *)
Definition triple {X} (P : World A Th -> Prop) (c : M A Th X)
    (Q : X -> World A Th -> Prop) (E : World A Th -> Prop) : Prop :=
  forall w, P w ->
    match c w with
    | Return x w' => Q x w'
    | Raise _ w' => E w'
    end.

(** [preserved w0 w]: [w] has the threshold table and the event of [w0],
    and every buffer of [w0] with the same contents. *)
Definition preserved (w0 w : World A Th) : Prop :=
  thresholds w = thresholds w0 /\
  event w = event w0 /\
  forall l, l ∈ dom (arrays w0) -> arrays w !! l = arrays w0 !! l.

(** A computation that leaves the world as it found it. *)
Definition unchanged {X} (c : M A Th X) : Prop :=
  forall w, final_world (c w) = w.

End Triples.

(** ** Element access *)

(** [a[i, j]] and [a[i, j, k]] on arrays of two and three axes, in C
    order; [None] outside the array. *)
Definition get2 {T} (a : ndarray T) (i j : nat) : option T :=
  match shape a with
  | [m; n] => if (i <? m) && (j <? n) then data a !! (i * n + j) else None
  | _ => None
  end.

Definition get3 {T} (a : ndarray T) (i j k : nat) : option T :=
  match shape a with
  | [l; m; n] =>
      if (i <? l) && (j <? m) && (k <? n)
      then data a !! ((i * m + j) * n + k)
      else None
  | _ => None
  end.

(** Row [p] of a two-axis array with [n] columns. *)
Definition row {T} (n : nat) (d : list T) (p : nat) : list T :=
  take n (drop (p * n) d).

(** The gain channel a pixel is read from: 1, the low gain, where the
    signal mask holds, and 0, the high gain, elsewhere. *)
Definition channel (b : bool) : nat := if b then 1 else 0.

(** ** A worked event *)

(** Telescope 1 with two pixels and three samples per pixel.  Pixel 0
    exceeds a threshold of 4 in its second high-gain sample, pixel 1 never
    does. *)
Definition ex_waveform : aref := ARef 1%positive (seq 0 12) [2; 2; 3].
Definition ex_charges : aref := ARef 2%positive (seq 0 4) [2; 2].
Definition ex_pulse_time : aref := ARef 3%positive (seq 0 4) [2; 2].

(** Arrays that do not fit the two above: a waveform without samples, a
    waveform of three pixels with two samples each, and charges of three
    channels. *)
Definition ex_no_samples : aref := ARef 4%positive [] [2; 2; 0].
Definition ex_three_pixels : aref := ARef 5%positive (seq 0 12) [2; 3; 2].
Definition ex_three_channels : aref := ARef 6%positive (seq 0 6) [3; 2].

Definition ex_event : DataContainer := {|
  r0_tel := {[ 1%Z := {| waveform := Some ex_waveform |} ]};
  mc_tel := ∅;
  dl1_tel := {[ 1%Z := {| image := Some ex_charges; pulse_time := Some ex_pulse_time |} ]};
  inst_subarray_tel := {[ 1%Z := {| camera := {| cam_id := "LSTCam" |} |} ]}
|}.

Definition ex_world : World Z Z := {|
  arrays :=
    <[1%positive := [0; 9; 0; 1; 2; 3; 0; 0; 0; 0; 0; 0]%Z]>
      (<[2%positive := [10; 10; 5; 5]%Z]>
         (<[3%positive := [1; 2; 3; 4]%Z]>
            (<[4%positive := []]>
               (<[5%positive := [0; 0; 0; 0; 0; 0; 0; 0; 0; 0; 0; 0]%Z]>
                  (<[6%positive := [1; 1; 1; 1; 1; 1]%Z]> ∅)))));
  thresholds := ∅;
  event := ex_event
|}.

(** The same telescope before calibration: raw samples, pedestal sums and
    conversion factors, and nothing calibrated yet. *)
Definition ex_raw_event : DataContainer := {|
  r0_tel := {[ 1%Z := {| waveform := Some (ARef 1%positive (seq 0 12) [2; 2; 3]) |} ]};
  mc_tel := {[ 1%Z := {| pedestal := Some (ARef 2%positive (seq 0 4) [2; 2]);
                         dc_to_pe := Some (ARef 3%positive (seq 0 4) [2; 2]) |} ]};
  dl1_tel := ∅;
  inst_subarray_tel := {[ 1%Z := {| camera := {| cam_id := "LSTCam" |} |} ]}
|}.

Definition ex_raw_world : World Q Z := {|
  arrays :=
    <[1%positive := [10; 19; 10; 11; 12; 13; 10; 10; 10; 10; 10; 10]%Q]>
      (<[2%positive := [30; 30; 30; 30]%Q]>
         (<[3%positive := [1 # 2; 1 # 2; 2; 2]%Q]> ∅));
  thresholds := ∅;
  event := ex_raw_event
|}.

(** What the threshold selector makes of the worked waveform under a
    threshold of 4: the gain mask and the selected waveform. *)
Definition ex_gain_mask : ndarray bool :=
  NDArray [2; 3] [false; true; false; false; false; false].

Definition ex_selected : ndarray Z := NDArray [2; 3] [0; 0; 0; 1; 2; 3]%Z.

(** The raw arrays of the uncalibrated event, and what the stand-in
    extractor makes of the corrected waveform. *)
Definition ex_raw : ndarray Q :=
  NDArray [2; 2; 3] [10; 19; 10; 11; 12; 13; 10; 10; 10; 10; 10; 10]%Q.

Definition ex_pedestal : ndarray Q := NDArray [2; 2] [30; 30; 30; 30]%Q.

Definition ex_factors : ndarray Q := NDArray [2; 2] [1 # 2; 1 # 2; 2; 2]%Q.

Definition ex_corrected : ndarray Q :=
  NDArray [2; 2; 3] [0; 9; 0; 1; 2; 3; 0; 0; 0; 0; 0; 0]%Q.

Definition ex_integration : ndarray Q := NDArray [2; 2] [9; 6; 0; 0]%Q.

Definition ex_times : ndarray Q := NDArray [2; 2] [0; 0; 0; 0]%Q.

(** Closes a goal about the worked event by evaluation. *)
Ltac compute_hyp := first [ vm_compute; reflexivity | vm_compute; lia ].

(** ** The objects that [lst_calibration] creates *)

Section CalibrationObjects.

Context {A Th : Type} `{Dtype A}.

(** The pulse times of the extractor go to the first free buffer, the
    charge converted to float to the next one. *)
Definition pulse_time_ref (w : World A Th) (pt : ndarray A) : aref :=
  ARef (fresh (dom (arrays w))) (seq 0 (length (data pt))) (shape pt).

Definition signals_ref (w : World A Th) (integration pt : ndarray A) : aref :=
  ARef (fresh (dom (<[fresh (dom (arrays w)) := data pt]> (arrays w))))
       (seq 0 (length (astype_float <$> data integration)))
       (shape integration).

(** The world once both are allocated, before the charge is scaled. *)
Definition after_extraction (w : World A Th) (integration pt : ndarray A)
    : World A Th :=
  set_arrays
    (insert (buf (signals_ref w integration pt)) (astype_float <$> data integration))
    (set_arrays (insert (buf (pulse_time_ref w pt)) (data pt)) w).

(** The slot of a telescope after calibration. *)
Definition calibrated_slot (w : World A Th) (integration pt : ndarray A)
    : DL1CameraContainer :=
  {| image := Some (signals_ref w integration pt);
     pulse_time := Some (pulse_time_ref w pt) |}.

(** The world that a returning [lst_calibration] leaves: the charge is
    scaled in its buffer and the slot of the telescope refers to the two
    new arrays. *)
Definition calibrated_world (w : World A Th) (tel : Z)
    (integration pt factors : ndarray A) : World A Th :=
  set_event (set_dl1_tel (insert tel (calibrated_slot w integration pt)))
    (set_arrays
       (insert (buf (signals_ref w integration pt))
               (zip_with multiply (astype_float <$> data integration) (data factors)))
       (after_extraction w integration pt)).

End CalibrationObjects.

(** ** More of the worked event *)

(** A single-channel image of four pixels, as a combination leaves it. *)
Definition ex_single_channel : aref := ARef 3%positive (seq 0 4) [4].

(** Modelled from the spec: the same gain-selection policy as
    [threshold_select_gains], for rational samples and integer
    thresholds. *)
Definition threshold_select_gains_q (tbl : gmap string Z) (cam : string)
    (wf : ndarray Q) : exn + (ndarray Q * ndarray bool) :=
  match tbl !! cam with
  | None => inl KeyError
  | Some t =>
      match shape wf with
      | [2; p; s] =>
          let hi := take (p * s) (data wf) in
          let lo := drop (p * s) (data wf) in
          let mask := (fun x => negb (Qle_bool x (inject_Z t))) <$> hi in
          inr (NDArray [p; s]
                 (zip_with (fun (mh : bool * Q) l => if mh.1 then l else mh.2)
                           (zip mask hi) lo),
               NDArray [p; s] mask)
      | _ => inl ValueError
      end
  end.

(** A stand-in extractor that always fails. *)
Definition failing_extractor (wf : ndarray Q) : exn + (ndarray Q * ndarray Q) :=
  inl ValueError.

(** The uncalibrated event with other arrays in the place of its waveform,
    pedestals and conversion factors. *)
Definition ex_event_of (wf ped dc : aref) : DataContainer := {|
  r0_tel := {[ 1%Z := {| waveform := Some wf |} ]};
  mc_tel := {[ 1%Z := {| pedestal := Some ped; dc_to_pe := Some dc |} ]};
  dl1_tel := ∅;
  inst_subarray_tel := {[ 1%Z := {| camera := {| cam_id := "LSTCam" |} |} ]}
|}.

Definition ex_world_of (wf ped dc : aref) : World Q Z := {|
  arrays := arrays ex_raw_world;
  thresholds := ∅;
  event := ex_event_of wf ped dc
|}.

Definition ex_raw_waveform : aref := ARef 1%positive (seq 0 12) [2; 2; 3].
Definition ex_raw_pedestal : aref := ARef 2%positive (seq 0 4) [2; 2].
Definition ex_raw_factors : aref := ARef 3%positive (seq 0 4) [2; 2].

(** The first six raw samples seen as an array of two rows and three
    columns: too few axes for a waveform, and too many pixels for the
    pedestals or the conversion factors of two pixels. *)
Definition ex_two_by_three : aref := ARef 1%positive (seq 0 6) [2; 3].

(** An event that holds such a two-axis array as the waveform of telescope
    1 and knows the telescope nowhere else. *)
Definition ex_world_no_mc : World Q Z := {|
  arrays := arrays ex_raw_world;
  thresholds := ∅;
  event := {| r0_tel := {[ 1%Z := {| waveform := Some ex_two_by_three |} ]};
              mc_tel := ∅; dl1_tel := ∅; inst_subarray_tel := ∅ |}
|}.

(** The worked event with two-channel charges in the slot of telescope 1
    and pulse times that were never set. *)
Definition ex_world_no_pulse_time : World Z Z := {|
  arrays := arrays ex_world;
  thresholds := ∅;
  event := {| r0_tel := r0_tel ex_event; mc_tel := ∅;
              dl1_tel := {[ 1%Z := {| image := Some ex_charges; pulse_time := None |} ]};
              inst_subarray_tel := inst_subarray_tel ex_event |}
|}.

(** * Facts about array values *)

Section ListFacts.

Context {T : Type}.
Implicit Types (d b hi lo : list T) (mask : list bool).

Lemma gather_seq d : gather d (seq 0 (length d)) = Some d.
Proof.
  unfold gather. apply mapM_Some, Forall2_lookup. intros i.
  destruct (d !! i) as [x|] eqn:E.
  - rewrite (proj2 (lookup_seq 0 (length d) i i)); [by constructor|].
    split; [done|]. by eapply lookup_lt_Some.
  - rewrite lookup_seq_ge; [constructor|]. by apply lookup_ge_None.
Qed.

Lemma gather_length d idxs r : gather d idxs = Some r -> length r = length idxs.
Proof. intros E. symmetry. by eapply length_mapM. Qed.

Lemma gather_lookup d idxs r i j :
  gather d idxs = Some r -> idxs !! i = Some j -> r !! i = d !! j.
Proof.
  intros E Hi. apply mapM_Some in E.
  destruct (Forall2_lookup_l _ _ _ _ _ E Hi) as (y & Hy & Hd). congruence.
Qed.

Lemma gather_block d idxs r n k :
  gather d idxs = Some r ->
  gather d (take n (drop k idxs)) = Some (take n (drop k r)).
Proof.
  unfold gather. rewrite !mapM_Some. intros E.
  by apply Forall2_take, Forall2_drop.
Qed.

Lemma gather_is_Some d idxs :
  Forall (fun i => i < length d) idxs -> is_Some (gather d idxs).
Proof.
  intros F. apply mapM_is_Some. eapply Forall_impl; [exact F|].
  intros i Hi. by apply lookup_lt_is_Some.
Qed.

Lemma expand_mask_1 mask : expand_mask 1 mask = mask.
Proof.
  unfold expand_mask. induction mask as [|x mask IH]; [done|].
  cbn. by rewrite <- IH at 2.
Qed.

Lemma select_length mask d :
  length mask = length d -> length (select mask d) = count_true mask.
Proof.
  unfold count_true. revert d.
  induction mask as [|[] mask IH]; intros [|x d] E; simplify_eq/=; auto.
Qed.

Lemma merge_length mask hi lo :
  length hi = length mask -> length lo = length mask ->
  length (merge mask hi lo) = length mask.
Proof.
  intros E1 E2. unfold merge. rewrite length_zip_with, length_zip. lia.
Qed.

Lemma merge_lookup mask hi lo p (m : bool) (x y : T) :
  mask !! p = Some m -> hi !! p = Some x -> lo !! p = Some y ->
  merge mask hi lo !! p = Some (if m then y else x).
Proof.
  intros Hm Hx Hy. unfold merge.
  rewrite lookup_zip_with, Hm. cbn.
  rewrite lookup_zip_with, Hx. cbn. by rewrite Hy.
Qed.

Lemma scatter_contiguous mask : forall pre hi lo,
  length hi = length mask -> length lo = length mask ->
  scatter (seq (length pre) (length mask)) mask (select mask lo) (pre ++ hi)
  = pre ++ merge mask hi lo.
Proof.
  induction mask as [|m mask IH]; intros pre [|x hi] [|y lo] E1 E2; simplify_eq/=.
  { done. }
  specialize (IH (pre ++ [if m then y else x]) hi lo E1 E2).
  rewrite length_app in IH. cbn in IH.
  replace (length pre + 1) with (S (length pre)) in IH by lia.
  rewrite <- !app_assoc in IH. cbn in IH.
  unfold merge in *. cbn.
  destruct m.
  - rewrite <- IH. f_equal.
    replace (length pre) with (length pre + 0) at 1 by lia.
    by rewrite insert_app_r.
  - exact IH.
Qed.

Lemma select_all n d : length d = n -> select (replicate n true) d = d.
Proof.
  revert d. induction n as [|n IH]; intros [|x d] E; simplify_eq/=; try done.
  f_equal. by apply IH.
Qed.

End ListFacts.

Lemma bool_max_orb a b : bool_max a b = a || b.
Proof. by destruct a, b. Qed.

Lemma foldl_bool_max xs : forall x,
  foldl bool_max x xs = true <-> x = true \/ true ∈ xs.
Proof.
  induction xs as [|y xs IH]; intros x; cbn.
  - rewrite elem_of_nil. tauto.
  - rewrite IH, elem_of_cons, bool_max_orb, orb_true_iff.
    split; [intros [[->| ->]|?]|intros [->|[<-|?]]]; auto.
Qed.

Lemma reduce_max_true l b :
  reduce_max l = Some b -> (b = true <-> true ∈ l).
Proof.
  destruct l as [|x xs]; [done|]. cbn. intros [= <-].
  rewrite foldl_bool_max, elem_of_cons.
  split; [intros [->|?]|intros [<-|?]]; auto.
Qed.

Lemma reduce_max_is_Some l x : x ∈ l -> is_Some (reduce_max l).
Proof. destruct l; [by rewrite elem_of_nil|]. by eexists. Qed.

Lemma numel_app l1 l2 : numel (l1 ++ l2) = numel l1 * numel l2.
Proof.
  unfold numel. induction l1 as [|x l1 IH]; cbn; [lia|]. rewrite IH. lia.
Qed.

Lemma numel_reverse sh : numel (reverse sh) = numel sh.
Proof.
  induction sh as [|x sh IH]; [done|].
  rewrite reverse_cons, numel_app, IH.
  change (numel [x]) with (x * 1). change (numel (x :: sh)) with (x * numel sh). lia.
Qed.

Lemma pixel_axis (l : list nat) :
  (i ← l; (fun k => (i, k)) <$> seq 0 1) = (fun i => (i, 0)) <$> l.
Proof. induction l as [|x l IH]; [done|]. cbn. by rewrite <- IH. Qed.

Lemma omap_fmap_compose {X Y Z} (f : Y -> option Z) (g : X -> Y) (l : list X) :
  omap f (g <$> l) = omap (fun x => f (g x)) l.
Proof. induction l as [|x l IH]; [done|]. cbn. by rewrite IH. Qed.

Lemma omap_lookup_seq {T} (l : list T) n : forall start,
  start + n <= length l ->
  omap (fun j => l !! j) (seq start n) = take n (drop start l).
Proof.
  induction n as [|n IH]; intros start Hle; [done|].
  destruct (lookup_lt_is_Some_2 l start) as [x Hx]; [lia|].
  cbn [seq omap list_omap]. rewrite Hx, (drop_S _ _ _ Hx). cbn.
  f_equal. apply IH. lia.
Qed.

(** The samples of pixel [p], as [max(axis=1)] reads them. *)
Lemma samples_row {T} (bits : list T) S p :
  p * S + S <= length bits ->
  omap (fun j => bits !! ((p * S + j) * 1 + 0)) (seq 0 S) = row S bits p.
Proof.
  intros Hle. unfold row. rewrite <- (omap_lookup_seq bits S (p * S) Hle).
  replace (seq (p * S) S) with (Nat.add (p * S) <$> seq 0 S)
    by (rewrite fmap_add_seq; f_equal; lia).
  rewrite omap_fmap_compose.
  induction (seq 0 S) as [|j l IH]; [done|]. cbn.
  replace ((p * S + j) * 1 + 0) with (p * S + j) by lia. by rewrite IH.
Qed.

Lemma row_elem_of {T} (bits : list T) S p x :
  x ∈ row S bits p <-> exists s, s < S /\ bits !! (p * S + s) = Some x.
Proof.
  unfold row. rewrite list_elem_of_lookup. split.
  - intros (s & Hs). apply lookup_take_Some in Hs as [Hs Hlt].
    rewrite lookup_drop in Hs. eauto.
  - intros (s & Hlt & Hs). exists s. rewrite lookup_take_lt, lookup_drop; done.
Qed.

Lemma foldl_bool_max_orb xs : forall x, foldl bool_max x xs = x || foldr orb false xs.
Proof.
  induction xs as [|y xs IH]; intros x; cbn.
  - by rewrite orb_false_r.
  - by rewrite IH, bool_max_orb, orb_assoc.
Qed.

(** The maximum of a sequence of booleans is their disjunction. *)
Lemma reduce_max_orb l b : reduce_max l = Some b -> b = foldr orb false l.
Proof.
  destruct l as [|x xs]; [done|]. cbn. intros [= <-]. apply foldl_bool_max_orb.
Qed.

(** [max(axis=1)] on a mask of shape [[P; S]]: defined whenever there is a
    sample, one entry per pixel, and the entry of a pixel is the maximum
    over the samples of that pixel. *)
Lemma max_axis1_pixels P S bits :
  0 < S -> length bits = P * S ->
  exists sm,
    max_axis1 (NDArray [P; S] bits) = inr (NDArray [P] sm) /\
    length sm = P /\
    forall p b, sm !! p = Some b -> reduce_max (row S bits p) = Some b.
Proof.
  intros HS Hlen. unfold max_axis1. cbn [shape data numel foldr].
  destruct (Nat.eqb_spec S 0) as [|_]; [lia|].
  rewrite pixel_axis.
  set (f := fun ik : nat * nat =>
              reduce_max (omap (fun j => bits !! ((ik.1 * S + j) * 1 + ik.2)) (seq 0 S))).
  assert (Hrow : forall p, p < P -> f (p, 0) = reduce_max (row S bits p)).
  { intros p Hp. unfold f. cbn [fst snd]. rewrite samples_row; [done|]. nia. }
  assert (Hin : forall p, p < P -> is_Some (f (p, 0))).
  { intros p Hp. rewrite (Hrow p Hp).
    destruct (lookup_lt_is_Some_2 bits (p * S + 0)) as [x Hx]; [nia|].
    apply (reduce_max_is_Some _ x), row_elem_of. exists 0. done. }
  destruct (mapM f ((fun i => (i, 0)) <$> seq 0 P)) as [sm|] eqn:E.
  2:{ apply mapM_None in E. apply Exists_exists in E as (ik & Hik & Hn).
      apply list_elem_of_fmap in Hik as (p & -> & Hp). apply elem_of_seq in Hp.
      destruct (Hin p) as [? ?]; [lia|congruence]. }
  exists sm. split; [done|]. split.
  { apply length_mapM in E. rewrite length_fmap, length_seq in E. done. }
  intros p b Hb. apply mapM_Some in E.
  destruct (Forall2_lookup_r _ _ _ _ _ E Hb) as (ik & Hik & Hf).
  rewrite list_lookup_fmap in Hik.
  destruct (seq 0 P !! p) as [p'|] eqn:Hp; [|done].
  apply lookup_seq in Hp as [-> Hp]. cbn in Hik. simplify_eq.
  by rewrite <- Hrow.
Qed.

(** *** Broadcasting *)

Lemma broadcast_rev_same sh : broadcast_rev sh sh = Some sh.
Proof.
  induction sh as [|n sh IH]; [done|]. cbn. by rewrite IH, Nat.eqb_refl.
Qed.

Lemma broadcast_shapes_same sh : broadcast_shapes sh sh = Some sh.
Proof.
  unfold broadcast_shapes. rewrite broadcast_rev_same. cbn.
  by rewrite reverse_involutive.
Qed.

Lemma source_index_same sh : forall k, k < numel sh -> source_index sh sh k = k.
Proof.
  induction sh as [|n sh IH]; intros k Hk; [cbn in *; lia|].
  change (numel (n :: sh)) with (n * numel sh) in Hk.
  assert (n <> 0) by (intros ->; lia).
  cbn. rewrite IH.
  - destruct (Nat.eqb_spec n 1) as [->|_].
    + rewrite Nat.div_1_r. lia.
    + rewrite Nat.add_comm. symmetry. apply Nat.div_mod_eq.
  - apply Nat.Div0.div_lt_upper_bound. lia.
Qed.

Lemma broadcast_to_same {T} (a : ndarray T) :
  wf_array a -> broadcast_to a (shape a) = Some a.
Proof.
  destruct a as [sh d]. unfold wf_array, broadcast_to. cbn [shape data]. intros Hwf.
  replace (map (source_index (reverse sh) (reverse sh)) (seq 0 (numel sh)))
    with (seq 0 (length d)).
  { by rewrite gather_seq. }
  rewrite Hwf. apply list_eq. intros i.
  change (map ?f ?l) with (f <$> l). rewrite list_lookup_fmap.
  destruct (seq 0 (numel sh) !! i) as [j|] eqn:E; [|done].
  apply lookup_seq in E as [-> Hi]. cbn.
  rewrite source_index_same; [done|]. by rewrite numel_reverse.
Qed.

(** * Facts about the store and the monad *)

Section StoreFacts.

Context {A Th : Type}.
Implicit Types (h : gmap loc (list A)) (w : World A Th) (r : aref).

Lemma bind_Return {X Y} (c : M A Th X) (k : X -> M A Th Y) w x w' :
  c w = Return x w' -> (c ≫= k) w = k x w'.
Proof. intros E. unfold mbind, M_bind, bind. by rewrite E. Qed.

Lemma bind_Raise {X Y} (c : M A Th X) (k : X -> M A Th Y) w e w' :
  c w = Raise e w' -> (c ≫= k) w = Raise e w'.
Proof. intros E. unfold mbind, M_bind, bind. by rewrite E. Qed.

Lemma load_Some_dom h r a : load h r = Some a -> buf r ∈ dom h.
Proof.
  unfold load. destruct (h !! buf r) eqn:E; [|done]. intros _.
  apply elem_of_dom. by eexists.
Qed.

Lemma load_shape h r a : load h r = Some a -> shape a = vshape r.
Proof.
  unfold load. destruct (h !! buf r); [|done].
  destruct (gather _ _); [|done]. by intros [= <-].
Qed.

Lemma load_insert_ne h r l d : l <> buf r -> load (<[l := d]> h) r = load h r.
Proof. intros Hne. unfold load. by rewrite lookup_insert_ne. Qed.

Lemma load_insert_fresh h r a d :
  load h r = Some a -> load (<[fresh (dom h) := d]> h) r = Some a.
Proof.
  intros E. rewrite load_insert_ne; [done|].
  intros Heq. apply load_Some_dom in E. rewrite <- Heq in E.
  by apply is_fresh in E.
Qed.

Lemma load_new h l d sh :
  load (<[l := d]> h) (ARef l (seq 0 (length d)) sh) = Some (NDArray sh d).
Proof. unfold load. cbn [buf cells vshape]. by rewrite lookup_insert_eq, gather_seq. Qed.

Lemma load_getitem h r d rest dat i :
  load h r = Some (NDArray (d :: rest) dat) -> i < d ->
  exists r',
    getitem r i = inr r' /\ buf r' = buf r /\
    load h r' = Some (NDArray rest (take (numel rest) (drop (i * numel rest) dat))).
Proof.
  unfold load, getitem. destruct (h !! buf r) as [b|] eqn:Eb; [|done].
  destruct (gather b (cells r)) as [dat'|] eqn:Eg; [|done].
  intros [= Hsh ->] Hi. rewrite Hsh.
  destruct (Nat.ltb_spec i d) as [_|]; [|lia].
  eexists. split; [done|]. split; [done|]. cbn [buf cells vshape]. rewrite Eb.
  by rewrite (gather_block _ _ _ _ _ Eg).
Qed.

Lemma read_run w r a : load (arrays w) r = Some a -> read r w = Return a w.
Proof. intros E. unfold read. by rewrite E. Qed.

Lemma copy_run w r a :
  load (arrays w) r = Some a ->
  copy r w =
    Return (ARef (fresh (dom (arrays w))) (seq 0 (length (data a))) (shape a))
           (set_arrays (insert (fresh (dom (arrays w))) (data a)) w).
Proof. intros E. unfold copy. by rewrite (bind_Return _ _ _ _ _ (read_run _ _ _ E)). Qed.

Lemma mask_getitem_pixels w r P sm lo :
  load (arrays w) r = Some (NDArray [P] lo) ->
  mask_getitem r (NDArray [P] sm) w
  = Return (NDArray [count_true sm] (select sm lo)) w.
Proof.
  intros E. unfold mask_getitem.
  rewrite (bind_Return _ _ _ _ _ (read_run _ _ _ E)).
  unfold compress, mask_axes. cbn [shape data].
  destruct (decide _) as [_|Hn]; [|by destruct Hn].
  cbn. by rewrite expand_mask_1.
Qed.

Lemma mask_setitem_pixels w l P sm hi lo :
  arrays w !! l = Some hi ->
  length hi = P -> length lo = P -> length sm = P ->
  mask_setitem (ARef l (seq 0 P) [P]) (NDArray [P] sm)
               (NDArray [count_true sm] (select sm lo)) w
  = Return tt (set_arrays (insert l (merge sm hi lo)) w).
Proof.
  intros Eh Hhi Hlo Hsm. unfold mask_setitem, mask_axes. cbn [shape data vshape].
  destruct (decide _) as [_|Hn]; [|by destruct Hn].
  cbn [length drop]. rewrite broadcast_shapes_same.
  destruct (decide _) as [_|Hn]; [|by destruct Hn].
  pose proof (broadcast_to_same (NDArray [count_true sm] (select sm lo))) as Hb.
  cbn [shape] in Hb. rewrite Hb.
  2:{ unfold wf_array. cbn. rewrite select_length by lia. lia. }
  unfold write. cbn [buf cells data]. rewrite Eh. do 2 f_equal.
  change (numel []) with 1. rewrite expand_mask_1.
  pose proof (scatter_contiguous sm [] hi lo) as Hs. cbn in Hs.
  rewrite <- Hsm, Hs by lia. done.
Qed.

End StoreFacts.

(** * Lookups in the event *)

Section EventFacts.

Context {A Th : Type}.
Implicit Types (w : World A Th).

(** What a lookup hands out and what it leaves: the container that
    [tel_get] reads, and the same world unless the id was new. *)
Lemma r0_tel_getitem_run w id :
  r0_tel_getitem id w
  = Return (tel_get empty_r0 (r0_tel (event w)) id)
      (match r0_tel (event w) !! id with
       | Some _ => w
       | None => set_event (set_r0_tel (insert id empty_r0)) w
       end).
Proof.
  unfold r0_tel_getitem, tel_get, mbind, M_bind, bind. cbn [gets].
  by destruct (r0_tel (event w) !! id).
Qed.

Lemma mc_tel_getitem_run w id :
  mc_tel_getitem id w
  = Return (tel_get empty_mc (mc_tel (event w)) id)
      (match mc_tel (event w) !! id with
       | Some _ => w
       | None => set_event (set_mc_tel (insert id empty_mc)) w
       end).
Proof.
  unfold mc_tel_getitem, tel_get, mbind, M_bind, bind. cbn [gets].
  by destruct (mc_tel (event w) !! id).
Qed.

Lemma dl1_tel_getitem_run w id :
  dl1_tel_getitem id w
  = Return (tel_get empty_dl1 (dl1_tel (event w)) id)
      (match dl1_tel (event w) !! id with
       | Some _ => w
       | None => set_event (set_dl1_tel (insert id empty_dl1)) w
       end).
Proof.
  unfold dl1_tel_getitem, tel_get, mbind, M_bind, bind. cbn [gets].
  by destruct (dl1_tel (event w) !! id).
Qed.

(** A container with a field that is set is held by its map. *)
Lemma waveform_present (m : gmap Z R0CameraContainer) id r :
  waveform (tel_get empty_r0 m id) = Some r -> is_Some (m !! id).
Proof. unfold tel_get. by destruct (m !! id). Qed.

Lemma pedestal_present (m : gmap Z MCCameraEventContainer) id r :
  pedestal (tel_get empty_mc m id) = Some r -> is_Some (m !! id).
Proof. unfold tel_get. by destruct (m !! id). Qed.

Lemma image_present (m : gmap Z DL1CameraContainer) id r :
  image (tel_get empty_dl1 m id) = Some r -> is_Some (m !! id).
Proof. unfold tel_get. by destruct (m !! id). Qed.

(** A lookup of an id that the map holds leaves the world as it is. *)
Lemma r0_tel_getitem_present w id :
  is_Some (r0_tel (event w) !! id) ->
  r0_tel_getitem id w = Return (tel_get empty_r0 (r0_tel (event w)) id) w.
Proof. intros [c E]. by rewrite r0_tel_getitem_run, E. Qed.

Lemma mc_tel_getitem_present w id :
  is_Some (mc_tel (event w) !! id) ->
  mc_tel_getitem id w = Return (tel_get empty_mc (mc_tel (event w)) id) w.
Proof. intros [c E]. by rewrite mc_tel_getitem_run, E. Qed.

Lemma dl1_tel_getitem_present w id :
  is_Some (dl1_tel (event w) !! id) ->
  dl1_tel_getitem id w = Return (tel_get empty_dl1 (dl1_tel (event w)) id) w.
Proof. intros [c E]. by rewrite dl1_tel_getitem_run, E. Qed.

(** An empty container stored under a new id reads as the map did. *)
Lemma tel_get_insert_empty {C} (dflt : C) (m : gmap Z C) id id' :
  m !! id = None -> tel_get dflt (<[id := dflt]> m) id' = tel_get dflt m id'.
Proof.
  intros E. unfold tel_get. destruct (decide (id' = id)) as [->|Hne].
  - by rewrite lookup_insert_eq, E.
  - by rewrite lookup_insert_ne.
Qed.

End EventFacts.

(** * Runs of gain selection *)

Section GainSelectionFacts.

Context {A Th : Type}.
Variable select_gains :
  gmap string Th -> string -> ndarray A -> exn + (ndarray A * ndarray bool).
Implicit Types (h : gmap loc (list A)) (w : World A Th) (r : aref).

Lemma set_arrays_insert_twice w l (d1 d2 : list A) :
  set_arrays (insert l d2) (set_arrays (insert l d1) w) = set_arrays (insert l d2) w.
Proof. unfold set_arrays. cbn. by rewrite insert_insert_eq. Qed.

(** The four statements that combine one two-channel array: a copy of
    channel 0 in a fresh buffer, overwritten by channel 1 where the mask
    holds. *)
Lemma combine_steps {Y} w c P C sm (k : aref -> M A Th Y) :
  load (arrays w) c = Some (NDArray [2; P] C) ->
  length C = 2 * P -> length sm = P ->
  (high ← lift (getitem c 0);
   combined ← copy high;
   low ← lift (getitem c 1);
   vals ← mask_getitem low (NDArray [P] sm);
   mask_setitem combined (NDArray [P] sm) vals;;
   k combined) w
  = k (ARef (fresh (dom (arrays w))) (seq 0 P) [P])
      (set_arrays (insert (fresh (dom (arrays w))) (merge sm (take P C) (drop P C))) w).
Proof.
  intros Hc HC Hsm.
  destruct (load_getitem _ _ _ _ _ 0 Hc) as (high & Eh & Hbh & Lh); [lia|].
  destruct (load_getitem _ _ _ _ _ 1 Hc) as (low & El & Hbl & Ll); [lia|].
  change (numel [P]) with (P * 1) in Lh, Ll.
  rewrite Nat.mul_1_r in Lh, Ll. rewrite Nat.mul_0_l in Lh.
  rewrite Nat.mul_1_l in Ll. rewrite drop_0 in Lh.
  rewrite (take_ge (drop P C)) in Ll by (rewrite length_drop; lia).
  rewrite Eh, El. cbn [lift].
  etrans; [apply bind_Return; reflexivity|]. cbv beta.
  etrans; [apply bind_Return, copy_run, Lh|]. cbv beta. cbn [data shape].
  rewrite length_take_le by lia.
  etrans; [apply bind_Return; reflexivity|]. cbv beta.
  etrans.
  { apply bind_Return, mask_getitem_pixels. cbn [arrays set_arrays].
    by apply load_insert_fresh. }
  cbv beta.
  etrans.
  { apply bind_Return.
    apply (mask_setitem_pixels _ _ P sm (take P C) (drop P C)); [|  | |done].
    - cbn [arrays set_arrays]. apply lookup_insert_eq.
    - rewrite length_take. lia.
    - rewrite length_drop. lia. }
  cbv beta. by rewrite set_arrays_insert_twice.
Qed.

Lemma gain_selection_body_run w wfm c t cam th W W' gm P sm C T :
  load (arrays w) wfm = Some W ->
  select_gains (<[cam := th]> (thresholds w)) cam W = inr (W', gm) ->
  max_axis1 gm = inr (NDArray [P] sm) -> length sm = P ->
  load (arrays w) c = Some (NDArray [2; P] C) -> length C = 2 * P ->
  load (arrays w) t = Some (NDArray [2; P] T) -> length T = 2 * P ->
  let l1 := fresh (dom (arrays w)) in
  let m1 := merge sm (take P C) (drop P C) in
  let l2 := fresh (dom (<[l1 := m1]> (arrays w))) in
  gain_selection_body select_gains wfm c t cam th w
  = Return (ARef l1 (seq 0 P) [P], ARef l2 (seq 0 P) [P])
      (set_arrays (insert l2 (merge sm (take P T) (drop P T)))
         (set_arrays (insert l1 m1)
            (set_thresholds (insert cam th) w))).
Proof.
  intros Hw Hsel Hmax Hsm Hc HC Ht HT l1 m1 l2. unfold gain_selection_body.
  etrans; [apply bind_Return; reflexivity|]. cbv beta.
  etrans.
  { apply bind_Return. unfold call_select_gains.
    etrans; [apply bind_Return, read_run; exact Hw|]. cbv beta.
    etrans; [apply bind_Return; reflexivity|]. cbv beta.
    cbn [thresholds set_thresholds]. rewrite Hsel. reflexivity. }
  cbv beta iota. rewrite Hmax. cbn [lift].
  etrans; [apply bind_Return; reflexivity|]. cbv beta.
  etrans; [apply (combine_steps _ _ P C sm); done|].
  etrans.
  { apply (combine_steps _ _ P T sm); [|done..].
    cbn [arrays set_arrays set_thresholds]. by apply load_insert_fresh. }
  reflexivity.
Qed.

End GainSelectionFacts.

(** * What a run keeps *)

Section FrameFacts.

Context {A Th : Type}.
Variable select_gains :
  gmap string Th -> string -> ndarray A -> exn + (ndarray A * ndarray bool).
Implicit Types (h : gmap loc (list A)) (w : World A Th) (r : aref).

Lemma triple_bind {X Y} (P : World A Th -> Prop) (c : M A Th X) (k : X -> M A Th Y)
    (Q : X -> World A Th -> Prop) (Q' : Y -> World A Th -> Prop) E :
  triple P c Q E -> (forall x, triple (Q x) (k x) Q' E) -> triple P (c ≫= k) Q' E.
Proof.
  intros Hc Hk w HP. specialize (Hc w HP).
  unfold mbind, M_bind, bind. destruct (c w) as [x w'|e w']; [|done].
  by apply Hk.
Qed.

Lemma triple_unchanged {X} (P : World A Th -> Prop) (c : M A Th X) :
  unchanged c -> triple P c (fun _ => P) P.
Proof.
  intros Hc w HP. specialize (Hc w). by destruct (c w); cbn in Hc; subst.
Qed.

Lemma triple_fact {X} (F : Prop) (P : World A Th -> Prop) (c : M A Th X) Q E :
  (F -> triple P c Q E) -> triple (fun w => P w /\ F) c Q E.
Proof. intros H w [HP HF]. by apply H. Qed.

Lemma unchanged_bind {X Y} (c : M A Th X) (k : X -> M A Th Y) :
  unchanged c -> (forall x, unchanged (k x)) -> unchanged (c ≫= k).
Proof.
  intros Hc Hk w. specialize (Hc w). unfold mbind, M_bind, bind.
  destruct (c w) as [x w'|e w']; cbn in Hc; subst; [apply Hk|done].
Qed.

Lemma unchanged_lift {X} (x : exn + X) : unchanged (A := A) (Th := Th) (lift x).
Proof. by destruct x. Qed.

Lemma unchanged_lift_opt {X} e (x : option X) :
  unchanged (A := A) (Th := Th) (lift_opt e x).
Proof. by destruct x. Qed.

Lemma unchanged_gets {X} (f : World A Th -> X) : unchanged (gets f).
Proof. done. Qed.

Lemma unchanged_assert b : unchanged (A := A) (Th := Th) (assert_ b).
Proof. by destruct b. Qed.

Lemma unchanged_read r : unchanged (Th := Th) (read (A := A) r).
Proof. intros w. unfold read. by destruct (load _ _). Qed.

Lemma unchanged_mask_getitem r m : unchanged (Th := Th) (mask_getitem (A := A) r m).
Proof.
  apply unchanged_bind; [apply unchanged_read|]. intros a. apply unchanged_lift.
Qed.

Lemma unchanged_call_select_gains cam r :
  unchanged (call_select_gains select_gains cam r).
Proof.
  apply unchanged_bind; [apply unchanged_read|]. intros a.
  apply unchanged_bind; [apply unchanged_gets|]. intros t. apply unchanged_lift.
Qed.

Lemma preserved_refl w : preserved w w.
Proof. done. Qed.

Lemma preserved_dom w0 w l : preserved w0 w -> l ∈ dom (arrays w0) -> l ∈ dom (arrays w).
Proof.
  intros (_ & _ & H) Hl. apply elem_of_dom. rewrite (H l Hl). by apply elem_of_dom.
Qed.

(** A write to a buffer that [w0] does not have preserves [w0]. *)
Lemma preserved_insert w0 w l d :
  preserved w0 w -> l ∉ dom (arrays w0) -> preserved w0 (set_arrays (insert l d) w).
Proof.
  intros (Ht & He & H) Hl. split; [done|]. split; [done|].
  intros l' Hl'. cbn. rewrite lookup_insert_ne; [by apply H|]. by intros ->.
Qed.

Lemma triple_copy w0 r :
  triple (preserved w0) (copy (Th := Th) r)
         (fun r' w => preserved w0 w /\ (buf r' ∉ dom (arrays w0)))
         (preserved w0).
Proof.
  intros w Hw. unfold copy, read, mbind, M_bind, bind.
  destruct (load (arrays w) r) as [a|]; [|done]. cbn.
  assert (fresh (dom (arrays w)) ∉ dom (arrays w0)) as Hf.
  { intros Hin. apply (preserved_dom _ _ _ Hw) in Hin. by apply is_fresh in Hin. }
  split; [|done]. by apply preserved_insert.
Qed.

Lemma triple_mask_setitem w0 r m v :
  buf r ∉ dom (arrays w0) ->
  triple (preserved w0) (mask_setitem (Th := Th) r m v)
         (fun _ => preserved w0) (preserved w0).
Proof.
  intros Hr w Hw. unfold mask_setitem.
  destruct (mask_axes _ _); [|done].
  destruct (decide _); [|done].
  destruct (broadcast_to _ _); [|done].
  unfold write. destruct (arrays w !! buf r); [|done].
  by apply preserved_insert.
Qed.

(** One combined array: whatever happens, the buffers of [w0] are kept,
    and the combined array sits in a buffer that [w0] does not have. *)
Lemma triple_combine {Y} w0 c m (k : aref -> M A Th Y) Q :
  (forall r, buf r ∉ dom (arrays w0) -> triple (preserved w0) (k r) Q (preserved w0)) ->
  triple (preserved w0)
    (high ← lift (getitem c 0);
     combined ← copy high;
     low ← lift (getitem c 1);
     vals ← mask_getitem low m;
     mask_setitem combined m vals;;
     k combined)
    Q (preserved w0).
Proof.
  intros Hk.
  eapply triple_bind; [apply triple_unchanged, unchanged_lift|]. intros high.
  eapply triple_bind; [apply triple_copy|]. intros combined.
  apply triple_fact. intros Hfresh.
  eapply triple_bind; [apply triple_unchanged, unchanged_lift|]. intros low.
  eapply triple_bind; [apply triple_unchanged, unchanged_mask_getitem|]. intros vals.
  eapply triple_bind; [by apply triple_mask_setitem|]. intros []. by apply Hk.
Qed.

(** Past its assertion, [gain_selection] records the threshold and then
    keeps the table, the event and every buffer it was given, whether it
    returns or raises; the arrays it returns sit in new buffers. *)
Lemma gain_selection_body_frame wfm c t cam th w :
  match gain_selection_body select_gains wfm c t cam th w with
  | Return (ci, cpt) w' =>
      preserved (set_thresholds (insert cam th) w) w' /\
      (buf ci ∉ dom (arrays w)) /\ (buf cpt ∉ dom (arrays w))
  | Raise _ w' => preserved (set_thresholds (insert cam th) w) w'
  end.
Proof.
  set (w0 := set_thresholds (insert cam th) w).
  assert (triple (fun w1 => w1 = w)
            (gain_selection_body select_gains wfm c t cam th)
            (fun '(ci, cpt) w' =>
               preserved w0 w' /\ (buf ci ∉ dom (arrays w)) /\ (buf cpt ∉ dom (arrays w)))
            (preserved w0)) as H.
  { unfold gain_selection_body.
    eapply triple_bind.
    { instantiate (1 := fun _ => preserved w0). intros ? ->. apply preserved_refl. }
    intros [].
    eapply triple_bind;
      [apply triple_unchanged, unchanged_call_select_gains|]. intros [_ gm].
    eapply triple_bind; [apply triple_unchanged, unchanged_lift|]. intros sm.
    apply triple_combine. intros ci Hci.
    apply triple_combine. intros cpt Hcpt.
    intros w1 H1. cbn. done. }
  specialize (H w eq_refl).
  by destruct (gain_selection_body _ _ _ _ _ _ w) as [[ci cpt] w'|e w'].
Qed.

(** The same for [gain_selection] itself, where the table may also be
    left as it was, by a failed assertion. *)
Lemma gain_selection_frame wfm c t cam th w :
  match gain_selection select_gains wfm c t cam th w with
  | Return (ci, cpt) w' =>
      event w' = event w /\
      (forall l, l ∈ dom (arrays w) -> arrays w' !! l = arrays w !! l) /\
      (buf ci ∉ dom (arrays w)) /\ (buf cpt ∉ dom (arrays w))
  | Raise _ w' =>
      event w' = event w /\
      (forall l, l ∈ dom (arrays w) -> arrays w' !! l = arrays w !! l)
  end.
Proof.
  unfold gain_selection, mbind, M_bind, bind.
  destruct (shape_at c 0) as [e|d0]; cbn; [done|].
  destruct (d0 =? 2); cbn; [|done].
  pose proof (gain_selection_body_frame wfm c t cam th w) as H.
  destruct (gain_selection_body _ _ _ _ _ _ w) as [[ci cpt] w'|e w'].
  - destruct H as ((_ & He & Ha) & Hci & Hcpt). done.
  - destruct H as (_ & He & Ha). done.
Qed.

(** Buffers that are kept read the same through every reference. *)
Lemma load_kept h h' r (a : ndarray A) :
  (forall l, l ∈ dom h -> h' !! l = h !! l) ->
  load h r = Some a -> load h' r = Some a.
Proof.
  intros Hk E. pose proof (load_Some_dom _ _ _ E) as Hd.
  unfold load in *. by rewrite (Hk _ Hd).
Qed.

End FrameFacts.

(** * Pixels of the combined arrays *)

Section GainSelection.

Context {A Th : Type}.
Variable select_gains :
  gmap string Th -> string -> ndarray A -> exn + (ndarray A * ndarray bool).
Implicit Types (w : World A Th) (r : aref).

Lemma gain_selection_assert_passes wfm c t cam th w rest :
  vshape c = 2 :: rest ->
  gain_selection select_gains wfm c t cam th w
  = gain_selection_body select_gains wfm c t cam th w.
Proof.
  intros Hs. unfold gain_selection, shape_at. rewrite Hs. cbn [lookup list_lookup lift].
  etrans; [apply bind_Return; reflexivity|]. cbv beta.
  etrans; [apply bind_Return; reflexivity|]. reflexivity.
Qed.

Lemma get2_channel {T} (C : list T) P p b :
  length C = 2 * P -> p < P ->
  get2 (NDArray [2; P] C) (channel b) p
  = (if b then drop P C !! p else take P C !! p).
Proof.
  intros HC Hp. unfold get2, channel. cbn [shape data].
  destruct (Nat.ltb_spec p P) as [_|]; [|lia].
  destruct b; cbn.
  - rewrite lookup_drop. f_equal. lia.
  - by rewrite lookup_take_lt.
Qed.

(** What [gain_selection] returns on two-channel charges and pulse times
    of [P] pixels, once the signal mask has one entry per pixel: two new
    arrays of [P] pixels, whose entry at a pixel is the entry of the
    channel the mask names. *)
Lemma gain_selection_pixels w wfm c t cam th W W' gm P sm Carr Tarr :
  load (arrays w) wfm = Some W ->
  select_gains (<[cam := th]> (thresholds w)) cam W = inr (W', gm) ->
  max_axis1 gm = inr (NDArray [P] sm) -> length sm = P ->
  load (arrays w) c = Some Carr -> shape Carr = [2; P] -> wf_array Carr ->
  load (arrays w) t = Some Tarr -> shape Tarr = [2; P] -> wf_array Tarr ->
  exists ci cpt w' img tim,
    gain_selection select_gains wfm c t cam th w = Return (ci, cpt) w' /\
    vshape ci = [P] /\ vshape cpt = [P] /\
    load (arrays w') ci = Some (NDArray [P] img) /\ length img = P /\
    load (arrays w') cpt = Some (NDArray [P] tim) /\ length tim = P /\
    forall p b, sm !! p = Some b ->
      exists x y,
        img !! p = Some x /\ get2 Carr (channel b) p = Some x /\
        tim !! p = Some y /\ get2 Tarr (channel b) p = Some y.
Proof.
  intros Hw Hsel Hmax Hsm Hc HsC HwC Ht HsT HwT.
  destruct Carr as [shC C], Tarr as [shT T]. cbn in HsC, HsT. subst shC shT.
  unfold wf_array in HwC, HwT. cbn in HwC, HwT.
  assert (length C = 2 * P) as HC by lia. assert (length T = 2 * P) as HT by lia.
  pose proof (gain_selection_body_run select_gains w wfm c t cam th W W' gm P sm C T
                Hw Hsel Hmax Hsm Hc HC Ht HT) as Hrun. cbv zeta in Hrun.
  set (l1 := fresh (dom (arrays w))) in *.
  set (m1 := merge sm (take P C) (drop P C)) in *.
  set (m2 := merge sm (take P T) (drop P T)) in *.
  set (l2 := fresh (dom (<[l1 := m1]> (arrays w)))) in *.
  assert (length m1 = P) as Hm1.
  { unfold m1. rewrite merge_length; rewrite ?length_take, ?length_drop; lia. }
  assert (length m2 = P) as Hm2.
  { unfold m2. rewrite merge_length; rewrite ?length_take, ?length_drop; lia. }
  assert (l2 <> l1) as Hne.
  { intros Heq. pose proof (is_fresh (dom (<[l1 := m1]> (arrays w)))) as Hf.
    fold l2 in Hf. rewrite Heq in Hf. apply Hf, elem_of_dom.
    rewrite lookup_insert_eq. by eexists. }
  eexists _, _, _, m1, m2. split.
  { rewrite (gain_selection_assert_passes _ _ _ _ _ _ [P]); [exact Hrun|].
    by rewrite <- (load_shape _ _ _ Hc). }
  split; [done|]. split; [done|]. cbn [arrays set_arrays set_thresholds].
  split.
  { rewrite load_insert_ne by done. rewrite <- Hm1 at 1. apply load_new. }
  split; [done|]. split.
  { rewrite <- Hm2 at 1. apply load_new. }
  split; [done|].
  intros p b Hb. assert (p < P) as Hp by (rewrite <- Hsm; by eapply lookup_lt_Some).
  rewrite !get2_channel by done.
  destruct (lookup_lt_is_Some_2 (take P C) p) as [x0 Hx0]; [rewrite length_take; lia|].
  destruct (lookup_lt_is_Some_2 (drop P C) p) as [x1 Hx1]; [rewrite length_drop; lia|].
  destruct (lookup_lt_is_Some_2 (take P T) p) as [y0 Hy0]; [rewrite length_take; lia|].
  destruct (lookup_lt_is_Some_2 (drop P T) p) as [y1 Hy1]; [rewrite length_drop; lia|].
  exists (if b then x1 else x0), (if b then y1 else y0).
  unfold m1, m2. rewrite (merge_lookup _ _ _ _ _ _ _ Hb Hx0 Hx1).
  rewrite (merge_lookup _ _ _ _ _ _ _ Hb Hy0 Hy1).
  by destruct b.
Qed.

(** A gain mask of shape [[P; S]] with a sample at least reduces to a
    signal mask of [P] entries. *)
Lemma signal_mask_pixels (gm : ndarray bool) P S :
  shape gm = [P; S] -> wf_array gm -> 0 < S ->
  exists sm,
    max_axis1 gm = inr (NDArray [P] sm) /\ length sm = P /\
    forall p b, sm !! p = Some b -> reduce_max (row S (data gm) p) = Some b.
Proof.
  destruct gm as [sh bits]. cbn. intros -> Hwf HS.
  unfold wf_array in Hwf. cbn in Hwf. apply max_axis1_pixels; [done|lia].
Qed.

End GainSelection.

(** * Gain selection on the fields of the event *)

Section GainSelectionValues.

Context {A Th : Type}.
Variable select_gains :
  gmap string Th -> string -> ndarray A -> exn + (ndarray A * ndarray bool).
Implicit Types (w : World A Th) (r : aref).

(** On three arrays the function written for values is [gain_selection]. *)
Lemma gain_selection_values_arrays wfm c t cam th :
  gain_selection_values select_gains (Some wfm) (Some c) (Some t) cam th
  = gain_selection select_gains wfm c t cam th.
Proof. reflexivity. Qed.

(** A call that returns was handed three arrays. *)
Lemma gain_selection_values_Return wv cv tv cam th w res w' :
  gain_selection_values select_gains wv cv tv cam th w = Return res w' ->
  exists wfm c t, wv = Some wfm /\ cv = Some c /\ tv = Some t.
Proof.
  destruct cv as [c|]; [|by cbv]. destruct wv as [wfm|].
  2:{ unfold gain_selection_values, mbind, M_bind, bind. cbn [lift_opt ret].
      destruct (shape_at c 0); cbn [lift ret raise]; [done|].
      by destruct (_ =? 2). }
  destruct tv as [t|]; [by eexists _, _, _|].
  unfold gain_selection_values, mbind, M_bind, bind. cbn [lift_opt ret].
  destruct (shape_at c 0); cbn [lift ret raise]; [done|].
  destruct (_ =? 2); cbn [assert_ ret raise modify]; [|done].
  destruct (call_select_gains_value _ _ _ _) as [[W' gm] w1|]; [|done].
  destruct (max_axis1 gm); cbn [lift ret raise]; [done|].
  destruct (getitem c 0); cbn [lift ret raise]; [done|].
  destruct (copy _ _); [|done].
  destruct (getitem c 1); cbn [lift ret raise]; [done|].
  destruct (mask_getitem _ _ _); [|done].
  by destruct (mask_setitem _ _ _ _).
Qed.

(** Whatever it is handed, the call keeps the event and every buffer that
    existed, whether it returns or raises. *)
Lemma gain_selection_values_frame wv cv tv cam th w :
  match gain_selection_values select_gains wv cv tv cam th w with
  | Return _ w' | Raise _ w' =>
      event w' = event w /\
      (forall l, l ∈ dom (arrays w) -> arrays w' !! l = arrays w !! l)
  end.
Proof.
  destruct cv as [c|]; [|by cbv]. destruct wv as [wfm|].
  2:{ unfold gain_selection_values, mbind, M_bind, bind. cbn [lift_opt ret].
      destruct (shape_at c 0); cbn [lift ret raise]; [done|].
      by destruct (_ =? 2). }
  destruct tv as [t|].
  { rewrite gain_selection_values_arrays.
    pose proof (gain_selection_frame select_gains wfm c t cam th w) as H.
    destruct (gain_selection _ _ _ _ _ _ w) as [[ci cpt] w'|e w']; tauto. }
  set (w0 := set_thresholds (insert cam th) w).
  assert (forall o : outcome A Th (aref * aref),
            match o with Return _ w' | Raise _ w' => preserved w0 w' end ->
            match o with
            | Return _ w' | Raise _ w' =>
                event w' = event w /\
                (forall l, l ∈ dom (arrays w) -> arrays w' !! l = arrays w !! l)
            end) as Hweak.
  { intros [r w'|e w'] (_ & He & Ha); done. }
  unfold gain_selection_values.
  rewrite (bind_Return _ _ w c w eq_refl).
  destruct (shape_at c 0) as [e|d0]; cbn [lift].
  { by rewrite (bind_Raise _ _ w e w eq_refl). }
  rewrite (bind_Return _ _ w d0 w eq_refl).
  destruct (d0 =? 2); cbn [assert_].
  2:{ by rewrite (bind_Raise _ _ w AssertionError w eq_refl). }
  rewrite (bind_Return _ _ w tt w eq_refl).
  apply Hweak.
  match goal with
  | |- match ?body w with _ => _ end =>
      assert (triple (fun w1 => w1 = w) body
                (fun _ => preserved w0) (preserved w0)) as Htr
  end.
  { eapply triple_bind.
    { instantiate (1 := fun _ => preserved w0). intros ? ->. apply preserved_refl. }
    intros [].
    eapply triple_bind;
      [apply triple_unchanged, (unchanged_call_select_gains select_gains cam wfm)|].
    intros [_ gm].
    eapply triple_bind; [apply triple_unchanged, unchanged_lift|]. intros sm.
    apply triple_combine. intros ci Hci.
    eapply triple_bind; [apply triple_unchanged, unchanged_lift_opt|]. intros t.
    apply triple_combine. intros cpt Hcpt.
    intros w1 H1. exact H1. }
  specialize (Htr w eq_refl). revert Htr.
  match goal with |- match ?o with _ => _ end -> _ => by destruct o end.
Qed.

(** * Runs of channel combination *)

(** [combine_channels] past the lookup of the camera: the three lookups
    in [r0.tel] and [dl1.tel] leave a world [w0], which is the one they
    were made in when both maps held the telescope, and the call of
    [gain_selection] on the three fields decides the outcome. *)
Lemma combine_channels_steps w tel_id th tdesc :
  inst_subarray_tel (event w) !! tel_id = Some tdesc ->
  exists w0,
    arrays w0 = arrays w /\ thresholds w0 = thresholds w /\
    (forall id, tel_get empty_dl1 (dl1_tel (event w0)) id
                = tel_get empty_dl1 (dl1_tel (event w)) id) /\
    (is_Some (r0_tel (event w) !! tel_id) ->
     is_Some (dl1_tel (event w) !! tel_id) -> w0 = w) /\
    combine_channels select_gains tel_id th w
    = match gain_selection_values select_gains
              (waveform (tel_get empty_r0 (r0_tel (event w)) tel_id))
              (image (tel_get empty_dl1 (dl1_tel (event w)) tel_id))
              (pulse_time (tel_get empty_dl1 (dl1_tel (event w)) tel_id))
              (cam_id (camera tdesc)) th w0 with
      | Return (ci, cpt) w1 =>
          Return tt
            (set_event
               (set_dl1_tel
                  (insert tel_id {| image := Some ci; pulse_time := Some cpt |})) w1)
      | Raise e w1 => Raise e w1
      end.
Proof.
  intros Htel.
  set (wa := match r0_tel (event w) !! tel_id with
             | Some _ => w
             | None => set_event (set_r0_tel (insert tel_id empty_r0)) w
             end).
  set (wb := match dl1_tel (event wa) !! tel_id with
             | Some _ => wa
             | None => set_event (set_dl1_tel (insert tel_id empty_dl1)) wa
             end).
  assert (dl1_tel (event wa) = dl1_tel (event w)) as Hda.
  { unfold wa. by destruct (r0_tel (event w) !! tel_id). }
  assert (is_Some (dl1_tel (event wb) !! tel_id)) as Hpb.
  { unfold wb. destruct (dl1_tel (event wa) !! tel_id) as [d|] eqn:E.
    - by rewrite E.
    - cbn. by rewrite lookup_insert_eq. }
  assert (forall id, tel_get empty_dl1 (dl1_tel (event wb)) id
                     = tel_get empty_dl1 (dl1_tel (event w)) id) as Hgb.
  { intros id. unfold wb. rewrite <- Hda.
    destruct (dl1_tel (event wa) !! tel_id) as [d|] eqn:E; [done|].
    cbn. by apply tel_get_insert_empty. }
  exists wb. split.
  { unfold wb, wa. by destruct (dl1_tel _ !! _), (r0_tel _ !! _). }
  split.
  { unfold wb, wa. by destruct (dl1_tel _ !! _), (r0_tel _ !! _). }
  split; [done|]. split.
  { intros [c1 E1] [c2 E2]. unfold wb. rewrite Hda, E2. unfold wa. by rewrite E1. }
  unfold combine_channels.
  etrans; [apply bind_Return; reflexivity|]. cbv beta. rewrite Htel. cbn [lift_opt].
  etrans; [apply bind_Return; reflexivity|]. cbv beta zeta.
  etrans; [apply bind_Return, r0_tel_getitem_run|]. cbv beta. fold wa.
  etrans; [apply bind_Return, dl1_tel_getitem_run|]. cbv beta. fold wb.
  etrans; [apply bind_Return, dl1_tel_getitem_present, Hpb|]. cbv beta.
  rewrite Hgb, Hda.
  unfold mbind at 1, M_bind at 1, bind at 1.
  destruct (gain_selection_values _ _ _ _ _ _ wb) as [[ci cpt] w1|e w1]; [|done].
  unfold setattr_dl1, modify, mbind, M_bind, bind, set_event, set_dl1_tel. cbn.
  do 3 f_equal. unfold tel_get. rewrite lookup_insert_eq. cbn.
  by rewrite insert_insert_eq.
Qed.

(** [combine_channels] on an event that holds everything it reads: the
    call of [gain_selection] decides the outcome. *)
Lemma combine_channels_run w tel_id th tdesc wfm c t :
  inst_subarray_tel (event w) !! tel_id = Some tdesc ->
  waveform (tel_get empty_r0 (r0_tel (event w)) tel_id) = Some wfm ->
  image (tel_get empty_dl1 (dl1_tel (event w)) tel_id) = Some c ->
  pulse_time (tel_get empty_dl1 (dl1_tel (event w)) tel_id) = Some t ->
  combine_channels select_gains tel_id th w
  = match gain_selection select_gains wfm c t (cam_id (camera tdesc)) th w with
    | Return (ci, cpt) w1 =>
        Return tt
          (set_event
             (set_dl1_tel
                (insert tel_id {| image := Some ci; pulse_time := Some cpt |})) w1)
    | Raise e w1 => Raise e w1
    end.
Proof.
  intros Htel Hw Hc Ht.
  destruct (combine_channels_steps w tel_id th tdesc Htel)
    as (w0 & _ & _ & _ & Hsame & ->).
  rewrite Hsame; [|by eapply waveform_present|by eapply image_present].
  by rewrite Hw, Hc, Ht, gain_selection_values_arrays.
Qed.

(** A run of [combine_channels] that returns found everything it reads
    and went through [gain_selection]. *)
Lemma combine_channels_Return w tel_id th u w1 :
  combine_channels select_gains tel_id th w = Return u w1 ->
  exists tdesc wfm c t ci cpt w0,
    inst_subarray_tel (event w) !! tel_id = Some tdesc /\
    waveform (tel_get empty_r0 (r0_tel (event w)) tel_id) = Some wfm /\
    image (tel_get empty_dl1 (dl1_tel (event w)) tel_id) = Some c /\
    pulse_time (tel_get empty_dl1 (dl1_tel (event w)) tel_id) = Some t /\
    gain_selection select_gains wfm c t (cam_id (camera tdesc)) th w
    = Return (ci, cpt) w0 /\
    w1 = set_event
           (set_dl1_tel
              (insert tel_id {| image := Some ci; pulse_time := Some cpt |})) w0.
Proof.
  intros Hrun.
  destruct (inst_subarray_tel (event w) !! tel_id) as [tdesc|] eqn:Htel.
  2:{ unfold combine_channels, mbind, M_bind, bind in Hrun. cbn [gets] in Hrun.
      by rewrite Htel in Hrun. }
  destruct (combine_channels_steps w tel_id th tdesc Htel)
    as (w0 & _ & _ & _ & Hsame & Hsteps).
  rewrite Hsteps in Hrun.
  destruct (gain_selection_values _ _ _ _ _ _ w0) as [[ci cpt] w2|e w2] eqn:Egs;
    [|done].
  destruct (gain_selection_values_Return _ _ _ _ _ _ _ _ Egs)
    as (wfm & c & t & Hw & Hc & Ht).
  rewrite Hsame in Egs; [|by eapply waveform_present|by eapply image_present].
  rewrite Hw, Hc, Ht, gain_selection_values_arrays in Egs.
  injection Hrun as _ <-. by eexists tdesc, wfm, c, t, ci, cpt, w2.
Qed.

End GainSelectionValues.

(** * Runs of calibration *)

Lemma merge_all_true {T} n (hi lo : list T) :
  length hi = n -> length lo = n -> merge (replicate n true) hi lo = lo.
Proof.
  revert hi lo. unfold merge.
  induction n as [|n IH]; intros [|x hi] [|y lo] E1 E2; simplify_eq/=; [done|].
  f_equal. by apply IH.
Qed.

Lemma scatter_all {T} (old new : list T) :
  length new = length old ->
  scatter (seq 0 (length old)) (replicate (length old) true) new old = new.
Proof.
  intros E.
  pose proof (scatter_contiguous (replicate (length old) true) [] old new) as H.
  rewrite length_replicate in H. cbn in H.
  rewrite select_all, merge_all_true in H by done. apply H; done.
Qed.

Lemma source_index_inner sh N k :
  k / N < numel sh -> source_index (1 :: sh) (N :: sh) k = k / N.
Proof. intros Hk. cbn. rewrite source_index_same by done. lia. Qed.

Lemma broadcast_shapes_samples G P N :
  broadcast_shapes [G; P; N] [G; P; 1] = Some [G; P; N].
Proof.
  unfold broadcast_shapes. cbn [reverse rev_append].
  change (broadcast_rev [N; P; G] [1; P; G]) with
    (match broadcast_rev [P; G] [P; G] with
     | None => None
     | Some r =>
         if N =? 1 then Some (N :: r)
         else if N =? 1 then Some (1 :: r)
         else if 1 =? 1 then Some (N :: r) else None
     end).
  rewrite broadcast_rev_same. by destruct (N =? 1).
Qed.

(** A per-pixel array broadcast along the sample axis: sample [s] of pixel
    [p] in channel [g] reads entry [(g, p)]. *)
Lemma broadcast_to_samples {T} (d : list T) G P N :
  length d = G * P -> 0 < N ->
  exists d',
    broadcast_to (NDArray [G; P; 1] d) [G; P; N] = Some (NDArray [G; P; N] d') /\
    length d' = G * P * N /\
    forall k, k < G * P * N -> d' !! k = d !! (k / N).
Proof.
  intros Hd HN. unfold broadcast_to. cbn [shape data reverse rev_append].
  assert (numel [G; P; N] = G * P * N) as Hn by (cbn; lia).
  assert (numel [P; G] = G * P) as Hn' by (cbn; lia).
  assert (forall k, k < G * P * N -> k / N < G * P) as Hdiv.
  { intros k Hk. apply Nat.Div0.div_lt_upper_bound. lia. }
  destruct (gather d (map (source_index [1; P; G] [N; P; G]) (seq 0 (numel [G; P; N]))))
    as [d'|] eqn:E.
  2:{ exfalso. assert (is_Some (gather d (map (source_index [1; P; G] [N; P; G])
                                           (seq 0 (numel [G; P; N]))))) as [? ?];
        [|congruence].
      apply gather_is_Some, Forall_forall. intros i Hi.
      change (map ?f ?l) with (f <$> l) in Hi.
      apply list_elem_of_fmap in Hi as (k & -> & Hk). apply elem_of_seq in Hk.
      rewrite source_index_inner; rewrite ?Hn', ?Hd; apply Hdiv; lia. }
  exists d'. split; [done|]. split.
  { rewrite (gather_length _ _ _ E). change (map ?f ?l) with (f <$> l).
    by rewrite length_fmap, length_seq. }
  intros k Hk. apply (gather_lookup _ _ _ _ _ E).
  change (map ?f ?l) with (f <$> l). rewrite list_lookup_fmap.
  rewrite (proj2 (lookup_seq 0 (numel [G; P; N]) k k)) by (split; lia). cbn [fmap option_fmap option_map].
  f_equal. apply source_index_inner. rewrite Hn'. by apply Hdiv.
Qed.

Lemma broadcast_shapes_pixels G P N :
  broadcast_shapes [G; P; N] [1; P; 1] = Some [G; P; N].
Proof.
  unfold broadcast_shapes. cbn [reverse rev_append broadcast_rev].
  rewrite !Nat.eqb_refl. destruct (G =? 1); cbn; by destruct (N =? 1).
Qed.

Lemma source_index_pixels G P N k :
  source_index [1; P; 1] [N; P; G] k = (k / N) mod P.
Proof.
  cbn. destruct (Nat.eqb_spec P 1) as [->|_]; [|lia].
  rewrite Nat.mod_1_r. lia.
Qed.

(** An array with one entry per pixel broadcast along the channel and
    sample axes: every sample of pixel [p] reads entry [p]. *)
Lemma broadcast_to_pixels {T} (d : list T) G P N :
  length d = P -> 0 < N ->
  exists d',
    broadcast_to (NDArray [1; P; 1] d) [G; P; N] = Some (NDArray [G; P; N] d') /\
    length d' = G * P * N /\
    forall k, k < G * P * N -> d' !! k = d !! ((k / N) mod P).
Proof.
  intros Hd HN. unfold broadcast_to. cbn [shape data reverse rev_append].
  assert (numel [G; P; N] = G * P * N) as Hn by (cbn; lia).
  destruct (gather d (map (source_index [1; P; 1] [N; P; G]) (seq 0 (numel [G; P; N]))))
    as [d'|] eqn:E.
  2:{ exfalso. assert (is_Some (gather d (map (source_index [1; P; 1] [N; P; G])
                                           (seq 0 (numel [G; P; N]))))) as [? ?];
        [|congruence].
      apply gather_is_Some, Forall_forall. intros i Hi.
      change (map ?f ?l) with (f <$> l) in Hi.
      apply list_elem_of_fmap in Hi as (k & -> & Hk). apply elem_of_seq in Hk.
      rewrite source_index_pixels, Hd. apply Nat.mod_upper_bound.
      intros ->. lia. }
  exists d'. split; [done|]. split.
  { rewrite (gather_length _ _ _ E). change (map ?f ?l) with (f <$> l).
    by rewrite length_fmap, length_seq. }
  intros k Hk. apply (gather_lookup _ _ _ _ _ E).
  change (map ?f ?l) with (f <$> l). rewrite list_lookup_fmap.
  rewrite (proj2 (lookup_seq 0 (numel [G; P; N]) k k)) by (split; lia).
  cbn [fmap option_fmap option_map]. f_equal. apply source_index_pixels.
Qed.

Lemma flat_index_div G P N g p s :
  g < G -> p < P -> s < N ->
  (g * P + p) * N + s < G * P * N /\ ((g * P + p) * N + s) / N = g * P + p.
Proof.
  intros Hg Hp Hs. split.
  - assert (g * P + p + 1 <= G * P) by nia. nia.
  - rewrite Nat.div_add_l by lia. rewrite Nat.div_small by done. lia.
Qed.

Lemma broadcast_rev_pixel_mismatch P P' r r' :
  P <> P' -> P <> 1 -> P' <> 1 ->
  broadcast_rev (P :: r) (P' :: r') = None.
Proof.
  intros H1 H2 H3. cbn. destruct (broadcast_rev r r'); [|done].
  destruct (Nat.eqb_spec P P'); [done|]. destruct (Nat.eqb_spec P 1); [done|].
  by destruct (Nat.eqb_spec P' 1).
Qed.

Lemma get2_zip_with {T} (f : T -> T -> T) (a b : list T) m n i j x y :
  get2 (NDArray [m; n] a) i j = Some x -> get2 (NDArray [m; n] b) i j = Some y ->
  get2 (NDArray [m; n] (zip_with f a b)) i j = Some (f x y).
Proof.
  unfold get2. cbn [shape data].
  destruct ((i <? m) && (j <? n)); [|done]. intros Hx Hy.
  by rewrite lookup_zip_with, Hx; cbn; rewrite Hy.
Qed.

Section CalibrationFacts.

Context {A Th : Type} `{Dtype A}.
Implicit Types (w : World A Th) (r : aref).

(** The subtraction on a raw waveform of shape [[G; P; N]] and a pedestal
    array of shape [[G; P]]: the result has the shape of the raw waveform
    and holds [raw - ped / N] at every channel, pixel and sample. *)
Lemma pedcorrectedsamples_per_sample (raw ped : ndarray A) G P N :
  shape raw = [G; P; N] -> wf_array raw ->
  shape ped = [G; P] -> wf_array ped ->
  0 < N ->
  exists corrected,
    pedcorrectedsamples raw ped = inr corrected /\
    shape corrected = [G; P; N] /\ wf_array corrected /\
    forall g p s, g < G -> p < P -> s < N ->
      exists x y,
        get3 raw g p s = Some x /\ get2 ped g p = Some y /\
        get3 corrected g p s
        = Some (subtract x (true_divide y (of_int (Z.of_nat N)))).
Proof.
  destruct raw as [shr dr], ped as [shp dp]. unfold wf_array. cbn [shape data].
  intros -> Hr -> Hp HN.
  assert (length dr = G * P * N) as Hlr by (cbn in Hr; lia).
  assert (length dp = G * P) as Hlp by (cbn in Hp; lia).
  unfold pedcorrectedsamples, atleast_3d, map_array, elementwise.
  cbn [shape data lookup list_lookup].
  rewrite broadcast_shapes_samples.
  pose proof (broadcast_to_same (NDArray [G; P; N] dr) Hr) as Er. cbn [shape] in Er.
  rewrite Er.
  set (f := fun x => true_divide x (of_int (Z.of_nat N))).
  destruct (broadcast_to_samples (f <$> dp) G P N) as (d' & Ed & Hl' & Hd');
    [by rewrite length_fmap|done|].
  rewrite Ed. eexists. split; [reflexivity|]. cbn [shape data].
  split; [done|]. split.
  { rewrite length_zip_with. cbn. lia. }
  intros g p s Hg Hpp Hs.
  destruct (flat_index_div G P N g p s Hg Hpp Hs) as [Hk Hdiv].
  destruct (lookup_lt_is_Some_2 dr ((g * P + p) * N + s)) as [x Hx]; [lia|].
  destruct (lookup_lt_is_Some_2 dp (g * P + p)) as [y Hy]; [nia|].
  exists x, y. unfold get3, get2. cbn [shape data].
  destruct (Nat.ltb_spec g G); [|lia]. destruct (Nat.ltb_spec p P); [|lia].
  destruct (Nat.ltb_spec s N); [|lia]. cbn [andb].
  split; [done|]. split; [done|].
  rewrite lookup_zip_with, Hx. cbn.
  rewrite (Hd' _ Hk), Hdiv, list_lookup_fmap, Hy. done.
Qed.

Lemma load_contiguous (h : gmap loc (list A)) l d sh :
  h !! l = Some d -> load h (ARef l (seq 0 (length d)) sh) = Some (NDArray sh d).
Proof. intros E. unfold load. cbn [buf cells vshape]. by rewrite E, gather_seq. Qed.

(** [r *= o] on a contiguous array and a factor array of its shape. *)
Lemma imul_run w l ds sh o f :
  arrays w !! l = Some ds -> wf_array (NDArray sh ds) ->
  load (arrays w) o = Some f -> shape f = sh -> wf_array f ->
  imul (ARef l (seq 0 (length ds)) sh) o w
  = Return tt (set_arrays (insert l (zip_with multiply ds (data f))) w).
Proof.
  intros El Hwd Ho Hsf Hwf. unfold imul.
  etrans; [apply bind_Return, read_run, load_contiguous, El|]. cbv beta.
  etrans; [apply bind_Return, read_run, Ho|]. cbv beta. cbn [shape data].
  rewrite Hsf, broadcast_shapes_same.
  destruct (decide _) as [_|Hn]; [|by destruct Hn].
  pose proof (broadcast_to_same f Hwf) as Eb. rewrite Hsf in Eb. rewrite Eb.
  unfold write. cbn [buf cells]. rewrite El.
  rewrite length_seq, scatter_all; [done|].
  rewrite length_zip_with. unfold wf_array in *. cbn [shape data] in Hwd.
  rewrite Hsf in Hwf. lia.
Qed.

End CalibrationFacts.

Section CalibrationObjectsFacts.

Context {A Th : Type} `{Dtype A}.
Implicit Types (w : World A Th) (r : aref).

(** The kept buffers of the world in which the charge is scaled. *)
Lemma after_extraction_kept w integration pt l :
  l ∈ dom (arrays w) ->
  arrays (after_extraction w integration pt) !! l = arrays w !! l.
Proof.
  intros Hl. unfold after_extraction, signals_ref, pulse_time_ref.
  cbn [arrays set_arrays buf].
  rewrite !lookup_insert_ne; [done| |].
  - intros Heq. rewrite <- Heq in Hl. by apply is_fresh in Hl.
  - intros Heq.
    pose proof (is_fresh (dom (<[fresh (dom (arrays w)) := data pt]> (arrays w)))) as Hf.
    rewrite Heq in Hf. apply Hf. rewrite dom_insert. set_solver.
Qed.

Lemma after_extraction_signals w integration pt :
  arrays (after_extraction w integration pt) !! buf (signals_ref w integration pt)
  = Some (astype_float <$> data integration).
Proof. unfold after_extraction. cbn [arrays set_arrays]. apply lookup_insert_eq. Qed.

Lemma signals_not_pulse_time w integration pt :
  buf (signals_ref w integration pt) <> buf (pulse_time_ref w pt).
Proof.
  unfold signals_ref, pulse_time_ref. cbn [buf]. intros Heq.
  pose proof (is_fresh (dom (<[fresh (dom (arrays w)) := data pt]> (arrays w)))) as Hf.
  rewrite Heq in Hf. apply Hf. rewrite dom_insert. set_solver.
Qed.

Lemma signals_fresh w integration pt :
  buf (signals_ref w integration pt) ∉ dom (arrays w).
Proof.
  unfold signals_ref. cbn [buf]. intros Hin.
  pose proof (is_fresh (dom (<[fresh (dom (arrays w)) := data pt]> (arrays w)))) as Hf.
  apply Hf. rewrite dom_insert. set_solver.
Qed.

(** [r *= o] either raises and leaves the world alone, or rewrites the
    buffer of [r]. *)
Lemma imul_outcome r o w :
  match imul r o w with
  | Return _ w' => exists b, w' = set_arrays (insert (buf r) b) w
  | Raise _ w' => w' = w
  end.
Proof.
  unfold imul, mbind, M_bind, bind, read.
  destruct (load (arrays w) r); [|done]. destruct (load (arrays w) o); [|done].
  destruct (decide _); [|done]. destruct (broadcast_to _ _); [|done].
  unfold write. destruct (arrays w !! buf r); [|done]. by eexists.
Qed.

End CalibrationObjectsFacts.

Section CalibrationRuns.

Context {A Th : Type} `{Dtype A}.
Variable LocalPeakWindowSum : ndarray A -> exn + (ndarray A * ndarray A).
Implicit Types (w : World A Th) (r : aref).

(** [lst_calibration] on an event that holds a waveform of three axes and
    a pedestal array, spelled out by the outcome of each step that can
    raise: the subtraction, the extractor, the conversion factors and the
    scaling in place.  Both maps hold the telescope, so the lookups leave
    the event as it is. *)
Lemma lst_calibration_run w tel raw_ref ped_ref raw ped n :
  waveform (tel_get empty_r0 (r0_tel (event w)) tel) = Some raw_ref ->
  pedestal (tel_get empty_mc (mc_tel (event w)) tel) = Some ped_ref ->
  vshape raw_ref !! 2 = Some n ->
  load (arrays w) raw_ref = Some raw ->
  load (arrays w) ped_ref = Some ped ->
  lst_calibration LocalPeakWindowSum tel w
  = match pedcorrectedsamples raw ped with
    | inl e => Raise e w
    | inr corrected =>
        match LocalPeakWindowSum corrected with
        | inl e => Raise e w
        | inr (integration, pt) =>
            match dc_to_pe (tel_get empty_mc (mc_tel (event w)) tel) with
            | None => Raise NoneError (after_extraction w integration pt)
            | Some dc =>
                match imul (signals_ref w integration pt) dc
                        (after_extraction w integration pt) with
                | Return _ w' =>
                    Return tt
                      (set_event
                         (set_dl1_tel (insert tel (calibrated_slot w integration pt)))
                         w')
                | Raise e w' => Raise e w'
                end
            end
        end
    end.
Proof.
  intros Hraw Hped Hn Lraw Lped.
  pose proof (waveform_present _ _ _ Hraw) as Pr0.
  pose proof (pedestal_present _ _ _ Hped) as Pmc.
  unfold lst_calibration.
  etrans; [apply bind_Return, r0_tel_getitem_present, Pr0|]. cbv beta zeta.
  etrans; [apply bind_Return, mc_tel_getitem_present, Pmc|]. cbv beta zeta.
  rewrite Hraw, Hped. unfold mbind, M_bind, bind. cbn [lift_opt ret].
  unfold shape_at. rewrite Hn.
  cbn [lift ret]. unfold read. rewrite Lraw, Lped.
  destruct (pedcorrectedsamples raw ped) as [e|corrected]; [done|]. cbn [lift ret].
  destruct (LocalPeakWindowSum corrected) as [e|[integration pt]]; [done|].
  cbn [lift ret alloc map_array data shape arrays set_arrays event].
  rewrite mc_tel_getitem_present by exact Pmc.
  cbn [event set_arrays].
  destruct (dc_to_pe _) as [dc|]; [|done]. cbn [lift_opt ret].
  fold (signals_ref w integration pt).
  change (set_arrays _ (set_arrays _ w)) with (after_extraction w integration pt).
  destruct (imul _ dc _) as [u w'|e w']; [|done].
  unfold setattr_dl1, modify, set_event, set_dl1_tel, calibrated_slot. cbn.
  do 3 f_equal. unfold tel_get. rewrite lookup_insert_eq. cbn.
  by rewrite insert_insert_eq.
Qed.

(** [lst_calibration] on an event that holds what it reads, with
    conversion factors of the shape of the charge. *)
Lemma lst_calibration_returns
    w tel raw_ref ped_ref dc_ref raw ped factors corrected integration pt :
  waveform (tel_get empty_r0 (r0_tel (event w)) tel) = Some raw_ref ->
  pedestal (tel_get empty_mc (mc_tel (event w)) tel) = Some ped_ref ->
  dc_to_pe (tel_get empty_mc (mc_tel (event w)) tel) = Some dc_ref ->
  load (arrays w) raw_ref = Some raw ->
  load (arrays w) ped_ref = Some ped ->
  load (arrays w) dc_ref = Some factors ->
  pedcorrectedsamples raw ped = inr corrected ->
  LocalPeakWindowSum corrected = inr (integration, pt) ->
  wf_array integration ->
  shape factors = shape integration -> wf_array factors ->
  lst_calibration LocalPeakWindowSum tel w
  = Return tt (calibrated_world w tel integration pt factors).
Proof.
  intros Hraw Hped Hdc Lraw Lped Ldc Hcorr Hext Hwi Hsf Hwf.
  assert (exists n, vshape raw_ref !! 2 = Some n) as [n Hn].
  { rewrite <- (load_shape _ _ _ Lraw). unfold pedcorrectedsamples in Hcorr.
    destruct (shape raw !! 2) as [n|]; [by exists n|done]. }
  rewrite (lst_calibration_run w tel raw_ref ped_ref raw ped n);
    try done.
  rewrite Hcorr, Hext, Hdc. unfold signals_ref at 1.
  rewrite (imul_run _ _ (astype_float <$> data integration) (shape integration)
             dc_ref factors); [reflexivity| | |  |done|done].
  { exact (after_extraction_signals w integration pt). }
  { unfold wf_array in *. cbn [shape data]. by rewrite length_fmap. }
  { apply (load_kept (arrays w)); [|exact Ldc]. intros l.
    apply after_extraction_kept. }
Qed.

(** What the calibrated world holds. *)
Lemma calibrated_world_facts w tel integration pt factors :
  wf_array integration -> shape factors = shape integration -> wf_array factors ->
  thresholds (calibrated_world w tel integration pt factors) = thresholds w /\
  (forall r a, load (arrays w) r = Some a ->
     load (arrays (calibrated_world w tel integration pt factors)) r = Some a) /\
  load (arrays (calibrated_world w tel integration pt factors))
       (signals_ref w integration pt)
  = Some (NDArray (shape integration)
            (zip_with multiply (astype_float <$> data integration) (data factors))) /\
  load (arrays (calibrated_world w tel integration pt factors)) (pulse_time_ref w pt)
  = Some pt.
Proof.
  intros Hwi Hsf Hwf. unfold calibrated_world.
  cbn [thresholds arrays set_event set_arrays after_extraction].
  split; [done|]. split.
  { intros r a Hl. apply (load_kept (arrays w)); [|done]. intros l Hin.
    rewrite lookup_insert_ne.
    - by apply (after_extraction_kept w integration pt).
    - intros Heq. rewrite <- Heq in Hin. by apply signals_fresh in Hin. }
  split.
  - unfold signals_ref at 3.
    replace (length (astype_float <$> data integration))
      with (length (zip_with multiply (astype_float <$> data integration) (data factors))).
    + apply load_new.
    + rewrite length_zip_with, length_fmap. unfold wf_array in *.
      rewrite Hsf in Hwf. lia.
  - rewrite !load_insert_ne by apply signals_not_pulse_time.
    destruct pt as [shpt dpt]. unfold pulse_time_ref. cbn [data shape buf].
    apply load_new.
Qed.

(** What a returning [lst_calibration] leaves in the slot of its
    telescope. *)
Lemma lst_calibration_slot
    w tel raw_ref ped_ref dc_ref raw ped factors corrected integration pt :
  waveform (tel_get empty_r0 (r0_tel (event w)) tel) = Some raw_ref ->
  pedestal (tel_get empty_mc (mc_tel (event w)) tel) = Some ped_ref ->
  dc_to_pe (tel_get empty_mc (mc_tel (event w)) tel) = Some dc_ref ->
  load (arrays w) raw_ref = Some raw ->
  load (arrays w) ped_ref = Some ped ->
  load (arrays w) dc_ref = Some factors ->
  pedcorrectedsamples raw ped = inr corrected ->
  LocalPeakWindowSum corrected = inr (integration, pt) ->
  wf_array integration ->
  shape factors = shape integration -> wf_array factors ->
  exists w' img tim,
    lst_calibration LocalPeakWindowSum tel w = Return tt w' /\
    image (tel_get empty_dl1 (dl1_tel (event w')) tel) = Some img /\
    pulse_time (tel_get empty_dl1 (dl1_tel (event w')) tel) = Some tim /\
    load (arrays w') img
    = Some (NDArray (shape integration)
              (zip_with multiply (astype_float <$> data integration) (data factors))) /\
    load (arrays w') tim = Some pt.
Proof.
  intros Hraw Hped Hdc Lraw Lped Ldc Hcorr Hext Hwi Hsf Hwf.
  destruct (calibrated_world_facts w tel integration pt factors Hwi Hsf Hwf)
    as (_ & _ & Lsig & Lpt).
  exists (calibrated_world w tel integration pt factors),
    (signals_ref w integration pt), (pulse_time_ref w pt).
  split; [by eapply lst_calibration_returns|].
  repeat split; try done.
  - unfold calibrated_world. cbn [event set_event set_dl1_tel dl1_tel].
    unfold tel_get. by rewrite lookup_insert_eq.
  - unfold calibrated_world. cbn [event set_event set_dl1_tel dl1_tel].
    unfold tel_get. by rewrite lookup_insert_eq.
Qed.

End CalibrationRuns.

(** * Gain selection *)

Section GainSelectionClaims.

Context {A Th : Type}.
Variable select_gains :
  gmap string Th -> string -> ndarray A -> exn + (ndarray A * ndarray bool).
Implicit Types (w : World A Th) (r : aref).

(** C1, as amended.  For two-channel charges [C] and pulse times [T] of
    shape [[2; P]] and a waveform for which the selector yields a gain mask
    of shape [[P; S]] with a sample at least ([0 < S]), [gain_selection]
    returns a combined charge array and a combined pulse-time array of
    shape [[P]], and the combined charge of every pixel [p] is [C[0][p]] or
    [C[1][p]], namely the one of the channel that the signal mask names at
    [p]. *)
Theorem gain_selection_combines_pixelwise
    w wfm c t cam th W W' gm P S Carr Tarr :
  load (arrays w) wfm = Some W ->
  select_gains (<[cam := th]> (thresholds w)) cam W = inr (W', gm) ->
  shape gm = [P; S] -> wf_array gm -> 0 < S ->
  load (arrays w) c = Some Carr -> shape Carr = [2; P] -> wf_array Carr ->
  load (arrays w) t = Some Tarr -> shape Tarr = [2; P] -> wf_array Tarr ->
  exists ci cpt w' img tim sm,
    gain_selection select_gains wfm c t cam th w = Return (ci, cpt) w' /\
    load (arrays w') ci = Some (NDArray [P] img) /\ length img = P /\
    load (arrays w') cpt = Some (NDArray [P] tim) /\ length tim = P /\
    max_axis1 gm = inr (NDArray [P] sm) /\
    forall p, p < P ->
      exists b x,
        sm !! p = Some b /\ img !! p = Some x /\
        get2 Carr (channel b) p = Some x /\
        (get2 Carr 0 p = Some x \/ get2 Carr 1 p = Some x).
Proof.
  intros Hw Hsel Hgm Hwf HS Hc HsC HwC Ht HsT HwT.
  destruct (signal_mask_pixels gm P S Hgm Hwf HS) as (sm & Hmax & Hsm & _).
  destruct (gain_selection_pixels select_gains w wfm c t cam th W W' gm P sm Carr Tarr)
    as (ci & cpt & w' & img & tim & Hrun & _ & _ & Hi & Li & Hp & Lp & Hpix); try done.
  exists ci, cpt, w', img, tim, sm. repeat (split; [done|]).
  intros p Hlt.
  destruct (lookup_lt_is_Some_2 sm p) as [b Hb]; [lia|].
  destruct (Hpix p b Hb) as (x & y & Hx & Hcx & _).
  exists b, x. repeat (split; [done|]).
  destruct b; [right|left]; exact Hcx.
Qed.

(** C2.  When [gain_selection] combines [P] pixels, the signal mask of a
    pixel is the maximum, that is the disjunction, of the gain mask over
    the samples of that pixel, so it holds exactly when one sample of the
    pixel triggered; and the combined charge and pulse time of the pixel
    are read from channel 1, the low gain, when the signal mask holds and
    from channel 0 when it does not. *)
Theorem gain_selection_low_gain_iff_signal_mask
    w wfm c t cam th W W' gm P S Carr Tarr :
  load (arrays w) wfm = Some W ->
  select_gains (<[cam := th]> (thresholds w)) cam W = inr (W', gm) ->
  shape gm = [P; S] -> wf_array gm -> 0 < S ->
  load (arrays w) c = Some Carr -> shape Carr = [2; P] -> wf_array Carr ->
  load (arrays w) t = Some Tarr -> shape Tarr = [2; P] -> wf_array Tarr ->
  exists ci cpt w' img tim sm,
    gain_selection select_gains wfm c t cam th w = Return (ci, cpt) w' /\
    load (arrays w') ci = Some (NDArray [P] img) /\
    load (arrays w') cpt = Some (NDArray [P] tim) /\
    max_axis1 gm = inr (NDArray [P] sm) /\
    forall p, p < P ->
      exists b,
        sm !! p = Some b /\
        reduce_max (row S (data gm) p) = Some b /\
        b = foldr orb false (row S (data gm) p) /\
        (b = true <-> exists s, get2 gm p s = Some true) /\
        (channel b = 1 <-> b = true) /\
        (exists x, img !! p = Some x /\ get2 Carr (channel b) p = Some x) /\
        (exists y, tim !! p = Some y /\ get2 Tarr (channel b) p = Some y).
Proof.
  intros Hw Hsel Hgm Hwf HS Hc HsC HwC Ht HsT HwT.
  destruct (signal_mask_pixels gm P S Hgm Hwf HS) as (sm & Hmax & Hsm & Hred).
  destruct (gain_selection_pixels select_gains w wfm c t cam th W W' gm P sm Carr Tarr)
    as (ci & cpt & w' & img & tim & Hrun & _ & _ & Hi & _ & Hp & _ & Hpix); try done.
  exists ci, cpt, w', img, tim, sm. repeat (split; [done|]).
  intros p Hlt.
  destruct (lookup_lt_is_Some_2 sm p) as [b Hb]; [lia|].
  destruct (Hpix p b Hb) as (x & y & Hx & Hcx & Hy & Hcy).
  pose proof (Hred p b Hb) as Hr.
  exists b. split; [done|]. split; [done|].
  split; [by apply reduce_max_orb|]. split.
  { rewrite (reduce_max_true _ _ Hr), row_elem_of.
    destruct gm as [sh bits]. cbn in Hgm. subst sh. unfold get2. cbn [shape data].
    split.
    - intros (s & Hs & Hl). exists s.
      destruct (Nat.ltb_spec p P); [|lia]. destruct (Nat.ltb_spec s S); [|lia]. done.
    - intros (s & Hl). exists s.
      destruct (Nat.ltb_spec p P); [|done]. destruct (Nat.ltb_spec s S); [|done].
      done. }
  split; [by destruct b|]. split; eauto.
Qed.

(** C3.  On charges whose leading extent is not 2, [gain_selection] raises
    [AssertionError] at once: nothing is returned and the world is the one
    it was called in.  On charges whose leading extent is 2 the assertion
    passes, and the call is the rest of the function. *)
Theorem gain_selection_asserts_two_channels w wfm c t cam th d rest :
  vshape c = d :: rest ->
  (d <> 2 ->
   gain_selection select_gains wfm c t cam th w = Raise AssertionError w) /\
  (d = 2 ->
   gain_selection select_gains wfm c t cam th w
   = gain_selection_body select_gains wfm c t cam th w).
Proof.
  intros Hs. split.
  - intros Hd. unfold gain_selection, shape_at. rewrite Hs. cbn [lookup list_lookup lift].
    etrans; [apply bind_Return; reflexivity|]. cbv beta.
    apply bind_Raise. unfold assert_.
    destruct (Nat.eqb_spec d 2) as [|_]; [done|]. reflexivity.
  - intros ->. by eapply gain_selection_assert_passes.
Qed.

(** C7, as amended.  On every call that passes the assertion on the
    leading extent of the charges, [gain_selection] leaves the threshold
    table with the given threshold at the given camera id, whatever was
    stored there before, and with every other entry as it was; this holds
    whether the call returns or raises, and the call changes neither the
    event nor the contents of any array that existed before it. *)
Theorem gain_selection_records_threshold w wfm c t cam th rest :
  vshape c = 2 :: rest ->
  thresholds (final_world (gain_selection select_gains wfm c t cam th w))
  = <[cam := th]> (thresholds w) /\
  thresholds (final_world (gain_selection select_gains wfm c t cam th w)) !! cam
  = Some th /\
  (forall cam', cam' <> cam ->
     thresholds (final_world (gain_selection select_gains wfm c t cam th w)) !! cam'
     = thresholds w !! cam') /\
  event (final_world (gain_selection select_gains wfm c t cam th w)) = event w /\
  (forall r a, load (arrays w) r = Some a ->
     load (arrays (final_world (gain_selection select_gains wfm c t cam th w))) r
     = Some a).
Proof.
  intros Hs. rewrite (gain_selection_assert_passes _ _ _ _ _ _ _ _ Hs).
  pose proof (gain_selection_body_frame select_gains wfm c t cam th w) as H.
  assert (preserved (set_thresholds (insert cam th) w)
            (final_world (gain_selection_body select_gains wfm c t cam th w)))
    as (Hth & Hev & Harr).
  { destruct (gain_selection_body _ _ _ _ _ _ w) as [[ci cpt] w'|e w']; cbn; tauto. }
  cbn in Hth, Hev, Harr. rewrite Hth.
  split; [done|]. split; [apply lookup_insert_eq|].
  split; [intros cam' Hne; by apply lookup_insert_ne|].
  split; [done|]. intros r a. by apply load_kept.
Qed.

(** C9.  When [gain_selection] combines [P] pixels, the one signal mask
    drives both substitutions: for every pixel [p], with [b] the entry of
    the signal mask at [p], the combined charge is the charge of channel
    [channel b] and the combined pulse time is the pulse time of the same
    channel.  So whenever the two channels of the pixel can be told apart,
    in the charges and in the pulse times, the channel that the combined
    charge is read from and the channel that the combined pulse time is
    read from are one and the same, the one the mask names. *)
Theorem gain_selection_same_channel
    w wfm c t cam th W W' gm P S Carr Tarr :
  load (arrays w) wfm = Some W ->
  select_gains (<[cam := th]> (thresholds w)) cam W = inr (W', gm) ->
  shape gm = [P; S] -> wf_array gm -> 0 < S ->
  load (arrays w) c = Some Carr -> shape Carr = [2; P] -> wf_array Carr ->
  load (arrays w) t = Some Tarr -> shape Tarr = [2; P] -> wf_array Tarr ->
  exists ci cpt w' img tim sm,
    gain_selection select_gains wfm c t cam th w = Return (ci, cpt) w' /\
    load (arrays w') ci = Some (NDArray [P] img) /\
    load (arrays w') cpt = Some (NDArray [P] tim) /\
    max_axis1 gm = inr (NDArray [P] sm) /\
    forall p, p < P ->
      exists b x y,
        sm !! p = Some b /\
        img !! p = Some x /\ get2 Carr (channel b) p = Some x /\
        tim !! p = Some y /\ get2 Tarr (channel b) p = Some y /\
        (get2 Carr 0 p <> get2 Carr 1 p ->
         get2 Tarr 0 p <> get2 Tarr 1 p ->
         forall g g', g < 2 -> g' < 2 ->
           get2 Carr g p = Some x -> get2 Tarr g' p = Some y ->
           g = channel b /\ g' = channel b).
Proof.
  intros Hw Hsel Hgm Hwf HS Hc HsC HwC Ht HsT HwT.
  destruct (signal_mask_pixels gm P S Hgm Hwf HS) as (sm & Hmax & Hsm & _).
  destruct (gain_selection_pixels select_gains w wfm c t cam th W W' gm P sm Carr Tarr)
    as (ci & cpt & w' & img & tim & Hrun & _ & _ & Hi & _ & Hp & _ & Hpix); try done.
  exists ci, cpt, w', img, tim, sm. repeat (split; [done|]).
  intros p Hlt.
  destruct (lookup_lt_is_Some_2 sm p) as [b Hb]; [lia|].
  destruct (Hpix p b Hb) as (x & y & Hx & Hcx & Hy & Hcy).
  exists b, x, y. repeat (split; [done|]).
  intros HdC HdT g g' Hg Hg' Hgx Hgy.
  assert (forall k, k < 2 -> k = 0 \/ k = 1) as H01 by (intros; lia).
  split.
  - destruct (H01 g Hg) as [-> | ->], b; cbn [channel] in *; try done;
      destruct HdC; congruence.
  - destruct (H01 g' Hg') as [-> | ->], b; cbn [channel] in *; try done;
      destruct HdT; congruence.
Qed.

(** C10.  [gain_selection] never writes to an array that existed when it
    was called: whether it returns or raises, every reference reads the
    same array afterwards, the charges and pulse times it was passed among
    them, and the two arrays it returns sit in buffers that did not exist
    before the call. *)
Theorem gain_selection_keeps_its_arguments w wfm c t cam th :
  match gain_selection select_gains wfm c t cam th w with
  | Return (ci, cpt) w' =>
      (forall r a, load (arrays w) r = Some a -> load (arrays w') r = Some a) /\
      (buf ci ∉ dom (arrays w)) /\ (buf cpt ∉ dom (arrays w))
  | Raise _ w' =>
      forall r a, load (arrays w) r = Some a -> load (arrays w') r = Some a
  end.
Proof.
  pose proof (gain_selection_frame select_gains wfm c t cam th w) as H.
  destruct (gain_selection _ _ _ _ _ _ w) as [[ci cpt] w'|e w'].
  - destruct H as (_ & Ha & Hci & Hcpt). split; [|done].
    intros r a. by apply load_kept.
  - destruct H as (_ & Ha). intros r a. by apply load_kept.
Qed.

End GainSelectionClaims.

(** C8.  With charges [[10, 10], [5, 5]] and a signal mask
    [True, False], the combined image of [gain_selection] is [5, 10]:
    pixel 0 takes the low gain and pixel 1 keeps the high gain. *)
Theorem gain_selection_scenario {Th : Type}
    (select_gains : gmap string Th -> string -> ndarray Z -> exn + (ndarray Z * ndarray bool))
    (w : World Z Th) wfm c t cam th W W' gm Tarr :
  load (arrays w) wfm = Some W ->
  select_gains (<[cam := th]> (thresholds w)) cam W = inr (W', gm) ->
  max_axis1 gm = inr (NDArray [2] [true; false]) ->
  load (arrays w) c = Some (NDArray [2; 2] [10; 10; 5; 5]%Z) ->
  load (arrays w) t = Some Tarr -> shape Tarr = [2; 2] -> wf_array Tarr ->
  exists ci cpt w',
    gain_selection select_gains wfm c t cam th w = Return (ci, cpt) w' /\
    load (arrays w') ci = Some (NDArray [2] [5; 10]%Z).
Proof.
  intros Hw Hsel Hmax Hc Ht HsT HwT.
  destruct (gain_selection_pixels select_gains w wfm c t cam th W W' gm 2
              [true; false] (NDArray [2; 2] [10; 10; 5; 5]%Z) Tarr)
    as (ci & cpt & w' & img & tim & Hrun & _ & _ & Hi & Li & _ & _ & Hpix); try done.
  exists ci, cpt, w'. split; [done|]. rewrite Hi. do 2 f_equal.
  destruct (Hpix 0 true eq_refl) as (x0 & _ & Hx0 & Hc0 & _).
  destruct (Hpix 1 false eq_refl) as (x1 & _ & Hx1 & Hc1 & _).
  cbn in Hc0, Hc1. simplify_eq.
  destruct img as [|a [|b [|]]]; simplify_eq/=. done.
Qed.

(** * Calibration *)

Section CalibrationClaims.

Context {A Th : Type} `{Dtype A}.
Variable LocalPeakWindowSum : ndarray A -> exn + (ndarray A * ndarray A).
Implicit Types (w : World A Th) (r : aref).

(** C4.  On an event whose telescope holds a raw waveform of shape
    [[G; P; N]] with [0 < N] and a pedestal array of shape [[G; P]],
    [lst_calibration] computes the pedestal-corrected waveform
    [corrected], of the shape of the raw one, with
    [corrected[g][p][s] = raw[g][p][s] - ped[g][p] / N] for every gain
    channel, pixel and sample, and this array is what it hands to the
    extractor: when the extractor raises on [corrected], the run raises the
    same exception, and when it returns a charge and pulse times on
    [corrected], these are what the run scales and stores. *)
Theorem pedestal_subtracted_per_sample
    w tel raw_ref ped_ref raw ped G P N :
  waveform (tel_get empty_r0 (r0_tel (event w)) tel) = Some raw_ref ->
  pedestal (tel_get empty_mc (mc_tel (event w)) tel) = Some ped_ref ->
  load (arrays w) raw_ref = Some raw -> shape raw = [G; P; N] -> wf_array raw ->
  load (arrays w) ped_ref = Some ped -> shape ped = [G; P] -> wf_array ped ->
  0 < N ->
  exists corrected,
    pedcorrectedsamples raw ped = inr corrected /\
    shape corrected = [G; P; N] /\ wf_array corrected /\
    (forall g p s, g < G -> p < P -> s < N ->
       exists x y,
         get3 raw g p s = Some x /\ get2 ped g p = Some y /\
         get3 corrected g p s
         = Some (subtract x (true_divide y (of_int (Z.of_nat N))))) /\
    match LocalPeakWindowSum corrected with
    | inl e => lst_calibration LocalPeakWindowSum tel w = Raise e w
    | inr (integration, pt) =>
        forall dc_ref factors,
          dc_to_pe (tel_get empty_mc (mc_tel (event w)) tel) = Some dc_ref ->
          load (arrays w) dc_ref = Some factors ->
          wf_array integration ->
          shape factors = shape integration -> wf_array factors ->
          exists w' img tim,
            lst_calibration LocalPeakWindowSum tel w = Return tt w' /\
            image (tel_get empty_dl1 (dl1_tel (event w')) tel) = Some img /\
            pulse_time (tel_get empty_dl1 (dl1_tel (event w')) tel) = Some tim /\
            load (arrays w') img
            = Some (NDArray (shape integration)
                      (zip_with multiply (astype_float <$> data integration)
                                (data factors))) /\
            load (arrays w') tim = Some pt
    end.
Proof.
  intros Hraw Hped Lraw Hsr Hwr Lped Hsp Hwp HN.
  destruct (pedcorrectedsamples_per_sample raw ped G P N Hsr Hwr Hsp Hwp HN)
    as (corrected & Hcorr & Hsc & Hwc & Hpix).
  exists corrected. repeat (split; [done|]).
  assert (vshape raw_ref !! 2 = Some N) as Hn.
  { by rewrite <- (load_shape _ _ _ Lraw), Hsr. }
  destruct (LocalPeakWindowSum corrected) as [e|[integration pt]] eqn:Hext.
  - rewrite (lst_calibration_run LocalPeakWindowSum w tel raw_ref ped_ref raw ped N);
      try done.
    by rewrite Hcorr, Hext.
  - intros dc_ref factors Hdc Ldc Hwi Hsf Hwf.
    by eapply lst_calibration_slot.
Qed.

(** The same with a pedestal array of one entry per pixel, shape [[P]],
    which [np.atleast_3d] turns into shape [[1; P; 1]]: every channel and
    sample of pixel [p] is corrected by [ped[p] / N]. *)
Lemma pedestal_subtracted_shared_by_channels (raw ped : ndarray A) G P N :
  shape raw = [G; P; N] -> wf_array raw ->
  shape ped = [P] -> wf_array ped ->
  0 < N ->
  exists corrected,
    pedcorrectedsamples raw ped = inr corrected /\
    shape corrected = [G; P; N] /\
    forall g p s, g < G -> p < P -> s < N ->
      exists x y,
        get3 raw g p s = Some x /\ data ped !! p = Some y /\
        get3 corrected g p s
        = Some (subtract x (true_divide y (of_int (Z.of_nat N)))).
Proof.
  destruct raw as [shr dr], ped as [shp dp]. unfold wf_array. cbn [shape data].
  intros -> Hr -> Hp HN.
  assert (length dr = G * P * N) as Hlr by (cbn in Hr; lia).
  assert (length dp = P) as Hlp by (cbn in Hp; lia).
  unfold pedcorrectedsamples, atleast_3d, map_array, elementwise.
  cbn [shape data lookup list_lookup].
  rewrite broadcast_shapes_pixels.
  pose proof (broadcast_to_same (NDArray [G; P; N] dr) Hr) as Er. cbn [shape] in Er.
  rewrite Er.
  set (f := fun x => true_divide x (of_int (Z.of_nat N))).
  destruct (broadcast_to_pixels (f <$> dp) G P N) as (d' & Ed & Hl' & Hd');
    [by rewrite length_fmap|done|].
  rewrite Ed. eexists. split; [reflexivity|]. cbn [shape data].
  split; [done|].
  intros g p s Hg Hpp Hs.
  destruct (flat_index_div G P N g p s Hg Hpp Hs) as [Hk Hdiv].
  destruct (lookup_lt_is_Some_2 dr ((g * P + p) * N + s)) as [x Hx]; [lia|].
  destruct (lookup_lt_is_Some_2 dp p) as [y Hy]; [lia|].
  exists x, y. unfold get3. cbn [shape data].
  destruct (Nat.ltb_spec g G); [|lia]. destruct (Nat.ltb_spec p P); [|lia].
  destruct (Nat.ltb_spec s N); [|lia]. cbn [andb].
  split; [done|]. split; [done|].
  rewrite lookup_zip_with, Hx. cbn.
  rewrite (Hd' _ Hk), Hdiv.
  replace ((g * P + p) mod P) with p.
  - by rewrite list_lookup_fmap, Hy.
  - rewrite Nat.add_comm, Nat.Div0.mod_add. symmetry. by apply Nat.mod_small.
Qed.

(** C5.  [lst_calibration] multiplies the charge of the extractor, entry
    by entry, with the conversion factors [dc_to_pe], an array of the shape
    of the charge (one factor per gain and pixel), and binds the scaled
    charge to [event.dl1.tel[telescope_id].image] and the pulse times of
    the extractor to [event.dl1.tel[telescope_id].pulse_time]. *)
Theorem lst_calibration_scales_and_stores
    w tel raw_ref ped_ref dc_ref raw ped factors corrected integration pt :
  waveform (tel_get empty_r0 (r0_tel (event w)) tel) = Some raw_ref ->
  pedestal (tel_get empty_mc (mc_tel (event w)) tel) = Some ped_ref ->
  dc_to_pe (tel_get empty_mc (mc_tel (event w)) tel) = Some dc_ref ->
  load (arrays w) raw_ref = Some raw ->
  load (arrays w) ped_ref = Some ped ->
  load (arrays w) dc_ref = Some factors ->
  pedcorrectedsamples raw ped = inr corrected ->
  LocalPeakWindowSum corrected = inr (integration, pt) ->
  wf_array integration ->
  shape factors = shape integration -> wf_array factors ->
  exists w' img tim,
    lst_calibration LocalPeakWindowSum tel w = Return tt w' /\
    image (tel_get empty_dl1 (dl1_tel (event w')) tel) = Some img /\
    pulse_time (tel_get empty_dl1 (dl1_tel (event w')) tel) = Some tim /\
    load (arrays w') img
    = Some (NDArray (shape integration)
              (zip_with multiply (astype_float <$> data integration) (data factors))) /\
    load (arrays w') tim = Some pt.
Proof. apply lst_calibration_slot. Qed.

End CalibrationClaims.

Section CombineClaims.

Context {A Th : Type}.
Variable select_gains :
  gmap string Th -> string -> ndarray A -> exn + (ndarray A * ndarray bool).
Implicit Types (w : World A Th) (r : aref).

(** C6.  A call of [combine_channels] that returns hands back nothing and
    changes the event only at [dl1.tel[tel_id]], whose [image] and
    [pulse_time] now refer to the two arrays [gain_selection] returned for
    the telescope; the [r0], [mc] and [inst.subarray] entries, the [dl1]
    entries of other telescopes, and the contents of every array that
    existed before the call, the raw waveform, the pedestals and the
    conversion factors among them, are as they were. *)
Theorem combine_channels_writes_only_dl1 w tel_id th u w' :
  combine_channels select_gains tel_id th w = Return u w' ->
  u = tt /\
  r0_tel (event w') = r0_tel (event w) /\
  mc_tel (event w') = mc_tel (event w) /\
  inst_subarray_tel (event w') = inst_subarray_tel (event w) /\
  (forall id, id <> tel_id -> dl1_tel (event w') !! id = dl1_tel (event w) !! id) /\
  (forall r a, load (arrays w) r = Some a -> load (arrays w') r = Some a) /\
  exists tdesc wfm c t ci cpt w1,
    inst_subarray_tel (event w) !! tel_id = Some tdesc /\
    waveform (tel_get empty_r0 (r0_tel (event w)) tel_id) = Some wfm /\
    image (tel_get empty_dl1 (dl1_tel (event w)) tel_id) = Some c /\
    pulse_time (tel_get empty_dl1 (dl1_tel (event w)) tel_id) = Some t /\
    gain_selection select_gains wfm c t (cam_id (camera tdesc)) th w
    = Return (ci, cpt) w1 /\
    arrays w' = arrays w1 /\
    dl1_tel (event w') !! tel_id
    = Some {| image := Some ci; pulse_time := Some cpt |}.
Proof.
  intros Hrun.
  destruct (combine_channels_Return select_gains _ _ _ _ _ Hrun)
    as (tdesc & wfm & c & t & ci & cpt & w1 & Htel & Hw & Hc & Ht & Egs & ->).
  pose proof (gain_selection_frame select_gains wfm c t (cam_id (camera tdesc)) th w)
    as Hframe.
  rewrite Egs in Hframe. destruct Hframe as (Hev & Harr & _ & _).
  cbn [event set_event set_dl1_tel r0_tel mc_tel inst_subarray_tel dl1_tel arrays].
  rewrite Hev. split; [by destruct u|]. repeat (split; [done|]).
  split.
  { intros id Hne. by rewrite lookup_insert_ne. }
  split.
  { intros r a. by apply load_kept. }
  exists tdesc, wfm, c, t, ci, cpt, w1. repeat (split; [done|]).
  by rewrite lookup_insert_eq.
Qed.

End CombineClaims.

(** * The worked event *)

(** The worked call returns: pixel 0 is read from the low gain, pixel 1
    from the high gain. *)
Lemma gain_selection_combines_pixelwise_witness :
  exists ci cpt w' img tim sm,
    gain_selection threshold_select_gains ex_waveform ex_charges ex_pulse_time
      "LSTCam" 4%Z ex_world = Return (ci, cpt) w' /\
    load (arrays w') ci = Some (NDArray [2] img) /\ length img = 2 /\
    load (arrays w') cpt = Some (NDArray [2] tim) /\ length tim = 2 /\
    max_axis1 ex_gain_mask = inr (NDArray [2] sm) /\
    forall p, p < 2 ->
      exists b x,
        sm !! p = Some b /\ img !! p = Some x /\
        get2 (NDArray [2; 2] [10; 10; 5; 5]%Z) (channel b) p = Some x /\
        (get2 (NDArray [2; 2] [10; 10; 5; 5]%Z) 0 p = Some x \/
         get2 (NDArray [2; 2] [10; 10; 5; 5]%Z) 1 p = Some x).
Proof.
  apply (gain_selection_combines_pixelwise threshold_select_gains ex_world
           ex_waveform ex_charges ex_pulse_time "LSTCam" 4%Z
           (NDArray [2; 2; 3] [0; 9; 0; 1; 2; 3; 0; 0; 0; 0; 0; 0]%Z)
           ex_selected ex_gain_mask 2 3
           (NDArray [2; 2] [10; 10; 5; 5]%Z) (NDArray [2; 2] [1; 2; 3; 4]%Z));
    compute_hyp.
Defined.

(** C1 as stated fails on waveforms that do not fit the charges: with
    two-channel charges and pulse times of two pixels, a waveform without
    samples makes the reduction of the gain mask raise [ValueError], and a
    waveform of three pixels with two samples each makes the masked read
    of the charges raise [IndexError]; neither call returns. *)
Lemma gain_selection_fails_on_unfit_waveform :
  load (arrays ex_world) ex_charges = Some (NDArray [2; 2] [10; 10; 5; 5]%Z) /\
  load (arrays ex_world) ex_pulse_time = Some (NDArray [2; 2] [1; 2; 3; 4]%Z) /\
  load (arrays ex_world) ex_no_samples = Some (NDArray [2; 2; 0] []) /\
  load (arrays ex_world) ex_three_pixels
  = Some (NDArray [2; 3; 2] [0; 0; 0; 0; 0; 0; 0; 0; 0; 0; 0; 0]%Z) /\
  gain_selection threshold_select_gains ex_no_samples ex_charges ex_pulse_time
    "LSTCam" 4%Z ex_world
  = Raise ValueError (set_thresholds (insert "LSTCam" 4%Z) ex_world) /\
  gain_selection threshold_select_gains ex_three_pixels ex_charges ex_pulse_time
    "LSTCam" 4%Z ex_world
  = Raise IndexError
      (set_arrays (insert 7%positive [10; 10]%Z)
         (set_thresholds (insert "LSTCam" 4%Z) ex_world)) /\
  ~ (exists r w',
       gain_selection threshold_select_gains ex_no_samples ex_charges ex_pulse_time
         "LSTCam" 4%Z ex_world = Return r w') /\
  ~ (exists r w',
       gain_selection threshold_select_gains ex_three_pixels ex_charges ex_pulse_time
         "LSTCam" 4%Z ex_world = Return r w').
Proof.
  repeat split; try (vm_compute; reflexivity).
  - intros (r & w' & E). vm_compute in E. discriminate E.
  - intros (r & w' & E). vm_compute in E. discriminate E.
Qed.

Lemma gain_selection_low_gain_iff_signal_mask_witness :
  exists ci cpt w' sm,
    gain_selection threshold_select_gains ex_waveform ex_charges ex_pulse_time
      "LSTCam" 4%Z ex_world = Return (ci, cpt) w' /\
    max_axis1 ex_gain_mask = inr (NDArray [2] sm) /\
    forall p, p < 2 ->
      exists b,
        sm !! p = Some b /\
        (b = true <-> exists s, get2 ex_gain_mask p s = Some true) /\
        (channel b = 1 <-> b = true).
Proof.
  destruct (gain_selection_low_gain_iff_signal_mask threshold_select_gains ex_world
              ex_waveform ex_charges ex_pulse_time "LSTCam" 4%Z
              (NDArray [2; 2; 3] [0; 9; 0; 1; 2; 3; 0; 0; 0; 0; 0; 0]%Z)
              ex_selected ex_gain_mask 2 3
              (NDArray [2; 2] [10; 10; 5; 5]%Z) (NDArray [2; 2] [1; 2; 3; 4]%Z))
    as (ci & cpt & w' & img & tim & sm & Hrun & _ & _ & Hmax & Hpix);
    try compute_hyp.
  exists ci, cpt, w', sm. split; [exact Hrun|]. split; [exact Hmax|].
  intros p Hp. destruct (Hpix p Hp) as (b & Hb & _ & _ & Hiff & Hch & _).
  exists b. split; [exact Hb|]. split; [exact Hiff|exact Hch].
Defined.

(** Charges of three channels: the assertion fails. *)
Lemma gain_selection_asserts_two_channels_witness :
  vshape ex_three_channels = 3 :: [2] /\
  gain_selection threshold_select_gains ex_waveform ex_three_channels ex_pulse_time
    "LSTCam" 4%Z ex_world
  = Raise AssertionError ex_world.
Proof.
  split; [reflexivity|].
  apply (gain_selection_asserts_two_channels threshold_select_gains ex_world
           ex_waveform ex_three_channels ex_pulse_time "LSTCam" 4%Z 3 [2]);
    [reflexivity|lia].
Defined.

Lemma gain_selection_records_threshold_witness :
  thresholds
    (final_world
       (gain_selection threshold_select_gains ex_waveform ex_charges ex_pulse_time
          "LSTCam" 4%Z ex_world))
  = <["LSTCam" := 4%Z]> (thresholds ex_world).
Proof.
  apply (gain_selection_records_threshold threshold_select_gains ex_world
           ex_waveform ex_charges ex_pulse_time "LSTCam" 4%Z [2]).
  reflexivity.
Defined.

(** C7 as stated fails on a call whose charges have three channels: the
    assertion stops the call before the table is written, and the table
    has no entry for the camera afterwards. *)
Lemma gain_selection_skips_threshold_on_failed_assertion :
  thresholds ex_world !! "LSTCam" = None /\
  gain_selection threshold_select_gains ex_waveform ex_three_channels ex_pulse_time
    "LSTCam" 4%Z ex_world
  = Raise AssertionError ex_world /\
  thresholds
    (final_world
       (gain_selection threshold_select_gains ex_waveform ex_three_channels
          ex_pulse_time "LSTCam" 4%Z ex_world)) !! "LSTCam"
  = None /\
  thresholds
    (final_world
       (gain_selection threshold_select_gains ex_waveform ex_three_channels
          ex_pulse_time "LSTCam" 4%Z ex_world)) !! "LSTCam"
  <> Some 4%Z.
Proof.
  repeat split; try (vm_compute; reflexivity).
  vm_compute. discriminate.
Qed.

Lemma gain_selection_scenario_witness :
  exists ci cpt w',
    gain_selection threshold_select_gains ex_waveform ex_charges ex_pulse_time
      "LSTCam" 4%Z ex_world = Return (ci, cpt) w' /\
    load (arrays w') ci = Some (NDArray [2] [5; 10]%Z).
Proof.
  apply (gain_selection_scenario threshold_select_gains ex_world
           ex_waveform ex_charges ex_pulse_time "LSTCam" 4%Z
           (NDArray [2; 2; 3] [0; 9; 0; 1; 2; 3; 0; 0; 0; 0; 0; 0]%Z)
           ex_selected ex_gain_mask (NDArray [2; 2] [1; 2; 3; 4]%Z));
    compute_hyp.
Defined.

Lemma gain_selection_same_channel_witness :
  exists ci cpt w' img tim sm,
    gain_selection threshold_select_gains ex_waveform ex_charges ex_pulse_time
      "LSTCam" 4%Z ex_world = Return (ci, cpt) w' /\
    load (arrays w') ci = Some (NDArray [2] img) /\
    load (arrays w') cpt = Some (NDArray [2] tim) /\
    max_axis1 ex_gain_mask = inr (NDArray [2] sm) /\
    forall p, p < 2 ->
      exists b x y,
        sm !! p = Some b /\
        img !! p = Some x /\
        get2 (NDArray [2; 2] [10; 10; 5; 5]%Z) (channel b) p = Some x /\
        tim !! p = Some y /\
        get2 (NDArray [2; 2] [1; 2; 3; 4]%Z) (channel b) p = Some y /\
        (get2 (NDArray [2; 2] [10; 10; 5; 5]%Z) 0 p
         <> get2 (NDArray [2; 2] [10; 10; 5; 5]%Z) 1 p ->
         get2 (NDArray [2; 2] [1; 2; 3; 4]%Z) 0 p
         <> get2 (NDArray [2; 2] [1; 2; 3; 4]%Z) 1 p ->
         forall g g', g < 2 -> g' < 2 ->
           get2 (NDArray [2; 2] [10; 10; 5; 5]%Z) g p = Some x ->
           get2 (NDArray [2; 2] [1; 2; 3; 4]%Z) g' p = Some y ->
           g = channel b /\ g' = channel b).
Proof.
  apply (gain_selection_same_channel threshold_select_gains ex_world
           ex_waveform ex_charges ex_pulse_time "LSTCam" 4%Z
           (NDArray [2; 2; 3] [0; 9; 0; 1; 2; 3; 0; 0; 0; 0; 0; 0]%Z)
           ex_selected ex_gain_mask 2 3
           (NDArray [2; 2] [10; 10; 5; 5]%Z) (NDArray [2; 2] [1; 2; 3; 4]%Z));
    compute_hyp.
Defined.

(** In the worked call both combined arrays read pixel 0 from the low gain
    and pixel 1 from the high gain. *)
Example ex_gain_selection_same_channel :
  match gain_selection threshold_select_gains ex_waveform ex_charges ex_pulse_time
          "LSTCam" 4%Z ex_world with
  | Return (ci, cpt) w' =>
      load (arrays w') ci = Some (NDArray [2] [5; 10]%Z) /\
      load (arrays w') cpt = Some (NDArray [2] [3; 2]%Z)
  | Raise _ _ => False
  end.
Proof. vm_compute. split; reflexivity. Qed.

(** The worked event: the pedestal sums of 30 over three samples take 10
    off every sample, and the stand-in extractor is run on the result. *)
Lemma pedestal_subtracted_per_sample_witness :
  exists corrected,
    pedcorrectedsamples ex_raw ex_pedestal = inr corrected /\
    shape corrected = [2; 2; 3] /\ wf_array corrected /\
    (forall g p s, g < 2 -> p < 2 -> s < 3 ->
       exists x y,
         get3 ex_raw g p s = Some x /\ get2 ex_pedestal g p = Some y /\
         get3 corrected g p s
         = Some (subtract x (true_divide y (of_int (Z.of_nat 3))))) /\
    match window_sum corrected with
    | inl e => lst_calibration window_sum 1%Z ex_raw_world = Raise e ex_raw_world
    | inr (integration, pt) =>
        forall dc_ref factors,
          dc_to_pe (tel_get empty_mc (mc_tel (event ex_raw_world)) 1%Z) = Some dc_ref ->
          load (arrays ex_raw_world) dc_ref = Some factors ->
          wf_array integration ->
          shape factors = shape integration -> wf_array factors ->
          exists w' img tim,
            lst_calibration window_sum 1%Z ex_raw_world = Return tt w' /\
            image (tel_get empty_dl1 (dl1_tel (event w')) 1%Z) = Some img /\
            pulse_time (tel_get empty_dl1 (dl1_tel (event w')) 1%Z) = Some tim /\
            load (arrays w') img
            = Some (NDArray (shape integration)
                      (zip_with multiply (astype_float <$> data integration)
                                (data factors))) /\
            load (arrays w') tim = Some pt
    end.
Proof.
  apply (pedestal_subtracted_per_sample window_sum ex_raw_world 1%Z
           ex_raw_waveform ex_raw_pedestal ex_raw ex_pedestal 2 2 3);
    compute_hyp.
Defined.

(** With an extractor that fails on a waveform whose first sample is 0,
    as that of the corrected waveform is and that of the raw one is not,
    the run fails: the extractor was handed the corrected waveform, not
    the raw one. *)
Example ex_extractor_sees_corrected_waveform :
  let picky := fun wf : ndarray Q =>
    match data wf with
    | x :: _ => if Qeq_bool x 0 then inl ValueError else window_sum wf
    | [] => window_sum wf
    end in
  picky ex_raw = window_sum ex_raw /\
  picky ex_corrected = inl ValueError /\
  lst_calibration picky 1%Z ex_raw_world = Raise ValueError ex_raw_world.
Proof. vm_compute. repeat split; reflexivity. Qed.

(** The pedestal sums of 30 over three samples take 10 off every sample. *)
Example ex_pedcorrectedsamples :
  pedcorrectedsamples ex_raw ex_pedestal = inr ex_corrected.
Proof. vm_compute. reflexivity. Qed.

Lemma lst_calibration_scales_and_stores_witness :
  exists w' img tim,
    lst_calibration window_sum 1%Z ex_raw_world = Return tt w' /\
    image (tel_get empty_dl1 (dl1_tel (event w')) 1%Z) = Some img /\
    pulse_time (tel_get empty_dl1 (dl1_tel (event w')) 1%Z) = Some tim /\
    load (arrays w') img
    = Some (NDArray (shape ex_integration)
              (zip_with multiply (astype_float <$> data ex_integration)
                        (data ex_factors))) /\
    load (arrays w') tim = Some ex_times.
Proof.
  apply (lst_calibration_scales_and_stores window_sum ex_raw_world 1%Z
           (ARef 1%positive (seq 0 12) [2; 2; 3])
           (ARef 2%positive (seq 0 4) [2; 2])
           (ARef 3%positive (seq 0 4) [2; 2])
           ex_raw ex_pedestal ex_factors ex_corrected ex_integration ex_times);
    compute_hyp.
Defined.

(** The calibrated charges of the worked event: 9/2 and 3 photo-electrons
    in the high gain, nothing in the low gain. *)
Example ex_lst_calibration :
  match lst_calibration window_sum 1%Z ex_raw_world with
  | Return _ w' =>
      (r ← image (tel_get empty_dl1 (dl1_tel (event w')) 1%Z); load (arrays w') r)
      = Some (NDArray [2; 2] [9 # 2; 3; 0; 0]%Q)
  | Raise _ _ => False
  end.
Proof. vm_compute. reflexivity. Qed.

Lemma combine_channels_writes_only_dl1_witness :
  exists w',
    combine_channels threshold_select_gains 1%Z 4%Z ex_world = Return tt w' /\
    r0_tel (event w') = r0_tel (event ex_world) /\
    mc_tel (event w') = mc_tel (event ex_world) /\
    inst_subarray_tel (event w') = inst_subarray_tel (event ex_world) /\
    (forall id, id <> 1%Z ->
       dl1_tel (event w') !! id = dl1_tel (event ex_world) !! id) /\
    (forall r a, load (arrays ex_world) r = Some a -> load (arrays w') r = Some a).
Proof.
  eexists. split; [vm_compute; reflexivity|].
  match goal with
  | |- context [event ?w'] =>
      destruct (combine_channels_writes_only_dl1 threshold_select_gains
                  ex_world 1%Z 4%Z tt w') as (_ & H1 & H2 & H3 & H4 & H5 & _)
  end; [vm_compute; reflexivity|].
  repeat split; assumption.
Defined.

(** After the worked combination the slot of telescope 1 holds the
    single-channel image [5, 10] and pulse times [3, 2]. *)
Example ex_combine_channels :
  match combine_channels threshold_select_gains 1%Z 4%Z ex_world with
  | Return _ w' =>
      (r ← image (tel_get empty_dl1 (dl1_tel (event w')) 1%Z); load (arrays w') r)
      = Some (NDArray [2] [5; 10]%Z) /\
      (r ← pulse_time (tel_get empty_dl1 (dl1_tel (event w')) 1%Z); load (arrays w') r)
      = Some (NDArray [2] [3; 2]%Z)
  | Raise _ _ => False
  end.
Proof. vm_compute. split; reflexivity. Qed.

(** * Further properties of gain selection *)

Lemma foldr_orb_all_false (l : list bool) :
  Forall (fun b => b = false) l -> foldr orb false l = false.
Proof. induction 1 as [|b l -> _ IH]; [done|]. exact IH. Qed.

Lemma row_Forall {T} (Q : T -> Prop) n (d : list T) p :
  Forall Q d -> Forall Q (row n d p).
Proof. intros F. unfold row. by apply Forall_take, Forall_drop. Qed.

Section GainSelectionExtras.

Context {A Th : Type}.
Variable select_gains :
  gmap string Th -> string -> ndarray A -> exn + (ndarray A * ndarray bool).
Implicit Types (w : World A Th) (r : aref).

(** When no sample of the gain mask triggered, [gain_selection] returns
    the high-gain channel as it is: the combined charge and pulse time of
    every pixel are [C[0][p]] and [T[0][p]]. *)
Theorem gain_selection_unsaturated_keeps_high_gain
    w wfm c t cam th W W' gm P S Carr Tarr :
  load (arrays w) wfm = Some W ->
  select_gains (<[cam := th]> (thresholds w)) cam W = inr (W', gm) ->
  shape gm = [P; S] -> wf_array gm -> 0 < S ->
  Forall (fun b => b = false) (data gm) ->
  load (arrays w) c = Some Carr -> shape Carr = [2; P] -> wf_array Carr ->
  load (arrays w) t = Some Tarr -> shape Tarr = [2; P] -> wf_array Tarr ->
  exists ci cpt w',
    gain_selection select_gains wfm c t cam th w = Return (ci, cpt) w' /\
    load (arrays w') ci = Some (NDArray [P] (take P (data Carr))) /\
    load (arrays w') cpt = Some (NDArray [P] (take P (data Tarr))).
Proof.
  intros Hw Hsel Hgm Hwf HS Hall Hc HsC HwC Ht HsT HwT.
  destruct (signal_mask_pixels gm P S Hgm Hwf HS) as (sm & Hmax & Hsm & Hred).
  destruct (gain_selection_pixels select_gains w wfm c t cam th W W' gm P sm Carr Tarr)
    as (ci & cpt & w' & img & tim & Hrun & _ & _ & Hi & Li & Hp & Lp & Hpix); try done.
  assert (forall p b, sm !! p = Some b -> b = false) as Hfalse.
  { intros p b Hb. rewrite (reduce_max_orb _ _ (Hred p b Hb)).
    by apply foldr_orb_all_false, row_Forall. }
  destruct Carr as [shC C], Tarr as [shT T]. cbn [shape data] in *. subst shC shT.
  unfold wf_array in HwC, HwT. cbn in HwC, HwT.
  exists ci, cpt, w'. split; [done|].
  assert (img = take P C /\ tim = take P T) as [-> ->]; [|done].
  split; apply list_eq; intros p.
  - destruct (decide (p < P)) as [Hlt|Hge].
    + destruct (lookup_lt_is_Some_2 sm p) as [b Hb]; [lia|].
      destruct (Hpix p b Hb) as (x & y & Hx & Hcx & _).
      rewrite (Hfalse p b Hb) in Hcx. rewrite Hx, <- Hcx.
      rewrite (get2_channel C P p false) by lia. done.
    + rewrite !lookup_ge_None_2; [done|rewrite length_take|]; lia.
  - destruct (decide (p < P)) as [Hlt|Hge].
    + destruct (lookup_lt_is_Some_2 sm p) as [b Hb]; [lia|].
      destruct (Hpix p b Hb) as (x & y & _ & _ & Hy & Hcy).
      rewrite (Hfalse p b Hb) in Hcy. rewrite Hy, <- Hcy.
      rewrite (get2_channel T P p false) by lia. done.
    + rewrite !lookup_ge_None_2; [done|rewrite length_take|]; lia.
Qed.

(** When every sample of the gain mask triggered, [gain_selection] returns
    the low-gain channel: the combined charge and pulse time of every pixel
    are [C[1][p]] and [T[1][p]]. *)
Theorem gain_selection_saturated_takes_low_gain
    w wfm c t cam th W W' gm P S Carr Tarr :
  load (arrays w) wfm = Some W ->
  select_gains (<[cam := th]> (thresholds w)) cam W = inr (W', gm) ->
  shape gm = [P; S] -> wf_array gm -> 0 < S ->
  Forall (fun b => b = true) (data gm) ->
  load (arrays w) c = Some Carr -> shape Carr = [2; P] -> wf_array Carr ->
  load (arrays w) t = Some Tarr -> shape Tarr = [2; P] -> wf_array Tarr ->
  exists ci cpt w',
    gain_selection select_gains wfm c t cam th w = Return (ci, cpt) w' /\
    load (arrays w') ci = Some (NDArray [P] (drop P (data Carr))) /\
    load (arrays w') cpt = Some (NDArray [P] (drop P (data Tarr))).
Proof.
  intros Hw Hsel Hgm Hwf HS Hall Hc HsC HwC Ht HsT HwT.
  destruct (signal_mask_pixels gm P S Hgm Hwf HS) as (sm & Hmax & Hsm & Hred).
  destruct (gain_selection_pixels select_gains w wfm c t cam th W W' gm P sm Carr Tarr)
    as (ci & cpt & w' & img & tim & Hrun & _ & _ & Hi & Li & Hp & Lp & Hpix); try done.
  assert (forall p b, sm !! p = Some b -> b = true) as Htrue.
  { intros p b Hb. pose proof (Hred p b Hb) as Hr.
    assert (p < P) as Hlt by (rewrite <- Hsm; by eapply lookup_lt_Some).
    apply (reduce_max_true _ _ Hr), row_elem_of. exists 0. split; [done|].
    destruct gm as [shg bits]. cbn [shape data] in *. subst shg.
    unfold wf_array in Hwf. cbn in Hwf.
    destruct (lookup_lt_is_Some_2 bits (p * S + 0)) as [b0 Hb0]; [nia|].
    rewrite Hb0. f_equal. by apply (Forall_lookup_1 _ _ _ _ Hall Hb0). }
  destruct Carr as [shC C], Tarr as [shT T]. cbn [shape data] in *. subst shC shT.
  unfold wf_array in HwC, HwT. cbn in HwC, HwT.
  exists ci, cpt, w'. split; [done|].
  assert (img = drop P C /\ tim = drop P T) as [-> ->]; [|done].
  split; apply list_eq; intros p.
  - destruct (decide (p < P)) as [Hlt|Hge].
    + destruct (lookup_lt_is_Some_2 sm p) as [b Hb]; [lia|].
      destruct (Hpix p b Hb) as (x & y & Hx & Hcx & _).
      rewrite (Htrue p b Hb) in Hcx. rewrite Hx, <- Hcx.
      rewrite (get2_channel C P p true) by lia. done.
    + rewrite !lookup_ge_None_2; [done|rewrite length_drop|]; lia.
  - destruct (decide (p < P)) as [Hlt|Hge].
    + destruct (lookup_lt_is_Some_2 sm p) as [b Hb]; [lia|].
      destruct (Hpix p b Hb) as (x & y & _ & _ & Hy & Hcy).
      rewrite (Htrue p b Hb) in Hcy. rewrite Hy, <- Hcy.
      rewrite (get2_channel T P p true) by lia. done.
    + rewrite !lookup_ge_None_2; [done|rewrite length_drop|]; lia.
Qed.

End GainSelectionExtras.

(** The signal mask has an axis at least: it cannot index a scalar. *)
Lemma max_axis1_shape (m sm : ndarray bool) :
  max_axis1 m = inr sm -> exists d rest, shape sm = d :: rest.
Proof.
  unfold max_axis1. destruct (shape m) as [|d0 [|d1 rest]]; [done..|].
  destruct (d1 =? 0); [done|]. destruct (mapM _ _); [|done].
  intros [= <-]. by eexists _, _.
Qed.

Section GainSelectionErrors.

Context {A Th : Type}.
Variable select_gains :
  gmap string Th -> string -> ndarray A -> exn + (ndarray A * ndarray bool).
Implicit Types (w : World A Th) (r : aref).

(** The first two statements past the assertion: the table is written,
    then the selector is asked. *)
Lemma gain_selection_until_mask {X} wfm cam (th : Th) w W
    (k : ndarray A * ndarray bool -> M A Th X) :
  load (arrays w) wfm = Some W ->
  (modify (set_thresholds (insert cam th));;
   x ← call_select_gains select_gains cam wfm; k x) w
  = match select_gains (<[cam := th]> (thresholds w)) cam W with
    | inl e => Raise e (set_thresholds (insert cam th) w)
    | inr x => k x (set_thresholds (insert cam th) w)
    end.
Proof.
  intros Hw.
  etrans; [apply bind_Return; reflexivity|]. cbv beta.
  unfold call_select_gains.
  destruct (select_gains (<[cam := th]> (thresholds w)) cam W) as [e|x] eqn:E.
  - apply bind_Raise.
    etrans; [apply bind_Return, read_run; exact Hw|]. cbv beta.
    etrans; [apply bind_Return; reflexivity|]. cbv beta.
    cbn [thresholds set_thresholds]. by rewrite E.
  - apply bind_Return.
    etrans; [apply bind_Return, read_run; exact Hw|]. cbv beta.
    etrans; [apply bind_Return; reflexivity|]. cbv beta.
    cbn [thresholds set_thresholds]. by rewrite E.
Qed.

(** An exception of the gain selector leaves [gain_selection] as it is
    raised, after the threshold was recorded and before anything else was
    done. *)
Theorem gain_selection_selector_error_propagates w wfm c t cam th W crest e :
  vshape c = 2 :: crest ->
  load (arrays w) wfm = Some W ->
  select_gains (<[cam := th]> (thresholds w)) cam W = inl e ->
  gain_selection select_gains wfm c t cam th w
  = Raise e (set_thresholds (insert cam th) w).
Proof.
  intros Hs Hw Hsel. rewrite (gain_selection_assert_passes _ _ _ _ _ _ _ _ Hs).
  unfold gain_selection_body.
  rewrite (gain_selection_until_mask _ _ _ _ W _ Hw). by rewrite Hsel.
Qed.

(** A gain mask whose sample axis is empty makes [gain_selection] raise
    [ValueError] in the reduction over the samples, whatever the number of
    pixels: the threshold is recorded and nothing is combined. *)
Theorem gain_selection_without_samples_raises
    w wfm c t cam th W W' gm crest d0 rest :
  vshape c = 2 :: crest ->
  load (arrays w) wfm = Some W ->
  select_gains (<[cam := th]> (thresholds w)) cam W = inr (W', gm) ->
  shape gm = d0 :: 0 :: rest ->
  gain_selection select_gains wfm c t cam th w
  = Raise ValueError (set_thresholds (insert cam th) w).
Proof.
  intros Hs Hw Hsel Hgm. rewrite (gain_selection_assert_passes _ _ _ _ _ _ _ _ Hs).
  unfold gain_selection_body.
  rewrite (gain_selection_until_mask _ _ _ _ W _ Hw). rewrite Hsel.
  unfold max_axis1. rewrite Hgm. cbn [Nat.eqb lift].
  apply bind_Raise. reflexivity.
Qed.


(** On charges of a single axis every run of [gain_selection] raises. *)
Lemma gain_selection_single_axis_raises w wfm c t cam th P :
  vshape c = [P] ->
  exists e w',
    gain_selection select_gains wfm c t cam th w = Raise e w' /\
    (P <> 2 -> e = AssertionError /\ w' = w).
Proof.
  intros Hs. destruct (decide (P = 2)) as [->|Hne].
  2:{ exists AssertionError, w. split; [|done].
      unfold gain_selection, shape_at. rewrite Hs. cbn [lookup list_lookup lift].
      etrans; [apply bind_Return; reflexivity|]. cbv beta.
      apply bind_Raise. unfold assert_.
      destruct (Nat.eqb_spec P 2) as [|_]; [done|]. reflexivity. }
  rewrite (gain_selection_assert_passes _ _ _ _ _ _ _ _ Hs).
  assert (forall X (o : outcome A Th X),
            (forall x w', o <> Return x w') -> exists e w', o = Raise e w') as Hraise.
  { intros X [x w'|e w'] H; [by destruct (H x w')|by eexists _, _]. }
  destruct (Hraise _ (gain_selection_body select_gains wfm c t cam th w))
    as (e & w' & E); [|exists e, w'; split; [done|lia]].
  intros [ci cpt] w'. unfold gain_selection_body, mbind, M_bind, bind.
  cbn [modify].
  destruct (call_select_gains _ _ _ _) as [[W' gm] w1|]; [|done].
  destruct (max_axis1 gm) as [|sm] eqn:Emax; cbn [lift raise ret]; [done|].
  destruct (max_axis1_shape _ _ Emax) as (d & rest & Hsm).
  unfold getitem. rewrite Hs. cbn [Nat.ltb Nat.leb lift ret numel foldr].
  destruct (copy _ w1) as [ci' w2|]; [|done].
  unfold mask_getitem, mbind, M_bind, bind, read.
  destruct (load (arrays w2) _) as [a|] eqn:El; [|done].
  apply load_shape in El. cbn [vshape] in El.
  unfold compress, mask_axes. rewrite El, Hsm. cbn [length take].
  destruct (decide _) as [Heq|_]; [done|]. done.
Qed.

(** Charges of a single axis, such as an image that was combined already,
    never get through [gain_selection]: with another extent than 2 the
    assertion fails and the world is untouched, and with extent 2 the call
    raises further on, since a channel of such charges is a scalar that no
    signal mask can index. *)
Theorem gain_selection_rejects_combined_charges w wfm c t cam th P :
  vshape c = [P] ->
  exists e w',
    gain_selection select_gains wfm c t cam th w = Raise e w' /\
    (P <> 2 -> e = AssertionError /\ w' = w).
Proof. apply gain_selection_single_axis_raises. Qed.

(** The threshold that a call passes is the one its selector sees: two
    worlds that differ only in what the table holds for this camera give
    the same outcome, so the entry the table had before has no influence
    on the call. *)
Theorem gain_selection_ignores_stale_threshold w wfm c t cam th crest old :
  vshape c = 2 :: crest ->
  gain_selection select_gains wfm c t cam th (set_thresholds (insert cam old) w)
  = gain_selection select_gains wfm c t cam th w.
Proof.
  intros Hs. rewrite !(gain_selection_assert_passes _ _ _ _ _ _ _ _ Hs).
  unfold gain_selection_body.
  etrans; [apply bind_Return; reflexivity|]. symmetry.
  etrans; [apply bind_Return; reflexivity|]. cbv beta.
  f_equal. unfold set_thresholds. cbn. by rewrite insert_insert_eq.
Qed.

End GainSelectionErrors.

Section GainSelectionResults.

Context {A Th : Type}.
Variable select_gains :
  gmap string Th -> string -> ndarray A -> exn + (ndarray A * ndarray bool).
Implicit Types (w : World A Th) (r : aref).

(** What a returning masked assignment does to the store: it rewrites the
    buffer of its target, which exists. *)
Lemma mask_setitem_Return r m v w u w' :
  mask_setitem (A := A) (Th := Th) r m v w = Return u w' ->
  exists b, arrays w' = <[buf r := b]> (arrays w) /\
            thresholds w' = thresholds w /\ event w' = event w.
Proof.
  unfold mask_setitem. destruct (mask_axes _ _); [|done].
  destruct (decide _); [|done]. destruct (broadcast_to _ _); [|done].
  unfold write. destruct (arrays w !! buf r); [|done].
  intros [= <- <-]. by eexists.
Qed.

(** What a returning copy does: a new buffer, and a reference of the
    shape of the original. *)
Lemma copy_Return r w r' w' :
  copy (A := A) (Th := Th) r w = Return r' w' ->
  buf r' = fresh (dom (arrays w)) /\ vshape r' = vshape r /\
  exists d, w' = set_arrays (insert (buf r') d) w.
Proof.
  unfold copy, mbind, M_bind, bind, read.
  destruct (load (arrays w) r) as [a|] eqn:E; [|done].
  unfold alloc. intros [= <- <-]. cbn [buf vshape].
  split; [done|]. split; [by eapply load_shape|]. by eexists.
Qed.

(** A returning [gain_selection]: the two results are one axis shorter
    than the charges and pulse times, and sit in two different buffers. *)
Lemma gain_selection_Return wfm c t cam th w ci cpt w' :
  gain_selection select_gains wfm c t cam th w = Return (ci, cpt) w' ->
  vshape c = 2 :: vshape ci /\
  (exists d, vshape t = d :: vshape cpt) /\
  buf ci <> buf cpt.
Proof.
  unfold gain_selection, mbind, M_bind, bind.
  destruct (shape_at c 0) as [|d0] eqn:Ed0; cbn [lift raise ret]; [done|].
  unfold assert_. destruct (Nat.eqb_spec d0 2) as [->|]; cbn [raise ret]; [|done].
  unfold gain_selection_body, mbind, M_bind, bind. cbn [modify].
  destruct (call_select_gains _ _ _ _) as [[W' gm] w1|]; [|done].
  destruct (max_axis1 gm) as [|sm]; cbn [lift raise ret]; [done|].
  unfold shape_at in Ed0.
  destruct (getitem c 0) as [|high] eqn:Eh; cbn [lift raise ret]; [done|].
  destruct (copy high w1) as [ci' w2|] eqn:Ec; [|done].
  destruct (getitem c 1) as [|low]; cbn [lift raise ret]; [done|].
  destruct (mask_getitem low sm w2) as [vals w3|] eqn:Eg; [|done].
  pose proof (unchanged_mask_getitem low sm w2) as Hu. rewrite Eg in Hu.
  cbn in Hu. subst w3.
  destruct (mask_setitem ci' sm vals w2) as [u w4|] eqn:Es; [|done].
  destruct (getitem t 0) as [|high_t] eqn:Eht; cbn [lift raise ret]; [done|].
  destruct (copy high_t w4) as [cpt' w5|] eqn:Ect; [|done].
  destruct (getitem t 1) as [|low_t]; cbn [lift raise ret]; [done|].
  destruct (mask_getitem low_t sm w5) as [vals_t w6|]; [|done].
  destruct (mask_setitem cpt' sm vals_t w6) as [u' w7|]; [|done].
  intros [= <- <- <-].
  destruct (copy_Return _ _ _ _ Ec) as (Hb & Hv & d & ->).
  destruct (copy_Return _ _ _ _ Ect) as (Hbt & Hvt & _).
  destruct (mask_setitem_Return _ _ _ _ _ _ Es) as (b & Ha & _).
  unfold getitem in Eh, Eht.
  destruct (vshape c) as [|dc rest]; [done|]. cbn in Ed0. simplify_eq.
  destruct (2 <? 2) eqn:E2; [done|]. clear E2.
  destruct (0 <? 2); [|done]. simplify_eq. cbn [vshape] in Hv.
  destruct (vshape t) as [|dt rest_t]; [done|].
  destruct (0 <? dt); [|done]. simplify_eq. cbn [vshape] in Hvt.
  split; [done|]. split; [exists dt; by rewrite Hvt|].
  rewrite Hbt, Ha. intros Heq.
  pose proof (is_fresh (dom (<[buf ci' := b]> (arrays (set_arrays (insert (buf ci') d) w1)))))
    as Hf.
  rewrite <- Heq in Hf. apply Hf, elem_of_dom. rewrite lookup_insert_eq. by eexists.
Qed.

(** The table after a call that passed its assertion. *)
Lemma gain_selection_final_thresholds wfm c t cam th w crest :
  vshape c = 2 :: crest ->
  thresholds (final_world (gain_selection select_gains wfm c t cam th w))
  = <[cam := th]> (thresholds w).
Proof.
  intros Hs. rewrite (gain_selection_assert_passes _ _ _ _ _ _ _ _ Hs).
  pose proof (gain_selection_body_frame select_gains wfm c t cam th w) as H.
  destruct (gain_selection_body _ _ _ _ _ _ w) as [[ci cpt] w'|e w'];
    cbn [final_world].
  - by destruct H as ((Hth & _) & _).
  - by destruct H as (Hth & _).
Qed.

(** The two arrays that [gain_selection] returns never share a buffer:
    writing to the combined image afterwards cannot change the combined
    pulse times. *)
Theorem gain_selection_results_do_not_alias wfm c t cam th w ci cpt w' :
  gain_selection select_gains wfm c t cam th w = Return (ci, cpt) w' ->
  buf ci <> buf cpt.
Proof. intros H. by destruct (gain_selection_Return _ _ _ _ _ _ _ _ _ H) as (_ & _ & ?). Qed.

(** A returning [gain_selection] drops the leading axis: the combined
    image has the shape of one channel of the charges, and the combined
    pulse times that of one channel of the pulse times. *)
Theorem gain_selection_drops_gain_axis wfm c t cam th w ci cpt w' :
  gain_selection select_gains wfm c t cam th w = Return (ci, cpt) w' ->
  vshape c = 2 :: vshape ci /\ exists d, vshape t = d :: vshape cpt.
Proof. intros H. by destruct (gain_selection_Return _ _ _ _ _ _ _ _ _ H) as (? & ? & _). Qed.

(** Over two calls that pass their assertions the table accumulates: it
    ends with the threshold of the second call at its camera and, for
    another camera, the threshold of the first call at its own; for the
    same camera only the second threshold is left. *)
Theorem gain_selection_thresholds_accumulate
    w wfm1 c1 t1 cam1 th1 rest1 wfm2 c2 t2 cam2 th2 rest2 :
  vshape c1 = 2 :: rest1 -> vshape c2 = 2 :: rest2 ->
  thresholds
    (final_world
       (gain_selection select_gains wfm2 c2 t2 cam2 th2
          (final_world (gain_selection select_gains wfm1 c1 t1 cam1 th1 w))))
  = <[cam2 := th2]> (<[cam1 := th1]> (thresholds w)).
Proof.
  intros H1 H2.
  rewrite (gain_selection_final_thresholds _ _ _ _ _ _ _ H2).
  by rewrite (gain_selection_final_thresholds _ _ _ _ _ _ _ H1).
Qed.

End GainSelectionResults.

(** * Further properties of channel combination *)

Section CombineExtras.

Context {A Th : Type}.
Variable select_gains :
  gmap string Th -> string -> ndarray A -> exn + (ndarray A * ndarray bool).
Implicit Types (w : World A Th) (r : aref).

(** On an event that holds the waveform and the two-channel charges and
    pulse times of [P] pixels of a telescope, [combine_channels] returns
    and leaves in the slot of that telescope two arrays of [P] pixels:
    the charge and the pulse time of every pixel are those of the channel
    that the signal mask names. *)
Theorem combine_channels_combines_slot
    w tel_id th tdesc wfm c t W W' gm P S Carr Tarr :
  inst_subarray_tel (event w) !! tel_id = Some tdesc ->
  waveform (tel_get empty_r0 (r0_tel (event w)) tel_id) = Some wfm ->
  image (tel_get empty_dl1 (dl1_tel (event w)) tel_id) = Some c ->
  pulse_time (tel_get empty_dl1 (dl1_tel (event w)) tel_id) = Some t ->
  load (arrays w) wfm = Some W ->
  select_gains (<[cam_id (camera tdesc) := th]> (thresholds w))
    (cam_id (camera tdesc)) W = inr (W', gm) ->
  shape gm = [P; S] -> wf_array gm -> 0 < S ->
  load (arrays w) c = Some Carr -> shape Carr = [2; P] -> wf_array Carr ->
  load (arrays w) t = Some Tarr -> shape Tarr = [2; P] -> wf_array Tarr ->
  exists w' ci cpt img tim sm,
    combine_channels select_gains tel_id th w = Return tt w' /\
    image (tel_get empty_dl1 (dl1_tel (event w')) tel_id) = Some ci /\
    pulse_time (tel_get empty_dl1 (dl1_tel (event w')) tel_id) = Some cpt /\
    load (arrays w') ci = Some (NDArray [P] img) /\
    load (arrays w') cpt = Some (NDArray [P] tim) /\
    max_axis1 gm = inr (NDArray [P] sm) /\
    forall p, p < P ->
      exists b x y,
        sm !! p = Some b /\
        img !! p = Some x /\ get2 Carr (channel b) p = Some x /\
        tim !! p = Some y /\ get2 Tarr (channel b) p = Some y.
Proof.
  intros Htel Hwf Hic Hit Hw Hsel Hgm Hwg HS Hc HsC HwC Ht HsT HwT.
  destruct (signal_mask_pixels gm P S Hgm Hwg HS) as (sm & Hmax & Hsm & _).
  destruct (gain_selection_pixels select_gains w wfm c t (cam_id (camera tdesc)) th
              W W' gm P sm Carr Tarr)
    as (ci & cpt & w1 & img & tim & Hrun & _ & _ & Hi & _ & Hp & _ & Hpix); try done.
  eexists _, ci, cpt, img, tim, sm. split.
  { rewrite (combine_channels_run select_gains _ _ _ _ _ _ _ Htel Hwf Hic Hit), Hrun. reflexivity. }
  cbn [event set_event set_dl1_tel dl1_tel arrays].
  unfold tel_get. rewrite lookup_insert_eq. cbn.
  repeat (split; [done|]). intros p Hlt.
  destruct (lookup_lt_is_Some_2 sm p) as [b Hb]; [lia|].
  destruct (Hpix p b Hb) as (x & y & ?). by exists b, x, y.
Qed.

(** A run of [combine_channels] that raises replaces nothing: the slot of
    every telescope reads as before, and so does every array. *)
Theorem combine_channels_failure_keeps_slots w tel_id th e w' :
  combine_channels select_gains tel_id th w = Raise e w' ->
  (forall id, tel_get empty_dl1 (dl1_tel (event w')) id
              = tel_get empty_dl1 (dl1_tel (event w)) id) /\
  (forall r a, load (arrays w) r = Some a -> load (arrays w') r = Some a).
Proof.
  intros Hrun.
  destruct (inst_subarray_tel (event w) !! tel_id) as [tdesc|] eqn:Htel.
  2:{ unfold combine_channels, mbind, M_bind, bind in Hrun. cbn [gets] in Hrun.
      rewrite Htel in Hrun. by injection Hrun as _ <-. }
  destruct (combine_channels_steps select_gains w tel_id th tdesc Htel)
    as (w0 & Harr0 & _ & Hdl1 & _ & Hsteps).
  rewrite Hsteps in Hrun.
  pose proof (gain_selection_values_frame select_gains
                (waveform (tel_get empty_r0 (r0_tel (event w)) tel_id))
                (image (tel_get empty_dl1 (dl1_tel (event w)) tel_id))
                (pulse_time (tel_get empty_dl1 (dl1_tel (event w)) tel_id))
                (cam_id (camera tdesc)) th w0) as Hframe.
  destruct (gain_selection_values _ _ _ _ _ _ w0) as [[ci cpt] w1|e1 w1]; [done|].
  injection Hrun as _ <-. destruct Hframe as (Hev & Harr).
  rewrite Hev. split; [done|].
  intros r a. apply load_kept. rewrite <- Harr0. exact Harr.
Qed.

(** [combine_channels] cannot be run twice on a telescope: once it has
    replaced two-channel charges of [P] pixels by the combined image, a
    second call raises, whatever the threshold. *)
Theorem combine_channels_twice_raises w tel_id th th' c P w1 :
  image (tel_get empty_dl1 (dl1_tel (event w)) tel_id) = Some c ->
  vshape c = [2; P] ->
  combine_channels select_gains tel_id th w = Return tt w1 ->
  exists e w2, combine_channels select_gains tel_id th' w1 = Raise e w2.
Proof.
  intros Hc Hs Hrun.
  destruct (combine_channels_Return select_gains _ _ _ _ _ Hrun)
    as (tdesc & wfm & c' & t & ci & cpt & w0 & Htel & Hw & Hc' & Ht & Egs & ->).
  rewrite Hc in Hc'. injection Hc' as <-.
  destruct (gain_selection_Return _ _ _ _ _ _ _ _ _ _ Egs) as (Hsh & _ & _).
  rewrite Hs in Hsh. injection Hsh as Hci.
  pose proof (gain_selection_frame select_gains wfm c t (cam_id (camera tdesc)) th w)
    as Hframe.
  rewrite Egs in Hframe. destruct Hframe as (Hev & _).
  set (w1 := set_event _ w0).
  assert (event w1 = set_dl1_tel
            (insert tel_id {| image := Some ci; pulse_time := Some cpt |}) (event w))
    as Hev1 by (unfold w1; cbn; by rewrite Hev).
  rewrite (combine_channels_run select_gains w1 tel_id th' tdesc wfm ci cpt).
  - destruct (gain_selection_single_axis_raises select_gains w1 wfm ci cpt
                (cam_id (camera tdesc)) th' P) as (e & w2 & E & _); [done|].
    rewrite E. by eexists _, _.
  - by rewrite Hev1.
  - by rewrite Hev1.
  - rewrite Hev1. cbn. unfold tel_get. by rewrite lookup_insert_eq.
  - rewrite Hev1. cbn. unfold tel_get. by rewrite lookup_insert_eq.
Qed.

End CombineExtras.

(** * Further properties of calibration *)

Section CalibrationExtras.

Context {A Th : Type} `{Dtype A}.
Variable LocalPeakWindowSum : ndarray A -> exn + (ndarray A * ndarray A).
Implicit Types (w : World A Th) (r : aref).

(** A waveform of fewer than three axes has no number of samples:
    [lst_calibration] raises [IndexError] at [data.shape[2]].  By then it
    has looked the telescope up in [r0.tel], which holds it, and in
    [mc.tel]: when [mc.tel] holds the telescope nothing has changed, and
    when it does not, the lookup has stored an empty container there and
    nothing else has changed. *)
Theorem lst_calibration_needs_three_axes w tel raw_ref :
  waveform (tel_get empty_r0 (r0_tel (event w)) tel) = Some raw_ref ->
  vshape raw_ref !! 2 = None ->
  lst_calibration LocalPeakWindowSum tel w
  = Raise IndexError
      (match mc_tel (event w) !! tel with
       | Some _ => w
       | None => set_event (set_mc_tel (insert tel empty_mc)) w
       end).
Proof.
  intros Hraw Hn.
  pose proof (waveform_present _ _ _ Hraw) as Pr0.
  unfold lst_calibration.
  etrans; [apply bind_Return, r0_tel_getitem_present, Pr0|]. cbv beta zeta.
  etrans; [apply bind_Return, mc_tel_getitem_run|]. cbv beta zeta.
  rewrite Hraw. cbn [lift_opt].
  etrans; [apply bind_Return; reflexivity|]. cbv beta.
  apply bind_Raise. unfold shape_at. by rewrite Hn.
Qed.

(** A pedestal array whose number of pixels is not that of the waveform
    (and neither of them is 1, which broadcasting would stretch) makes the
    subtraction, and [lst_calibration] with it, raise [ValueError]; nothing
    has changed. *)
Theorem lst_calibration_pedestal_mismatch_raises
    w tel raw_ref ped_ref raw ped G P N G' P' :
  waveform (tel_get empty_r0 (r0_tel (event w)) tel) = Some raw_ref ->
  pedestal (tel_get empty_mc (mc_tel (event w)) tel) = Some ped_ref ->
  load (arrays w) raw_ref = Some raw -> shape raw = [G; P; N] ->
  load (arrays w) ped_ref = Some ped -> shape ped = [G'; P'] ->
  P <> P' -> P <> 1 -> P' <> 1 ->
  pedcorrectedsamples raw ped = inl ValueError /\
  lst_calibration LocalPeakWindowSum tel w = Raise ValueError w.
Proof.
  intros Hraw Hped Lraw Hsr Lped Hsp H1 H2 H3.
  assert (pedcorrectedsamples raw ped = inl ValueError) as E.
  { unfold pedcorrectedsamples, elementwise, atleast_3d, map_array.
    rewrite Hsr, Hsp. cbn [lookup list_lookup shape].
    unfold broadcast_shapes. cbn [reverse rev_append].
    change (broadcast_rev [N; P; G] [1; P'; G']) with
      (match broadcast_rev [P; G] [P'; G'] with
       | None => None
       | Some r =>
           if N =? 1 then Some (N :: r)
           else if N =? 1 then Some (1 :: r)
           else if 1 =? 1 then Some (N :: r) else None
       end).
    by rewrite broadcast_rev_pixel_mismatch. }
  split; [done|].
  rewrite (lst_calibration_run LocalPeakWindowSum w tel raw_ref ped_ref raw ped N);
    try done.
  - by rewrite E.
  - by rewrite <- (load_shape _ _ _ Lraw), Hsr.
Qed.

(** An exception of the extractor leaves [lst_calibration] as it is
    raised, and nothing has changed. *)
Theorem lst_calibration_extractor_error_propagates
    w tel raw_ref ped_ref raw ped corrected e :
  waveform (tel_get empty_r0 (r0_tel (event w)) tel) = Some raw_ref ->
  pedestal (tel_get empty_mc (mc_tel (event w)) tel) = Some ped_ref ->
  load (arrays w) raw_ref = Some raw ->
  load (arrays w) ped_ref = Some ped ->
  pedcorrectedsamples raw ped = inr corrected ->
  LocalPeakWindowSum corrected = inl e ->
  lst_calibration LocalPeakWindowSum tel w = Raise e w.
Proof.
  intros Hraw Hped Lraw Lped Hcorr Hext.
  assert (exists n, vshape raw_ref !! 2 = Some n) as [n Hn].
  { rewrite <- (load_shape _ _ _ Lraw). unfold pedcorrectedsamples in Hcorr.
    destruct (shape raw !! 2) as [n|]; [by exists n|done]. }
  rewrite (lst_calibration_run LocalPeakWindowSum w tel raw_ref ped_ref raw ped n);
    try done.
  by rewrite Hcorr, Hext.
Qed.

(** Conversion factors that cannot be broadcast to the shape of the charge
    make [lst_calibration] raise [ValueError] when it scales the charge:
    the event is not touched, so the slot of the telescope keeps what it
    held, and the arrays that existed read as before. *)
Theorem lst_calibration_factor_mismatch_raises
    w tel raw_ref ped_ref dc_ref raw ped factors corrected integration pt :
  waveform (tel_get empty_r0 (r0_tel (event w)) tel) = Some raw_ref ->
  pedestal (tel_get empty_mc (mc_tel (event w)) tel) = Some ped_ref ->
  dc_to_pe (tel_get empty_mc (mc_tel (event w)) tel) = Some dc_ref ->
  load (arrays w) raw_ref = Some raw ->
  load (arrays w) ped_ref = Some ped ->
  load (arrays w) dc_ref = Some factors ->
  pedcorrectedsamples raw ped = inr corrected ->
  LocalPeakWindowSum corrected = inr (integration, pt) ->
  broadcast_shapes (shape integration) (shape factors) <> Some (shape integration) ->
  exists w',
    lst_calibration LocalPeakWindowSum tel w = Raise ValueError w' /\
    event w' = event w /\
    (forall r a, load (arrays w) r = Some a -> load (arrays w') r = Some a).
Proof.
  intros Hraw Hped Hdc Lraw Lped Ldc Hcorr Hext Hbad.
  assert (exists n, vshape raw_ref !! 2 = Some n) as [n Hn].
  { rewrite <- (load_shape _ _ _ Lraw). unfold pedcorrectedsamples in Hcorr.
    destruct (shape raw !! 2) as [n|]; [by exists n|done]. }
  exists (after_extraction w integration pt). split.
  - rewrite (lst_calibration_run LocalPeakWindowSum w tel raw_ref ped_ref raw ped n);
    try done.
    rewrite Hcorr, Hext, Hdc.
    assert (imul (signals_ref w integration pt) dc_ref (after_extraction w integration pt)
            = Raise ValueError (after_extraction w integration pt)) as ->; [|done].
    unfold imul.
    etrans.
    { apply bind_Return, read_run.
      unfold signals_ref. apply load_contiguous, after_extraction_signals. }
    cbv beta.
    etrans.
    { apply bind_Return, read_run.
      apply (load_kept (arrays w)); [|exact Ldc].
      intros l. apply after_extraction_kept. }
    cbv beta. cbn [shape]. destruct (decide _) as [Heq|_]; [done|]. reflexivity.
  - split; [done|]. intros r a. apply load_kept. intros l.
    apply after_extraction_kept.
Qed.

(** [lst_calibration] never writes to an array that existed when it was
    called, the raw waveform, the pedestals and the conversion factors
    among them (the scaling in place goes to a new array), and never
    touches the threshold table.  A run that returns has changed the event
    at the slot of its telescope only; a run that raises has changed no
    slot at all. *)
Theorem lst_calibration_keeps_its_inputs w tel :
  match lst_calibration LocalPeakWindowSum tel w with
  | Return _ w' =>
      thresholds w' = thresholds w /\
      (forall r a, load (arrays w) r = Some a -> load (arrays w') r = Some a) /\
      r0_tel (event w') = r0_tel (event w) /\
      mc_tel (event w') = mc_tel (event w) /\
      inst_subarray_tel (event w') = inst_subarray_tel (event w) /\
      (forall id, id <> tel -> dl1_tel (event w') !! id = dl1_tel (event w) !! id)
  | Raise _ w' =>
      thresholds w' = thresholds w /\
      (forall r a, load (arrays w) r = Some a -> load (arrays w') r = Some a) /\
      (forall id, tel_get empty_dl1 (dl1_tel (event w')) id
                  = tel_get empty_dl1 (dl1_tel (event w)) id)
  end.
Proof.
  unfold lst_calibration.
  rewrite (bind_Return _ _ _ _ _ (r0_tel_getitem_run w tel)). cbv beta zeta.
  destruct (r0_tel (event w) !! tel) as [c0|] eqn:E0.
  2:{ (* no raw data: the lookups store empty containers, then [None.shape] *)
      unfold tel_get. rewrite E0. cbn [default from_option empty_r0 waveform lift_opt].
      rewrite (bind_Return _ _ _ _ _ (mc_tel_getitem_run _ tel)). cbv beta.
      rewrite (bind_Raise _ _ _ NoneError _ eq_refl).
      cbn [event set_event set_r0_tel mc_tel].
      by case_match. }
  rewrite (bind_Return _ _ _ _ _ (mc_tel_getitem_run w tel)). cbv beta zeta.
  destruct (mc_tel (event w) !! tel) as [c1|] eqn:E1.
  2:{ (* no pedestals: the run stops at the division at the latest *)
      set (w0 := set_event (set_mc_tel (insert tel empty_mc)) w).
      unfold tel_get. rewrite E0, E1.
      cbn [default from_option empty_mc pedestal].
      unfold mbind, M_bind, bind.
      destruct (waveform _) as [raw_ref|]; cbn [lift_opt ret raise]; [|done].
      destruct (shape_at raw_ref 2) as [|n]; cbn [lift ret raise]; [done|].
      unfold read. cbn [arrays w0 set_event].
      by destruct (load (arrays w) raw_ref) as [raw|]. }
  unfold mbind, M_bind, bind.
  destruct (waveform _) as [raw_ref|]; cbn [lift_opt ret raise]; [|done].
  destruct (shape_at raw_ref 2) as [|n]; cbn [lift ret raise]; [done|].
  unfold read. destruct (load (arrays w) raw_ref) as [raw|]; [|done].
  destruct (pedestal _) as [ped_ref|]; cbn [lift_opt ret raise]; [|done].
  destruct (load (arrays w) ped_ref) as [ped|]; [|done].
  destruct (pedcorrectedsamples raw ped) as [|corrected]; cbn [lift ret raise]; [done|].
  destruct (LocalPeakWindowSum corrected) as [|[integration pt]];
    cbn [lift ret raise]; [done|].
  cbn [alloc map_array data shape arrays set_arrays event].
  rewrite mc_tel_getitem_present by (cbn [event set_arrays]; by rewrite E1).
  cbn [event set_arrays].
  fold (signals_ref w integration pt).
  change (set_arrays _ (set_arrays _ w)) with (after_extraction w integration pt).
  assert (forall r a, load (arrays w) r = Some a ->
            load (arrays (after_extraction w integration pt)) r = Some a) as Hkept.
  { intros r a. apply load_kept. intros l. apply after_extraction_kept. }
  destruct (dc_to_pe _) as [dc|]; cbn [lift_opt ret raise]; [|done].
  pose proof (imul_outcome (signals_ref w integration pt) dc
                (after_extraction w integration pt)) as Himul.
  destruct (imul _ dc _) as [u w'|e w'].
  - destruct Himul as (b & ->).
    unfold setattr_dl1, modify.
    cbn [event set_event set_dl1_tel set_arrays after_extraction thresholds arrays
         r0_tel mc_tel inst_subarray_tel dl1_tel].
    split; [done|]. split.
    { intros r a Hl. apply (load_kept (arrays w)); [|done]. intros l Hin.
      rewrite lookup_insert_ne.
      - by apply (after_extraction_kept w integration pt).
      - intros Heq. rewrite <- Heq in Hin. by apply signals_fresh in Hin. }
    repeat (split; [done|]). intros id Hne. by rewrite !lookup_insert_ne.
  - subst w'. done.
Qed.

End CalibrationExtras.

(** * Calibration followed by combination *)

Section Pipeline.

Context {A Th : Type} `{Dtype A}.
Variable LocalPeakWindowSum : ndarray A -> exn + (ndarray A * ndarray A).
Variable select_gains :
  gmap string Th -> string -> ndarray A -> exn + (ndarray A * ndarray bool).
Implicit Types (w : World A Th) (r : aref).

(** Calibration followed by combination.  On an event that holds a raw
    waveform, pedestals and conversion factors of a telescope, with an
    extractor that yields charges and pulse times of two channels and [P]
    pixels and a selector whose gain mask on the raw waveform has shape
    [[P; S]], [lst_calibration] and then [combine_channels] both return,
    and the image left in the slot of the telescope holds, for every
    pixel, the charge of the extractor in the channel that the signal mask
    names, converted to float and multiplied by the conversion factor of
    that channel and pixel. *)
Theorem calibrate_then_combine
    w tel th tdesc raw_ref ped_ref dc_ref raw ped factors corrected integration pt
    W' gm P S :
  inst_subarray_tel (event w) !! tel = Some tdesc ->
  waveform (tel_get empty_r0 (r0_tel (event w)) tel) = Some raw_ref ->
  pedestal (tel_get empty_mc (mc_tel (event w)) tel) = Some ped_ref ->
  dc_to_pe (tel_get empty_mc (mc_tel (event w)) tel) = Some dc_ref ->
  load (arrays w) raw_ref = Some raw ->
  load (arrays w) ped_ref = Some ped ->
  load (arrays w) dc_ref = Some factors ->
  pedcorrectedsamples raw ped = inr corrected ->
  LocalPeakWindowSum corrected = inr (integration, pt) ->
  shape integration = [2; P] -> wf_array integration ->
  shape pt = [2; P] -> wf_array pt ->
  shape factors = [2; P] -> wf_array factors ->
  select_gains (<[cam_id (camera tdesc) := th]> (thresholds w))
    (cam_id (camera tdesc)) raw = inr (W', gm) ->
  shape gm = [P; S] -> wf_array gm -> 0 < S ->
  exists w1 w2 ci img sm,
    lst_calibration LocalPeakWindowSum tel w = Return tt w1 /\
    combine_channels select_gains tel th w1 = Return tt w2 /\
    image (tel_get empty_dl1 (dl1_tel (event w2)) tel) = Some ci /\
    load (arrays w2) ci = Some (NDArray [P] img) /\
    max_axis1 gm = inr (NDArray [P] sm) /\
    forall p, p < P ->
      exists b q f,
        sm !! p = Some b /\
        get2 integration (channel b) p = Some q /\
        get2 factors (channel b) p = Some f /\
        img !! p = Some (multiply (astype_float q) f).
Proof.
  intros Htel Hraw Hped Hdc Lraw Lped Ldc Hcorr Hext Hsi Hwi Hsp Hwp Hsf Hwf
         Hsel Hgm Hwg HS.
  assert (shape factors = shape integration) as Hsfi by congruence.
  pose proof (lst_calibration_returns LocalPeakWindowSum w tel raw_ref ped_ref dc_ref raw ped factors
                corrected integration pt Hraw Hped Hdc Lraw Lped Ldc Hcorr Hext
                Hwi Hsfi Hwf) as Hcal.
  destruct (calibrated_world_facts w tel integration pt factors Hwi Hsfi Hwf)
    as (Hth & Hkept & Lsig & Lpt).
  set (w1 := calibrated_world w tel integration pt factors) in *.
  set (scaled := zip_with multiply (astype_float <$> data integration) (data factors))
    in *.
  destruct (signal_mask_pixels gm P S Hgm Hwg HS) as (sm & Hmax & Hsm & _).
  assert (event w1
          = set_dl1_tel (insert tel (calibrated_slot w integration pt)) (event w))
    as Hev by done.
  assert (length scaled = 2 * P) as Hls.
  { unfold scaled. rewrite length_zip_with, length_fmap. unfold wf_array in *.
    rewrite Hsi in Hwi. rewrite Hsf in Hwf. cbn in Hwi, Hwf. lia. }
  destruct (gain_selection_pixels select_gains w1 raw_ref
              (signals_ref w integration pt) (pulse_time_ref w pt)
              (cam_id (camera tdesc)) th raw W' gm P sm
              (NDArray [2; P] scaled) pt)
    as (ci & cpt & w0 & img & tim & Hrun & _ & _ & Hi & _ & _ & _ & Hpix);
    try done.
  { by apply Hkept. }
  { by rewrite Lsig, Hsi. }
  { unfold wf_array. cbn. lia. }
  eexists w1, _, ci, img, sm. split; [done|]. split.
  { rewrite (combine_channels_run select_gains w1 tel th tdesc raw_ref
               (signals_ref w integration pt) (pulse_time_ref w pt)).
    - rewrite Hrun. reflexivity.
    - by rewrite Hev.
    - by rewrite Hev.
    - rewrite Hev. cbn. unfold tel_get. by rewrite lookup_insert_eq.
    - rewrite Hev. cbn. unfold tel_get. by rewrite lookup_insert_eq. }
  cbn [event set_event set_dl1_tel dl1_tel arrays].
  unfold tel_get. rewrite lookup_insert_eq. cbn.
  repeat (split; [done|]). intros p Hlt.
  destruct (lookup_lt_is_Some_2 sm p) as [b Hb]; [lia|].
  destruct (Hpix p b Hb) as (x & y & Hx & Hcx & _).
  destruct integration as [shi di], factors as [shf df]. cbn [shape data] in *.
  subst shi shf. unfold wf_array in Hwi, Hwf. cbn in Hwi, Hwf.
  assert (channel b < 2) as Hch by (destruct b; cbn; lia).
  assert (channel b * P + p < 2 * P) as Hidx by (destruct b; cbn; lia).
  destruct (lookup_lt_is_Some_2 di (channel b * P + p)) as [q Hq]; [lia|].
  destruct (lookup_lt_is_Some_2 df (channel b * P + p)) as [f Hf]; [lia|].
  assert (forall T (l : list T) v, l !! (channel b * P + p) = Some v ->
            get2 (NDArray [2; P] l) (channel b) p = Some v) as Hget.
  { intros T l v Hv. unfold get2. cbn [shape data].
    destruct (Nat.ltb_spec (channel b) 2); [|lia].
    destruct (Nat.ltb_spec p P); [|lia]. done. }
  exists b, q, f. split; [done|]. split; [by apply Hget|]. split; [by apply Hget|].
  rewrite Hx, <- Hcx. apply Hget. unfold scaled.
  rewrite lookup_zip_with, list_lookup_fmap, Hq. cbn. by rewrite Hf.
Qed.

End Pipeline.

(** * Repeated calls *)

Section Repeated.

Context {A Th : Type}.
Variable select_gains :
  gmap string Th -> string -> ndarray A -> exn + (ndarray A * ndarray bool).
Implicit Types (w : World A Th) (r : aref).

(** [gain_selection] can be repeated on the same two-channel arrays: it
    has not changed them, so a second call with the same arguments returns
    again, and its results hold the same values as those of the first
    call, which stay as they were. *)
Theorem gain_selection_repeatable
    w wfm c t cam th W W' gm P S Carr Tarr :
  load (arrays w) wfm = Some W ->
  select_gains (<[cam := th]> (thresholds w)) cam W = inr (W', gm) ->
  shape gm = [P; S] -> wf_array gm -> 0 < S ->
  load (arrays w) c = Some Carr -> shape Carr = [2; P] -> wf_array Carr ->
  load (arrays w) t = Some Tarr -> shape Tarr = [2; P] -> wf_array Tarr ->
  exists ci cpt w1 ci' cpt' w2 img tim,
    gain_selection select_gains wfm c t cam th w = Return (ci, cpt) w1 /\
    gain_selection select_gains wfm c t cam th w1 = Return (ci', cpt') w2 /\
    load (arrays w1) ci = Some (NDArray [P] img) /\
    load (arrays w1) cpt = Some (NDArray [P] tim) /\
    load (arrays w2) ci' = Some (NDArray [P] img) /\
    load (arrays w2) cpt' = Some (NDArray [P] tim) /\
    load (arrays w2) ci = Some (NDArray [P] img) /\
    load (arrays w2) cpt = Some (NDArray [P] tim).
Proof.
  intros Hw Hsel Hgm Hwf HS Hc HsC HwC Ht HsT HwT.
  destruct (signal_mask_pixels gm P S Hgm Hwf HS) as (sm & Hmax & Hsm & _).
  destruct (gain_selection_pixels select_gains w wfm c t cam th W W' gm P sm Carr Tarr)
    as (ci & cpt & w1 & img & tim & Hrun & _ & _ & Hi & Li & Hp & Lp & Hpix); try done.
  pose proof (gain_selection_frame select_gains wfm c t cam th w) as Hf1.
  rewrite Hrun in Hf1. destruct Hf1 as (_ & Hk1 & _ & _).
  assert (thresholds w1 = <[cam := th]> (thresholds w)) as Hth.
  { pose proof (gain_selection_final_thresholds select_gains wfm c t cam th w [P]) as E.
    rewrite Hrun in E. apply E. by rewrite <- (load_shape _ _ _ Hc). }
  destruct (gain_selection_pixels select_gains w1 wfm c t cam th W W' gm P sm Carr Tarr)
    as (ci' & cpt' & w2 & img' & tim' & Hrun' & _ & _ & Hi' & Li' & Hp' & Lp' & Hpix');
    try done.
  { by apply (load_kept (arrays w)). }
  { by rewrite Hth, insert_insert_eq. }
  { by apply (load_kept (arrays w)). }
  { by apply (load_kept (arrays w)). }
  pose proof (gain_selection_frame select_gains wfm c t cam th w1) as Hf2.
  rewrite Hrun' in Hf2. destruct Hf2 as (_ & Hk2 & _ & _).
  assert (img' = img /\ tim' = tim) as [-> ->].
  { split; apply list_eq; intros p.
    - destruct (decide (p < P)) as [Hlt|Hge].
      + destruct (lookup_lt_is_Some_2 sm p) as [b Hb]; [lia|].
        destruct (Hpix p b Hb) as (x & y & Hx & Hcx & _).
        destruct (Hpix' p b Hb) as (x' & y' & Hx' & Hcx' & _). congruence.
      + rewrite !lookup_ge_None_2; [done|lia..].
    - destruct (decide (p < P)) as [Hlt|Hge].
      + destruct (lookup_lt_is_Some_2 sm p) as [b Hb]; [lia|].
        destruct (Hpix p b Hb) as (x & y & _ & _ & Hy & Hcy).
        destruct (Hpix' p b Hb) as (x' & y' & _ & _ & Hy' & Hcy'). congruence.
      + rewrite !lookup_ge_None_2; [done|lia..]. }
  exists ci, cpt, w1, ci', cpt', w2, img, tim. repeat (split; [done|]).
  split; by apply (load_kept (arrays w1)).
Qed.

End Repeated.

Section CalibrationRepeated.

Context {A Th : Type} `{Dtype A}.
Variable LocalPeakWindowSum : ndarray A -> exn + (ndarray A * ndarray A).
Implicit Types (w : World A Th) (r : aref).

(** [lst_calibration] can be repeated: it has changed neither the raw
    waveform nor the pedestals nor the conversion factors, so a second run
    returns as the first did and rebinds the slot of the telescope to two
    new arrays that hold the same charges and pulse times. *)
Theorem lst_calibration_repeatable
    w tel raw_ref ped_ref dc_ref raw ped factors corrected integration pt :
  waveform (tel_get empty_r0 (r0_tel (event w)) tel) = Some raw_ref ->
  pedestal (tel_get empty_mc (mc_tel (event w)) tel) = Some ped_ref ->
  dc_to_pe (tel_get empty_mc (mc_tel (event w)) tel) = Some dc_ref ->
  load (arrays w) raw_ref = Some raw ->
  load (arrays w) ped_ref = Some ped ->
  load (arrays w) dc_ref = Some factors ->
  pedcorrectedsamples raw ped = inr corrected ->
  LocalPeakWindowSum corrected = inr (integration, pt) ->
  wf_array integration ->
  shape factors = shape integration -> wf_array factors ->
  exists w1 w2 img tim,
    lst_calibration LocalPeakWindowSum tel w = Return tt w1 /\
    lst_calibration LocalPeakWindowSum tel w1 = Return tt w2 /\
    image (tel_get empty_dl1 (dl1_tel (event w2)) tel) = Some img /\
    pulse_time (tel_get empty_dl1 (dl1_tel (event w2)) tel) = Some tim /\
    load (arrays w2) img
    = Some (NDArray (shape integration)
              (zip_with multiply (astype_float <$> data integration) (data factors))) /\
    load (arrays w2) tim = Some pt /\
    buf img <> buf (signals_ref w integration pt).
Proof.
  intros Hraw Hped Hdc Lraw Lped Ldc Hcorr Hext Hwi Hsf Hwf.
  destruct (calibrated_world_facts w tel integration pt factors Hwi Hsf Hwf)
    as (_ & Hkept & Lsig & _).
  set (w1 := calibrated_world w tel integration pt factors) in *.
  destruct (calibrated_world_facts w1 tel integration pt factors Hwi Hsf Hwf)
    as (_ & _ & Lsig' & Lpt').
  assert (buf (signals_ref w1 integration pt) <> buf (signals_ref w integration pt))
    as Hne.
  { intros Heq. apply (signals_fresh w1 integration pt).
    pose proof (load_Some_dom _ _ _ Lsig) as Hin. by rewrite <- Heq in Hin. }
  exists w1, (calibrated_world w1 tel integration pt factors),
    (signals_ref w1 integration pt), (pulse_time_ref w1 pt).
  split; [by eapply lst_calibration_returns|]. split.
  { eapply lst_calibration_returns; try done; by apply Hkept. }
  repeat split; try done.
  - unfold calibrated_world at 1. cbn [event set_event set_dl1_tel dl1_tel].
    unfold tel_get. by rewrite lookup_insert_eq.
  - unfold calibrated_world at 1. cbn [event set_event set_dl1_tel dl1_tel].
    unfold tel_get. by rewrite lookup_insert_eq.
Qed.

(** A waveform without samples does not stop the subtraction: the number
    of samples is 0, the division by it is done entry by entry as numpy
    does it, without raising, and the corrected waveform is the empty
    array of the shape of the raw one. *)
Theorem pedestal_subtraction_without_samples (raw ped : ndarray A) G P :
  shape raw = [G; P; 0] -> wf_array raw ->
  shape ped = [G; P] ->
  pedcorrectedsamples raw ped = inr (NDArray [G; P; 0] []).
Proof.
  destruct raw as [shr dr], ped as [shp dp]. unfold wf_array. cbn [shape data].
  intros -> Hr ->.
  assert (dr = []) as ->.
  { apply length_zero_iff_nil. rewrite Hr. cbn. lia. }
  unfold pedcorrectedsamples, atleast_3d, map_array, elementwise.
  cbn [shape data lookup list_lookup].
  rewrite broadcast_shapes_samples.
  unfold broadcast_to. cbn [shape data].
  replace (numel [G; P; 0]) with 0 by (cbn; lia). reflexivity.
Qed.

End CalibrationRepeated.

(** * Fields that were never set *)

Section MissingFields.

Context {A Th : Type}.
Variable select_gains :
  gmap string Th -> string -> ndarray A -> exn + (ndarray A * ndarray bool).
Implicit Types (w : World A Th) (r : aref).

(** A slot that holds two-channel charges of [P] pixels and no pulse
    times: [combine_channels] gets into [gain_selection], which records
    the threshold and builds the combined image in a new buffer, and
    raises when it comes to the pulse times, which are [None].  The event
    is as it was, so the slot still holds the two-channel charges. *)
Theorem combine_channels_without_pulse_time_raises
    w tel_id th tdesc wfm c W W' gm P S Carr :
  inst_subarray_tel (event w) !! tel_id = Some tdesc ->
  waveform (tel_get empty_r0 (r0_tel (event w)) tel_id) = Some wfm ->
  image (tel_get empty_dl1 (dl1_tel (event w)) tel_id) = Some c ->
  pulse_time (tel_get empty_dl1 (dl1_tel (event w)) tel_id) = None ->
  load (arrays w) wfm = Some W ->
  select_gains (<[cam_id (camera tdesc) := th]> (thresholds w))
    (cam_id (camera tdesc)) W = inr (W', gm) ->
  shape gm = [P; S] -> wf_array gm -> 0 < S ->
  load (arrays w) c = Some Carr -> shape Carr = [2; P] -> wf_array Carr ->
  exists sm,
    max_axis1 gm = inr (NDArray [P] sm) /\
    combine_channels select_gains tel_id th w
    = Raise NoneError
        (set_arrays
           (insert (fresh (dom (arrays w)))
                   (merge sm (take P (data Carr)) (drop P (data Carr))))
           (set_thresholds (insert (cam_id (camera tdesc)) th) w)).
Proof.
  intros Htel Hwf Hic Hit Hw Hsel Hgm Hwg HS Hc HsC HwC.
  destruct (signal_mask_pixels gm P S Hgm Hwg HS) as (sm & Hmax & Hsm & _).
  exists sm. split; [done|].
  destruct Carr as [shC C]. cbn [shape data] in *. subst shC.
  unfold wf_array in HwC. cbn in HwC.
  destruct (combine_channels_steps select_gains w tel_id th tdesc Htel)
    as (w0 & _ & _ & _ & Hsame & ->).
  rewrite Hsame; [|by eapply waveform_present|by eapply image_present].
  rewrite Hwf, Hic, Hit.
  assert (gain_selection_values select_gains (Some wfm) (Some c) None
            (cam_id (camera tdesc)) th w
          = Raise NoneError
              (set_arrays (insert (fresh (dom (arrays w))) (merge sm (take P C) (drop P C)))
                 (set_thresholds (insert (cam_id (camera tdesc)) th) w))) as ->; [|done].
  unfold gain_selection_values.
  etrans; [apply bind_Return; reflexivity|]. cbv beta.
  unfold shape_at. rewrite <- (load_shape _ _ _ Hc). cbn [shape lookup list_lookup lift].
  etrans; [apply bind_Return; reflexivity|]. cbv beta.
  etrans; [apply bind_Return; reflexivity|]. cbv beta.
  etrans; [apply (gain_selection_until_mask select_gains _ _ _ _ W _ Hw)|].
  rewrite Hsel. cbv beta iota. rewrite Hmax. cbn [lift].
  etrans; [apply bind_Return; reflexivity|]. cbv beta.
  etrans; [apply (combine_steps _ _ P C sm); [done|lia|done]|].
  reflexivity.
Qed.

End MissingFields.

Section MissingRawData.

Context {A Th : Type} `{Dtype A}.
Variable LocalPeakWindowSum : ndarray A -> exn + (ndarray A * ndarray A).
Implicit Types (w : World A Th) (r : aref).

(** A telescope without raw data, because [r0.tel] does not hold it or
    because its waveform was never set: [lst_calibration] raises at
    [data.shape], with [None] for [data].  The two lookups before that
    have stored an empty container in each of [r0.tel] and [mc.tel] that
    did not hold the telescope; arrays, thresholds and the [dl1] slots
    are as they were, and so is what the maps hand out for every id. *)
Theorem lst_calibration_without_raw_data_raises w tel :
  waveform (tel_get empty_r0 (r0_tel (event w)) tel) = None ->
  exists w',
    lst_calibration LocalPeakWindowSum tel w = Raise NoneError w' /\
    arrays w' = arrays w /\ thresholds w' = thresholds w /\
    dl1_tel (event w') = dl1_tel (event w) /\
    inst_subarray_tel (event w') = inst_subarray_tel (event w) /\
    is_Some (r0_tel (event w') !! tel) /\ is_Some (mc_tel (event w') !! tel) /\
    (forall id, tel_get empty_r0 (r0_tel (event w')) id
                = tel_get empty_r0 (r0_tel (event w)) id) /\
    (forall id, tel_get empty_mc (mc_tel (event w')) id
                = tel_get empty_mc (mc_tel (event w)) id) /\
    (is_Some (r0_tel (event w) !! tel) -> is_Some (mc_tel (event w) !! tel) -> w' = w).
Proof.
  intros Hraw.
  set (wa := match r0_tel (event w) !! tel with
             | Some _ => w
             | None => set_event (set_r0_tel (insert tel empty_r0)) w
             end).
  set (wb := match mc_tel (event wa) !! tel with
             | Some _ => wa
             | None => set_event (set_mc_tel (insert tel empty_mc)) wa
             end).
  exists wb. split.
  { unfold lst_calibration.
    etrans; [apply bind_Return, r0_tel_getitem_run|]. cbv beta zeta. fold wa.
    etrans; [apply bind_Return, mc_tel_getitem_run|]. cbv beta zeta. fold wb.
    rewrite Hraw. apply bind_Raise. reflexivity. }
  assert (mc_tel (event wa) = mc_tel (event w)) as Hmc.
  { unfold wa. by destruct (r0_tel (event w) !! tel). }
  unfold wb. rewrite Hmc. unfold wa.
  destruct (r0_tel (event w) !! tel) as [c0|] eqn:E0,
           (mc_tel (event w) !! tel) as [c1|] eqn:E1;
    cbn [arrays thresholds event set_event set_r0_tel set_mc_tel
         r0_tel mc_tel dl1_tel inst_subarray_tel];
    rewrite ?E0, ?E1, ?lookup_insert_eq;
    repeat split; try done; try (by eexists);
    try (intros id; by apply tel_get_insert_empty);
    try (by intros [? ?]); try (by intros _ [? ?]).
Qed.

End MissingRawData.

(** * The worked event, continued *)

(** Under a threshold of 100 nothing triggers. *)
Lemma gain_selection_unsaturated_keeps_high_gain_witness :
  exists ci cpt w',
    gain_selection threshold_select_gains ex_waveform ex_charges ex_pulse_time
      "LSTCam" 100%Z ex_world = Return (ci, cpt) w' /\
    load (arrays w') ci = Some (NDArray [2] (take 2 [10; 10; 5; 5]%Z)) /\
    load (arrays w') cpt = Some (NDArray [2] (take 2 [1; 2; 3; 4]%Z)).
Proof.
  apply (gain_selection_unsaturated_keeps_high_gain threshold_select_gains ex_world
           ex_waveform ex_charges ex_pulse_time "LSTCam" 100%Z
           (NDArray [2; 2; 3] [0; 9; 0; 1; 2; 3; 0; 0; 0; 0; 0; 0]%Z)
           (NDArray [2; 3] [0; 9; 0; 1; 2; 3]%Z)
           (NDArray [2; 3] [false; false; false; false; false; false]) 2 3
           (NDArray [2; 2] [10; 10; 5; 5]%Z) (NDArray [2; 2] [1; 2; 3; 4]%Z));
    first [ compute_hyp | repeat constructor ].
Defined.

(** Under a threshold of -1 everything triggers. *)
Lemma gain_selection_saturated_takes_low_gain_witness :
  exists ci cpt w',
    gain_selection threshold_select_gains ex_waveform ex_charges ex_pulse_time
      "LSTCam" (-1)%Z ex_world = Return (ci, cpt) w' /\
    load (arrays w') ci = Some (NDArray [2] (drop 2 [10; 10; 5; 5]%Z)) /\
    load (arrays w') cpt = Some (NDArray [2] (drop 2 [1; 2; 3; 4]%Z)).
Proof.
  apply (gain_selection_saturated_takes_low_gain threshold_select_gains ex_world
           ex_waveform ex_charges ex_pulse_time "LSTCam" (-1)%Z
           (NDArray [2; 2; 3] [0; 9; 0; 1; 2; 3; 0; 0; 0; 0; 0; 0]%Z)
           (NDArray [2; 3] [0; 0; 0; 0; 0; 0]%Z)
           (NDArray [2; 3] [true; true; true; true; true; true]) 2 3
           (NDArray [2; 2] [10; 10; 5; 5]%Z) (NDArray [2; 2] [1; 2; 3; 4]%Z));
    first [ compute_hyp | repeat constructor ].
Defined.

(** The threshold selector rejects a waveform of two axes. *)
Lemma gain_selection_selector_error_propagates_witness :
  gain_selection threshold_select_gains ex_three_channels ex_charges ex_pulse_time
    "LSTCam" 4%Z ex_world
  = Raise ValueError (set_thresholds (insert "LSTCam" 4%Z) ex_world).
Proof.
  apply (gain_selection_selector_error_propagates threshold_select_gains ex_world
           ex_three_channels ex_charges ex_pulse_time "LSTCam" 4%Z
           (NDArray [3; 2] [1; 1; 1; 1; 1; 1]%Z) [2]);
    compute_hyp.
Defined.

Lemma gain_selection_without_samples_raises_witness :
  gain_selection threshold_select_gains ex_no_samples ex_charges ex_pulse_time
    "LSTCam" 4%Z ex_world
  = Raise ValueError (set_thresholds (insert "LSTCam" 4%Z) ex_world).
Proof.
  apply (gain_selection_without_samples_raises threshold_select_gains ex_world
           ex_no_samples ex_charges ex_pulse_time "LSTCam" 4%Z
           (NDArray [2; 2; 0] []) (NDArray [2; 0] []) (NDArray [2; 0] []) [2] 2 []);
    compute_hyp.
Defined.


Lemma gain_selection_rejects_combined_charges_witness :
  exists e w',
    gain_selection threshold_select_gains ex_waveform ex_single_channel ex_pulse_time
      "LSTCam" 4%Z ex_world = Raise e w' /\
    (4 <> 2 -> e = AssertionError /\ w' = ex_world).
Proof.
  apply (gain_selection_rejects_combined_charges threshold_select_gains ex_world
           ex_waveform ex_single_channel ex_pulse_time "LSTCam" 4%Z 4).
  reflexivity.
Defined.

Lemma gain_selection_ignores_stale_threshold_witness :
  gain_selection threshold_select_gains ex_waveform ex_charges ex_pulse_time
    "LSTCam" 4%Z (set_thresholds (insert "LSTCam" 99%Z) ex_world)
  = gain_selection threshold_select_gains ex_waveform ex_charges ex_pulse_time
      "LSTCam" 4%Z ex_world.
Proof.
  apply (gain_selection_ignores_stale_threshold threshold_select_gains ex_world
           ex_waveform ex_charges ex_pulse_time "LSTCam" 4%Z [2] 99%Z).
  reflexivity.
Defined.

Lemma gain_selection_results_do_not_alias_witness :
  exists ci cpt w',
    gain_selection threshold_select_gains ex_waveform ex_charges ex_pulse_time
      "LSTCam" 4%Z ex_world = Return (ci, cpt) w' /\
    buf ci <> buf cpt.
Proof.
  eexists _, _, _. split; [vm_compute; reflexivity|].
  match goal with
  | |- buf ?ci <> buf ?cpt =>
      eapply (gain_selection_results_do_not_alias threshold_select_gains
                ex_waveform ex_charges ex_pulse_time "LSTCam" 4%Z ex_world ci cpt)
  end.
  vm_compute. reflexivity.
Defined.

Lemma gain_selection_drops_gain_axis_witness :
  exists ci cpt w',
    gain_selection threshold_select_gains ex_waveform ex_charges ex_pulse_time
      "LSTCam" 4%Z ex_world = Return (ci, cpt) w' /\
    vshape ex_charges = 2 :: vshape ci /\
    exists d, vshape ex_pulse_time = d :: vshape cpt.
Proof.
  eexists _, _, _. split; [vm_compute; reflexivity|].
  match goal with
  | |- _ = 2 :: vshape ?ci /\ (exists d, _ = d :: vshape ?cpt) =>
      eapply (gain_selection_drops_gain_axis threshold_select_gains
                ex_waveform ex_charges ex_pulse_time "LSTCam" 4%Z ex_world ci cpt)
  end.
  vm_compute. reflexivity.
Defined.

Lemma gain_selection_thresholds_accumulate_witness :
  thresholds
    (final_world
       (gain_selection threshold_select_gains ex_waveform ex_charges ex_pulse_time
          "NectarCam" 7%Z
          (final_world
             (gain_selection threshold_select_gains ex_waveform ex_charges
                ex_pulse_time "LSTCam" 4%Z ex_world))))
  = <["NectarCam" := 7%Z]> (<["LSTCam" := 4%Z]> (thresholds ex_world)).
Proof.
  apply (gain_selection_thresholds_accumulate threshold_select_gains ex_world
           ex_waveform ex_charges ex_pulse_time "LSTCam" 4%Z [2]
           ex_waveform ex_charges ex_pulse_time "NectarCam" 7%Z [2]);
    reflexivity.
Defined.

Lemma combine_channels_combines_slot_witness :
  exists w' ci cpt img tim sm,
    combine_channels threshold_select_gains 1%Z 4%Z ex_world = Return tt w' /\
    image (tel_get empty_dl1 (dl1_tel (event w')) 1%Z) = Some ci /\
    pulse_time (tel_get empty_dl1 (dl1_tel (event w')) 1%Z) = Some cpt /\
    load (arrays w') ci = Some (NDArray [2] img) /\
    load (arrays w') cpt = Some (NDArray [2] tim) /\
    max_axis1 ex_gain_mask = inr (NDArray [2] sm) /\
    forall p, p < 2 ->
      exists b x y,
        sm !! p = Some b /\
        img !! p = Some x /\
        get2 (NDArray [2; 2] [10; 10; 5; 5]%Z) (channel b) p = Some x /\
        tim !! p = Some y /\
        get2 (NDArray [2; 2] [1; 2; 3; 4]%Z) (channel b) p = Some y.
Proof.
  apply (combine_channels_combines_slot threshold_select_gains ex_world 1%Z 4%Z
           {| camera := {| cam_id := "LSTCam" |} |}
           ex_waveform ex_charges ex_pulse_time
           (NDArray [2; 2; 3] [0; 9; 0; 1; 2; 3; 0; 0; 0; 0; 0; 0]%Z)
           ex_selected ex_gain_mask 2 3
           (NDArray [2; 2] [10; 10; 5; 5]%Z) (NDArray [2; 2] [1; 2; 3; 4]%Z));
    compute_hyp.
Defined.

(** A slot without pulse times: the call gets into [gain_selection],
    which records the threshold and combines the charges before it fails
    at the pulse times; the slot still holds the two-channel charges. *)
Lemma combine_channels_failure_keeps_slots_witness :
  exists w',
    combine_channels threshold_select_gains 1%Z 4%Z ex_world_no_pulse_time
    = Raise NoneError w' /\
    thresholds w' !! "LSTCam" = Some 4%Z /\
    load (arrays w') (ARef 7%positive (seq 0 2) [2]) = Some (NDArray [2] [5; 10]%Z) /\
    (forall id, tel_get empty_dl1 (dl1_tel (event w')) id
                = tel_get empty_dl1 (dl1_tel (event ex_world_no_pulse_time)) id) /\
    (forall r a, load (arrays ex_world_no_pulse_time) r = Some a ->
                 load (arrays w') r = Some a).
Proof.
  eexists. split; [vm_compute; reflexivity|].
  split; [vm_compute; reflexivity|]. split; [vm_compute; reflexivity|].
  eapply (combine_channels_failure_keeps_slots threshold_select_gains
            ex_world_no_pulse_time 1%Z 4%Z NoneError).
  vm_compute. reflexivity.
Defined.

(** Telescope 2 is not in the subarray: the call stops at the lookup of
    its camera. *)
Example ex_combine_channels_unknown_telescope :
  combine_channels threshold_select_gains 2%Z 4%Z ex_world = Raise KeyError ex_world.
Proof. vm_compute. reflexivity. Qed.

(** A slot that was never calibrated: its charges are [None], which has
    no shape, and the lookups have stored nothing new. *)
Example ex_combine_channels_without_charges :
  combine_channels threshold_select_gains 1%Z 4%Z
    (set_event (set_dl1_tel (fun _ => ∅)) ex_world)
  = Raise NoneError
      (set_event (set_dl1_tel (fun _ => {[ 1%Z := empty_dl1 ]})) ex_world).
Proof. vm_compute. reflexivity. Qed.

Lemma combine_channels_twice_raises_witness :
  exists w1,
    combine_channels threshold_select_gains 1%Z 4%Z ex_world = Return tt w1 /\
    exists e w2, combine_channels threshold_select_gains 1%Z 9%Z w1 = Raise e w2.
Proof.
  eexists. split; [vm_compute; reflexivity|].
  match goal with
  | |- exists e w2, combine_channels _ _ _ ?w1 = _ =>
      apply (combine_channels_twice_raises threshold_select_gains ex_world 1%Z 4%Z 9%Z
               ex_charges 2 w1)
  end; vm_compute; reflexivity.
Defined.

(** A waveform of two axes on an event whose [mc.tel] does not hold the
    telescope: the run raises, and the lookup of line 32 has left an empty
    container in [mc.tel]. *)
Lemma lst_calibration_needs_three_axes_witness :
  lst_calibration window_sum 1%Z ex_world_no_mc
  = Raise IndexError (set_event (set_mc_tel (insert 1%Z empty_mc)) ex_world_no_mc).
Proof.
  apply (lst_calibration_needs_three_axes window_sum ex_world_no_mc 1%Z
           ex_two_by_three);
    reflexivity.
Defined.

(** The same waveform on an event that holds pedestals for the telescope:
    nothing has changed. *)
Example ex_lst_calibration_two_axes :
  lst_calibration window_sum 1%Z
    (ex_world_of ex_two_by_three ex_raw_pedestal ex_raw_factors)
  = Raise IndexError (ex_world_of ex_two_by_three ex_raw_pedestal ex_raw_factors).
Proof. vm_compute. reflexivity. Qed.

(** Pedestals of three pixels for a waveform of two. *)
Lemma lst_calibration_pedestal_mismatch_raises_witness :
  pedcorrectedsamples ex_raw (NDArray [2; 3] [10; 19; 10; 11; 12; 13]%Q)
  = inl ValueError /\
  lst_calibration window_sum 1%Z
    (ex_world_of ex_raw_waveform ex_two_by_three ex_raw_factors)
  = Raise ValueError (ex_world_of ex_raw_waveform ex_two_by_three ex_raw_factors).
Proof.
  apply (lst_calibration_pedestal_mismatch_raises window_sum
           (ex_world_of ex_raw_waveform ex_two_by_three ex_raw_factors) 1%Z
           ex_raw_waveform ex_two_by_three ex_raw
           (NDArray [2; 3] [10; 19; 10; 11; 12; 13]%Q) 2 2 3 2 3);
    first [ reflexivity | lia ].
Defined.

Lemma lst_calibration_extractor_error_propagates_witness :
  lst_calibration failing_extractor 1%Z ex_raw_world = Raise ValueError ex_raw_world.
Proof.
  apply (lst_calibration_extractor_error_propagates failing_extractor ex_raw_world 1%Z
           ex_raw_waveform ex_raw_pedestal ex_raw ex_pedestal ex_corrected ValueError);
    compute_hyp.
Defined.

(** Conversion factors of three pixels for charges of two. *)
Lemma lst_calibration_factor_mismatch_raises_witness :
  exists w',
    lst_calibration window_sum 1%Z
      (ex_world_of ex_raw_waveform ex_raw_pedestal ex_two_by_three)
    = Raise ValueError w' /\
    event w' = event (ex_world_of ex_raw_waveform ex_raw_pedestal ex_two_by_three) /\
    (forall r a,
       load (arrays (ex_world_of ex_raw_waveform ex_raw_pedestal ex_two_by_three)) r
       = Some a -> load (arrays w') r = Some a).
Proof.
  apply (lst_calibration_factor_mismatch_raises window_sum
           (ex_world_of ex_raw_waveform ex_raw_pedestal ex_two_by_three) 1%Z
           ex_raw_waveform ex_raw_pedestal ex_two_by_three
           ex_raw ex_pedestal (NDArray [2; 3] [10; 19; 10; 11; 12; 13]%Q)
           ex_corrected ex_integration ex_times);
    first [ compute_hyp | vm_compute; discriminate ].
Defined.

(** The worked event, calibrated and combined under a threshold of 15:
    pixel 0 triggers and is read from the low gain. *)
Lemma calibrate_then_combine_witness :
  exists w1 w2 ci img sm,
    lst_calibration window_sum 1%Z ex_raw_world = Return tt w1 /\
    combine_channels threshold_select_gains_q 1%Z 15%Z w1 = Return tt w2 /\
    image (tel_get empty_dl1 (dl1_tel (event w2)) 1%Z) = Some ci /\
    load (arrays w2) ci = Some (NDArray [2] img) /\
    max_axis1 ex_gain_mask = inr (NDArray [2] sm) /\
    forall p, p < 2 ->
      exists b q f,
        sm !! p = Some b /\
        get2 ex_integration (channel b) p = Some q /\
        get2 ex_factors (channel b) p = Some f /\
        img !! p = Some (multiply (astype_float q) f).
Proof.
  apply (calibrate_then_combine window_sum threshold_select_gains_q ex_raw_world
           1%Z 15%Z {| camera := {| cam_id := "LSTCam" |} |}
           ex_raw_waveform ex_raw_pedestal ex_raw_factors
           ex_raw ex_pedestal ex_factors ex_corrected ex_integration ex_times
           (NDArray [2; 3] [10; 10; 10; 11; 12; 13]%Q) ex_gain_mask 2 3);
    compute_hyp.
Defined.

Example ex_calibrate_then_combine :
  match lst_calibration window_sum 1%Z ex_raw_world with
  | Return _ w1 =>
      match combine_channels threshold_select_gains_q 1%Z 15%Z w1 with
      | Return _ w2 =>
          (r ← image (tel_get empty_dl1 (dl1_tel (event w2)) 1%Z); load (arrays w2) r)
          = Some (NDArray [2] [0; 3]%Q)
      | Raise _ _ => False
      end
  | Raise _ _ => False
  end.
Proof. vm_compute. reflexivity. Qed.

(** One pedestal sum per pixel, shared by both channels. *)
Lemma pedestal_subtracted_shared_by_channels_witness :
  exists corrected,
    pedcorrectedsamples ex_raw (NDArray [2] [30; 30]%Q) = inr corrected /\
    shape corrected = [2; 2; 3] /\
    forall g p s, g < 2 -> p < 2 -> s < 3 ->
      exists x y,
        get3 ex_raw g p s = Some x /\ data (NDArray [2] [30; 30]%Q) !! p = Some y /\
        get3 corrected g p s
        = Some (subtract x (true_divide y (of_int (Z.of_nat 3)))).
Proof.
  apply (pedestal_subtracted_shared_by_channels ex_raw (NDArray [2] [30; 30]%Q) 2 2 3);
    compute_hyp.
Defined.

Lemma gain_selection_repeatable_witness :
  exists ci cpt w1 ci' cpt' w2 img tim,
    gain_selection threshold_select_gains ex_waveform ex_charges ex_pulse_time
      "LSTCam" 4%Z ex_world = Return (ci, cpt) w1 /\
    gain_selection threshold_select_gains ex_waveform ex_charges ex_pulse_time
      "LSTCam" 4%Z w1 = Return (ci', cpt') w2 /\
    load (arrays w1) ci = Some (NDArray [2] img) /\
    load (arrays w1) cpt = Some (NDArray [2] tim) /\
    load (arrays w2) ci' = Some (NDArray [2] img) /\
    load (arrays w2) cpt' = Some (NDArray [2] tim) /\
    load (arrays w2) ci = Some (NDArray [2] img) /\
    load (arrays w2) cpt = Some (NDArray [2] tim).
Proof.
  apply (gain_selection_repeatable threshold_select_gains ex_world
           ex_waveform ex_charges ex_pulse_time "LSTCam" 4%Z
           (NDArray [2; 2; 3] [0; 9; 0; 1; 2; 3; 0; 0; 0; 0; 0; 0]%Z)
           ex_selected ex_gain_mask 2 3
           (NDArray [2; 2] [10; 10; 5; 5]%Z) (NDArray [2; 2] [1; 2; 3; 4]%Z));
    compute_hyp.
Defined.

Lemma lst_calibration_repeatable_witness :
  exists w1 w2 img tim,
    lst_calibration window_sum 1%Z ex_raw_world = Return tt w1 /\
    lst_calibration window_sum 1%Z w1 = Return tt w2 /\
    image (tel_get empty_dl1 (dl1_tel (event w2)) 1%Z) = Some img /\
    pulse_time (tel_get empty_dl1 (dl1_tel (event w2)) 1%Z) = Some tim /\
    load (arrays w2) img
    = Some (NDArray (shape ex_integration)
              (zip_with multiply (astype_float <$> data ex_integration)
                        (data ex_factors))) /\
    load (arrays w2) tim = Some ex_times /\
    buf img <> buf (signals_ref ex_raw_world ex_integration ex_times).
Proof.
  apply (lst_calibration_repeatable window_sum ex_raw_world 1%Z
           (ARef 1%positive (seq 0 12) [2; 2; 3])
           (ARef 2%positive (seq 0 4) [2; 2])
           (ARef 3%positive (seq 0 4) [2; 2])
           ex_raw ex_pedestal ex_factors ex_corrected ex_integration ex_times);
    compute_hyp.
Defined.

Lemma pedestal_subtraction_without_samples_witness :
  pedcorrectedsamples (NDArray [2; 2; 0] []) (NDArray [2; 2] [30; 30; 0; 0]%Q)
  = inr (NDArray [2; 2; 0] []).
Proof.
  apply (pedestal_subtraction_without_samples
           (NDArray [2; 2; 0] []) (NDArray [2; 2] [30; 30; 0; 0]%Q) 2 2);
    compute_hyp.
Defined.

Lemma combine_channels_without_pulse_time_raises_witness :
  exists sm,
    max_axis1 ex_gain_mask = inr (NDArray [2] sm) /\
    combine_channels threshold_select_gains 1%Z 4%Z ex_world_no_pulse_time
    = Raise NoneError
        (set_arrays
           (insert (fresh (dom (arrays ex_world_no_pulse_time)))
                   (merge sm (take 2 (data (NDArray [2; 2] [10; 10; 5; 5]%Z)))
                             (drop 2 (data (NDArray [2; 2] [10; 10; 5; 5]%Z)))))
           (set_thresholds (insert "LSTCam" 4%Z) ex_world_no_pulse_time)).
Proof.
  apply (combine_channels_without_pulse_time_raises threshold_select_gains
           ex_world_no_pulse_time 1%Z 4%Z {| camera := {| cam_id := "LSTCam" |} |}
           ex_waveform ex_charges
           (NDArray [2; 2; 3] [0; 9; 0; 1; 2; 3; 0; 0; 0; 0; 0; 0]%Z)
           ex_selected ex_gain_mask 2 3 (NDArray [2; 2] [10; 10; 5; 5]%Z));
    compute_hyp.
Defined.

(** Telescope 2 is unknown to the worked event: both lookups store an
    empty container for it. *)
Lemma lst_calibration_without_raw_data_raises_witness :
  exists w',
    lst_calibration window_sum 2%Z ex_raw_world = Raise NoneError w' /\
    arrays w' = arrays ex_raw_world /\ thresholds w' = thresholds ex_raw_world /\
    dl1_tel (event w') = dl1_tel (event ex_raw_world) /\
    inst_subarray_tel (event w') = inst_subarray_tel (event ex_raw_world) /\
    is_Some (r0_tel (event w') !! 2%Z) /\ is_Some (mc_tel (event w') !! 2%Z) /\
    (forall id, tel_get empty_r0 (r0_tel (event w')) id
                = tel_get empty_r0 (r0_tel (event ex_raw_world)) id) /\
    (forall id, tel_get empty_mc (mc_tel (event w')) id
                = tel_get empty_mc (mc_tel (event ex_raw_world)) id) /\
    (is_Some (r0_tel (event ex_raw_world) !! 2%Z) ->
     is_Some (mc_tel (event ex_raw_world) !! 2%Z) -> w' = ex_raw_world).
Proof.
  apply (lst_calibration_without_raw_data_raises window_sum ex_raw_world 2%Z).
  reflexivity.
Defined.

Example ex_lst_calibration_unknown_telescope :
  lst_calibration window_sum 2%Z ex_raw_world
  = Raise NoneError
      (set_event (set_mc_tel (insert 2%Z empty_mc))
         (set_event (set_r0_tel (insert 2%Z empty_r0)) ex_raw_world)).
Proof. vm_compute. reflexivity. Qed.
